(** * VTR_Tacview: the ACMI parser and the simulation engine, embedded in Rocq

    The development follows the TypeScript sources

      - [src/services/acmi-parser.service.ts]   (module [Parser])
      - [src/services/simulation.service.ts]    (module [Simulation])
      - [src/utils/coordinates.ts], [src/utils/interpolation.ts]
      - [src/models/acmi.model.ts]              (module [Model])

    and, of the components around them, the filter of the object list
    (module [ObjectList]), [formatTime] of the playback controls (module
    [PlaybackControls]), the text path of [onFileChange] and the effect
    that fills the info panel (module [App]), and the follow target, the
    unit category, the shape name and the drawn position of the renderer
    (module [Renderer]).

    JavaScript numbers are modelled by [number]: not-a-number, the two
    infinities and the finite values, the latter as exact canonical
    rationals.  Rounding and the sign of zero are not modelled; the
    module [Binary64] repeats the two expressions of the interpolation
    on binary64 numbers to show a place where rounding matters.  Strings
    are sequences of 8-bit code units.  The platform ([Math.cos],
    [Math.sin], [Math.sqrt]) and the three.js operations the engine calls
    are a parameter of the engine, the class [Platform].

    [parse] returns a [result]: the dataset, or the error thrown.  The
    playback operations are functions from the state of the service to
    its next state.  The pose computation writes two module-level scratch
    objects and can fail on [undefined]; it is written in a state and
    error monad over the service and the scratch objects. *)

From Stdlib Require Import ZArith QArith Qcanon Bool List String Ascii.
From Stdlib Require Import Lia Lra Psatz Qround DecimalString Floats.
Import ListNotations.

Close Scope Qc_scope.
Close Scope Q_scope.

(* ================================================================== *)
(** * JavaScript numbers *)
(* ================================================================== *)

Module JsNumber.

Inductive number : Type :=
| NaN
| Inf (negative : bool)
| Fin (q : Qc).

Definition zero : number := Fin 0%Qc.
Definition one : number := Fin 1%Qc.
Definition ofZ (z : Z) : number := Fin (Q2Qc (inject_Z z)).

Definition Qc_ltb (p q : Qc) : bool :=
  match (p ?= q)%Qc with Lt => true | _ => false end.
Definition Qc_eqb (p q : Qc) : bool :=
  match (p ?= q)%Qc with Eq => true | _ => false end.

(** [isNegative] is the sign used by the multiplicative operations. *)
Definition isNegative (x : number) : bool :=
  match x with
  | NaN => false
  | Inf s => s
  | Fin q => Qc_ltb q 0%Qc
  end.

Definition neg (x : number) : number :=
  match x with
  | NaN => NaN
  | Inf s => Inf (negb s)
  | Fin q => Fin (- q)%Qc
  end.

Definition add (x y : number) : number :=
  match x, y with
  | NaN, _ | _, NaN => NaN
  | Inf s, Inf s' => if Bool.eqb s s' then Inf s else NaN
  | Inf s, Fin _ => Inf s
  | Fin _, Inf s => Inf s
  | Fin p, Fin q => Fin (p + q)%Qc
  end.

Definition sub (x y : number) : number := add x (neg y).

Definition mul (x y : number) : number :=
  match x, y with
  | NaN, _ | _, NaN => NaN
  | Inf s, Inf s' => Inf (xorb s s')
  | Inf s, Fin q => if Qc_eqb q 0%Qc then NaN else Inf (xorb s (Qc_ltb q 0%Qc))
  | Fin q, Inf s => if Qc_eqb q 0%Qc then NaN else Inf (xorb (Qc_ltb q 0%Qc) s)
  | Fin p, Fin q => Fin (p * q)%Qc
  end.

Definition div (x y : number) : number :=
  match x, y with
  | NaN, _ | _, NaN => NaN
  | Inf _, Inf _ => NaN
  | Inf s, Fin q => Inf (xorb s (Qc_ltb q 0%Qc))
  | Fin _, Inf _ => Fin 0%Qc
  | Fin p, Fin q =>
      if Qc_eqb q 0%Qc then
        (if Qc_eqb p 0%Qc then NaN else Inf (Qc_ltb p 0%Qc))
      else Fin (p / q)%Qc
  end.

(** The relational operators; every comparison with [NaN] is false. *)
Definition ltb (x y : number) : bool :=
  match x, y with
  | NaN, _ | _, NaN => false
  | Inf s, Inf s' => s && negb s'
  | Inf s, Fin _ => s
  | Fin _, Inf s => negb s
  | Fin p, Fin q => Qc_ltb p q
  end.

(** Strict equality [===] on numbers. *)
Definition eqb (x y : number) : bool :=
  match x, y with
  | NaN, _ | _, NaN => false
  | Inf s, Inf s' => Bool.eqb s s'
  | Fin p, Fin q => Qc_eqb p q
  | _, _ => false
  end.

Definition leb (x y : number) : bool := ltb x y || eqb x y.
Definition gtb (x y : number) : bool := ltb y x.
Definition geb (x y : number) : bool := leb y x.

(** [Math.max] and [Math.min] of two arguments. *)
Definition Math_max (x y : number) : number :=
  match x, y with
  | NaN, _ | _, NaN => NaN
  | _, _ => if ltb x y then y else x
  end.

Definition Math_min (x y : number) : number :=
  match x, y with
  | NaN, _ | _, NaN => NaN
  | _, _ => if ltb y x then y else x
  end.

(** The remainder operator [%]: the result has the sign of the dividend. *)
Definition Qc_trunc (q : Qc) : Z :=
  Z.quot (Qnum (this q)) (Zpos (Qden (this q))).

Definition rem (x y : number) : number :=
  match x, y with
  | NaN, _ | _, NaN => NaN
  | Inf _, _ => NaN
  | Fin p, Inf _ => Fin p
  | Fin p, Fin q =>
      if Qc_eqb q 0%Qc then NaN
      else Fin (p - q * Q2Qc (inject_Z (Qc_trunc (p / q))))%Qc
  end.

Definition isFinite (x : number) : bool :=
  match x with Fin _ => true | _ => false end.

Definition isNaN (x : number) : bool :=
  match x with NaN => true | _ => false end.

(** Decidable Leibniz equality, for evaluating examples. *)
Definition same (x y : number) : bool :=
  match x, y with
  | NaN, NaN => true
  | Inf s, Inf s' => Bool.eqb s s'
  | Fin p, Fin q => Qc_eqb p q
  | _, _ => false
  end.

End JsNumber.
Export JsNumber.

Declare Scope js_scope.
Delimit Scope js_scope with js.
Bind Scope js_scope with number.
Infix "+" := add : js_scope.
Infix "-" := sub : js_scope.
Infix "*" := mul : js_scope.
Infix "/" := div : js_scope.
Infix "<?" := ltb : js_scope.
Infix "<=?" := leb : js_scope.
Infix ">?" := gtb : js_scope.
Infix ">=?" := geb : js_scope.
Infix "===" := eqb (at level 70) : js_scope.

(* ================================================================== *)
(** * JavaScript strings *)
(* ================================================================== *)

Module JsString.

Local Open Scope string_scope.

Definition chars (s : string) : list ascii := list_ascii_of_string s.
Definition str (l : list ascii) : string := string_of_list_ascii l.

Definition code (c : ascii) : nat := nat_of_ascii c.

(** White space and line terminators removed by [String.prototype.trim],
    restricted to 8-bit code units. *)
Definition isWhiteSpace (c : ascii) : bool :=
  let n := code c in
  ((n =? 9) || (n =? 10) || (n =? 11) || (n =? 12) || (n =? 13)
   || (n =? 32) || (n =? 160))%nat.

Fixpoint trimStartChars (l : list ascii) : list ascii :=
  match l with
  | c :: r => if isWhiteSpace c then trimStartChars r else l
  | [] => []
  end.

Definition trimEndChars (l : list ascii) : list ascii :=
  rev (trimStartChars (rev l)).

Definition trim (s : string) : string :=
  str (trimEndChars (trimStartChars (chars s))).

Definition isEmpty (s : string) : bool :=
  match s with EmptyString => true | _ => false end.

Definition startsWith (s p : string) : bool := String.prefix p s.

Definition endsWith (s p : string) : bool :=
  String.prefix (str (rev (chars p))) (str (rev (chars s))).

(** [s.substring(from, to)]: both indices are clamped to the length and
    swapped when [from > to]. *)
Definition substring (s : string) (from to : nat) : string :=
  let n := String.length s in
  let a := Nat.min from n in
  let b := Nat.min to n in
  String.substring (Nat.min a b) (Nat.max a b - Nat.min a b) s.

(** [s.substring(from)] *)
Definition substringFrom (s : string) (from : nat) : string :=
  substring s from (String.length s).

(** [s.indexOf(c)] for a one-character needle; [None] stands for [-1]. *)
Fixpoint indexOfChar (c : ascii) (s : string) : option nat :=
  match s with
  | EmptyString => None
  | String d r =>
      if Ascii.eqb c d then Some 0
      else match indexOfChar c r with
           | Some i => Some (S i)
           | None => None
           end
  end.

(** [s.split(c)] for a one-character separator: never the empty list. *)
Fixpoint splitCharsAcc (c : ascii) (acc : list ascii) (l : list ascii)
  : list string :=
  match l with
  | [] => [str (rev acc)]
  | d :: r =>
      if Ascii.eqb c d then str (rev acc) :: splitCharsAcc c [] r
      else splitCharsAcc c (d :: acc) r
  end.

Definition splitChar (c : ascii) (s : string) : list string :=
  splitCharsAcc c [] (chars s).

Definition CR : ascii := ascii_of_nat 13.
Definition LF : ascii := ascii_of_nat 10.

(** [s.split(/\r?\n/)] *)
Fixpoint splitLinesAcc (acc : list ascii) (l : list ascii) : list string :=
  match l with
  | [] => [str (rev acc)]
  | c :: r =>
      if Ascii.eqb c LF then str (rev acc) :: splitLinesAcc [] r
      else if Ascii.eqb c CR then
        match r with
        | d :: r' =>
            if Ascii.eqb d LF then str (rev acc) :: splitLinesAcc [] r'
            else splitLinesAcc (c :: acc) r
        | [] => splitLinesAcc (c :: acc) r
        end
      else splitLinesAcc (c :: acc) r
  end.

Definition splitLines (s : string) : list string :=
  splitLinesAcc [] (chars s).

End JsString.

(* ================================================================== *)
(** * [parseFloat] *)
(* ================================================================== *)

(** The global [parseFloat] of the platform: leading white space is
    dropped and the longest prefix that is a [StrDecimalLiteral] is
    converted; [NaN] when no prefix is one. *)
Module JsParseFloat.

Import JsString.
Local Open Scope Z_scope.

Definition isDigit (c : ascii) : bool :=
  ((48 <=? code c) && (code c <=? 57))%nat.

Definition digitValue (c : ascii) : Z := Z.of_nat (code c - 48).

Fixpoint takeDigits (l : list ascii) : list ascii * list ascii :=
  match l with
  | c :: r =>
      if isDigit c then let (d, t) := takeDigits r in (c :: d, t)
      else ([], l)
  | [] => ([], [])
  end.

Definition digitsValue (ds : list ascii) : Z :=
  fold_left (fun acc c => 10 * acc + digitValue c) ds 0.

Definition pow10 (e : Z) : Qc :=
  if 0 <=? e then Q2Qc (inject_Z (10 ^ e))
  else Q2Qc (1 # Z.to_pos (10 ^ (- e))).

Definition isChar (n : nat) (c : ascii) : bool := (code c =? n)%nat.

(** The value of an optional [ExponentPart] at the head of [l]. *)
Definition scanExponent (l : list ascii) : Z :=
  match l with
  | c :: r =>
      if isChar 101 c || isChar 69 c then
        let (negative, r') :=
          match r with
          | s :: t =>
              if isChar 43 s then (false, t)
              else if isChar 45 s then (true, t)
              else (false, r)
          | [] => (false, r)
          end in
        match fst (takeDigits r') with
        | [] => 0
        | ds => if negative then - digitsValue ds else digitsValue ds
        end
      else 0
  | [] => 0
  end.

Definition isPrefixOf (p : string) (l : list ascii) : bool :=
  String.prefix p (str l).

Definition scanUnsigned (l : list ascii) : number :=
  if isPrefixOf "Infinity" l then Inf false
  else
    let (ip, r1) := takeDigits l in
    let (fp, r2) :=
      match r1 with
      | c :: r => if isChar 46 c then takeDigits r else ([], r1)
      | [] => ([], r1)
      end in
    match ip, fp with
    | [], [] => NaN
    | _, _ =>
        Fin (Q2Qc (inject_Z (digitsValue (ip ++ fp)))
             * pow10 (scanExponent r2 - Z.of_nat (List.length fp)))%Qc
    end.

Definition parseFloat (s : string) : number :=
  match trimStartChars (chars s) with
  | c :: r =>
      if isChar 45 c then neg (scanUnsigned r)
      else if isChar 43 c then scanUnsigned r
      else scanUnsigned (c :: r)
  | [] => NaN
  end.

End JsParseFloat.
Export JsParseFloat.

(* ================================================================== *)
(** * [Map<string, V>] *)
(* ================================================================== *)

(** A JavaScript [Map] keyed by strings: the entries in insertion order;
    [set] on a key already present keeps its place. *)
Module JsMap.

Definition t (V : Type) : Type := list (string * V).

Definition empty {V : Type} : t V := [].

Fixpoint get {V : Type} (k : string) (m : t V) : option V :=
  match m with
  | [] => None
  | (k', v) :: r => if String.eqb k k' then Some v else get k r
  end.

Fixpoint set {V : Type} (k : string) (v : V) (m : t V) : t V :=
  match m with
  | [] => [(k, v)]
  | (k', v') :: r =>
      if String.eqb k k' then (k, v) :: r else (k', v') :: set k v r
  end.

Definition keys {V : Type} (m : t V) : list string := map fst m.

End JsMap.

(* ================================================================== *)
(** * The data model ([src/models/acmi.model.ts]) *)
(* ================================================================== *)

Module TimeState.
Record t : Type := mk {
  time : number;
  longitude : number;
  latitude : number;
  altitude : number;
  roll : option number;
  pitch : option number;
  yaw : option number
}.
End TimeState.

Module AcmiObject.
Record t : Type := mk {
  id : string;
  properties : JsMap.t string;
  states : list TimeState.t;
  removedAtTime : option number
}.
End AcmiObject.

(** A [Date] is kept as the argument its constructor was given. *)
Inductive Date : Type :=
| DateOfString (s : string)
| DateOfMillis (ms : Z).

Module AcmiData.
Record t : Type := mk {
  objects : JsMap.t AcmiObject.t;
  startTime : number;
  endTime : number;
  referenceTime : Date;
  referenceLongitude : number;
  referenceLatitude : number
}.
End AcmiData.

Module InterpolatedState.
Record t : Type := mk {
  id : string;
  x : number;
  y : number;
  z : number;
  qW : number;
  qX : number;
  qY : number;
  qZ : number;
  vX : number;
  vY : number;
  vZ : number;
  color : string;
  isActive : bool;
  speed : number;
  verticalSpeed : number;
  heading : number
}.
End InterpolatedState.

(** The outcome of a call that may throw. *)
Inductive result (A : Type) : Type :=
| Ok (a : A)
| Throw (message : string).
Arguments Ok {A} a.
Arguments Throw {A} message.

(* ================================================================== *)
(** * The parser ([src/services/acmi-parser.service.ts]) *)
(* ================================================================== *)

Module Parser.

Import JsString.
Local Open Scope string_scope.

Definition quoteChar : ascii := ascii_of_nat 34.
Definition QUOTE : string := String quoteChar EmptyString.

Definition FILE_TYPE : string := "FileType=text/acmi/tacview".

Definition HEADER_NOT_FOUND : string :=
  "Invalid ACMI file: " ++ QUOTE ++ FILE_TYPE ++ QUOTE ++ " header not found.".

(** ** [tokenizeLine] *)

(** The loop of [tokenizeLine] from position [i]: [line] is what is left
    to read, [currentToken] and [inQuotes] are the loop's variables; the
    tokens pushed from here on are returned in order. *)
Fixpoint tokenizeFrom (line : list ascii) (currentToken : string)
         (inQuotes : bool) : list string :=
  match line with
  | [] => [currentToken]
  | char :: rest =>
      let inQuotes := if Ascii.eqb char quoteChar then negb inQuotes
                      else inQuotes in
      if Ascii.eqb char "," && negb inQuotes
      then currentToken :: tokenizeFrom rest "" inQuotes
      else tokenizeFrom rest (currentToken ++ String char "") inQuotes
  end.

Definition tokenizeLine (line : string) : list string :=
  tokenizeFrom (chars line) "" false.

(** ** [splitKeyValue] *)

Definition splitKeyValue (pair : string) : string * string :=
  match indexOfChar "=" pair with
  | None => (pair, "")
  | Some separatorIndex =>
      let key := substring pair 0 separatorIndex in
      let value := substringFrom pair (separatorIndex + 1) in
      let value :=
        if startsWith value QUOTE && endsWith value QUOTE
        then substring value 1 (String.length value - 1)
        else value in
      (key, value)
  end.

(** ** The body of [parse] *)

(** The local variables of [parse]. *)
Record locals : Type := mkLocals {
  fileTypeValidated : bool;
  fileVersion : string;
  referenceTime : option Date;
  referenceLongitude : number;
  referenceLatitude : number;
  objects : JsMap.t AcmiObject.t;
  currentTime : number;
  startTime : option number;
  endTime : number;
  inHeader : bool
}.

Definition initial : locals :=
  {| fileTypeValidated := false;
     fileVersion := "";
     referenceTime := None;
     referenceLongitude := zero;
     referenceLatitude := zero;
     objects := JsMap.empty;
     currentTime := zero;
     startTime := None;
     endTime := zero;
     inHeader := true |}.

Definition set_fileTypeValidated (b : bool) (l : locals) : locals :=
  mkLocals b (fileVersion l) (referenceTime l) (referenceLongitude l)
           (referenceLatitude l) (objects l) (currentTime l) (startTime l)
           (endTime l) (inHeader l).

Definition set_fileVersion (v : string) (l : locals) : locals :=
  mkLocals (fileTypeValidated l) v (referenceTime l) (referenceLongitude l)
           (referenceLatitude l) (objects l) (currentTime l) (startTime l)
           (endTime l) (inHeader l).

Definition set_referenceTime (d : option Date) (l : locals) : locals :=
  mkLocals (fileTypeValidated l) (fileVersion l) d (referenceLongitude l)
           (referenceLatitude l) (objects l) (currentTime l) (startTime l)
           (endTime l) (inHeader l).

Definition set_referenceLongitude (x : number) (l : locals) : locals :=
  mkLocals (fileTypeValidated l) (fileVersion l) (referenceTime l) x
           (referenceLatitude l) (objects l) (currentTime l) (startTime l)
           (endTime l) (inHeader l).

Definition set_referenceLatitude (x : number) (l : locals) : locals :=
  mkLocals (fileTypeValidated l) (fileVersion l) (referenceTime l)
           (referenceLongitude l) x (objects l) (currentTime l) (startTime l)
           (endTime l) (inHeader l).

Definition set_objects (m : JsMap.t AcmiObject.t) (l : locals) : locals :=
  mkLocals (fileTypeValidated l) (fileVersion l) (referenceTime l)
           (referenceLongitude l) (referenceLatitude l) m (currentTime l)
           (startTime l) (endTime l) (inHeader l).

(** The frame-marker branch: [inHeader = false], the new [currentTime],
    [startTime] if it was still [null], and the running [endTime]. *)
Definition enterFrame (t : number) (l : locals) : locals :=
  mkLocals (fileTypeValidated l) (fileVersion l) (referenceTime l)
           (referenceLongitude l) (referenceLatitude l) (objects l) t
           (match startTime l with None => Some t | Some s => Some s end)
           (Math_max (endTime l) t) false.

Definition set_removedAtTime (r : option number) (o : AcmiObject.t)
  : AcmiObject.t :=
  AcmiObject.mk (AcmiObject.id o) (AcmiObject.properties o)
                (AcmiObject.states o) r.

Definition push_state (s : TimeState.t) (o : AcmiObject.t) : AcmiObject.t :=
  AcmiObject.mk (AcmiObject.id o) (AcmiObject.properties o)
                (AcmiObject.states o ++ [s]) (AcmiObject.removedAtTime o).

Definition set_property (k v : string) (o : AcmiObject.t) : AcmiObject.t :=
  AcmiObject.mk (AcmiObject.id o) (JsMap.set k v (AcmiObject.properties o))
                (AcmiObject.states o) (AcmiObject.removedAtTime o).

Definition newObject (id : string) : AcmiObject.t :=
  AcmiObject.mk id JsMap.empty [] None.

(** [value.split('|').map(v => v ? parseFloat(v) : undefined)] *)
Definition positionValues (value : string) : list (option number) :=
  map (fun v => if isEmpty v then None else Some (parseFloat v))
      (splitChar "|" value).

(** Array destructuring: a position past the end reads [undefined]. *)
Definition element (i : nat) (values : list (option number))
  : option number := nth i values None.

(** The [T] branch: what the token does to the object. *)
Definition updatePosition (currentTime : number) (value : string)
           (obj : AcmiObject.t) : AcmiObject.t :=
  let values := positionValues value in
  match element 0 values, element 1 values, element 2 values with
  | Some lon, Some lat, Some alt =>
      push_state
        (TimeState.mk currentTime lon lat alt
                      (element 3 values) (element 4 values)
                      (element 5 values))
        obj
  | _, _, _ => obj
  end.

(** One iteration of the loop over [parts.slice(1)]. *)
Definition processPart (currentTime : number) (obj : AcmiObject.t)
           (part : string) : AcmiObject.t :=
  let (key, value) := splitKeyValue part in
  if isEmpty key then obj
  else if String.eqb key "T" then updatePosition currentTime value obj
  else set_property key value obj.

(** The [switch] over the header keys. *)
Definition processHeader (key value : string) (l : locals) : locals :=
  if String.eqb key "FileVersion" then set_fileVersion value l
  else if String.eqb key "ReferenceTime"
       then set_referenceTime (Some (DateOfString (trim value ++ "Z"))) l
  else if String.eqb key "ReferenceLongitude"
       then set_referenceLongitude (parseFloat value) l
  else if String.eqb key "ReferenceLatitude"
       then set_referenceLatitude (parseFloat value) l
  else l.

(** One iteration of the loop over the lines. *)
Definition processLine (l : locals) (line : string) : result locals :=
  let trimmedLine := trim line in
  if isEmpty trimmedLine || startsWith trimmedLine "//" then Ok l
  else if negb (fileTypeValidated l) then
    if String.eqb trimmedLine FILE_TYPE
    then Ok (set_fileTypeValidated true l)
    else Throw HEADER_NOT_FOUND
  else if startsWith trimmedLine "#" then
    Ok (enterFrame (parseFloat (substringFrom trimmedLine 1)) l)
  else if inHeader l then
    let (key, value) := splitKeyValue trimmedLine in
    Ok (processHeader key value l)
  else if startsWith trimmedLine "-" then
    let id := substringFrom trimmedLine 1 in
    match JsMap.get id (objects l) with
    | Some obj =>
        Ok (set_objects
              (JsMap.set id (set_removedAtTime (Some (currentTime l)) obj)
                         (objects l)) l)
    | None => Ok l
    end
  else
    match tokenizeLine trimmedLine with
    | [] => Ok l
    | id :: rest =>
        let obj := match JsMap.get id (objects l) with
                   | Some obj => obj
                   | None => newObject id
                   end in
        Ok (set_objects
              (JsMap.set id (fold_left (processPart (currentTime l)) rest obj)
                         (objects l)) l)
    end.

Fixpoint processLines (l : locals) (lines : list string) : result locals :=
  match lines with
  | [] => Ok l
  | line :: rest =>
      match processLine l line with
      | Ok l' => processLines l' rest
      | Throw m => Throw m
      end
  end.

(** What [parse] returns once the loop is over. *)
Definition finish (l : locals) : AcmiData.t :=
  AcmiData.mk
    (objects l)
    (match startTime l with None => zero | Some t => t end)
    (endTime l)
    (match referenceTime l with None => DateOfMillis 0 | Some d => d end)
    (referenceLongitude l)
    (referenceLatitude l).

(** [parse]: [Throw] stands for the rejected promise. *)
Definition parse (fileContent : string) : result AcmiData.t :=
  match processLines initial (splitLines fileContent) with
  | Ok l => Ok (finish l)
  | Throw m => Throw m
  end.

End Parser.

(* ================================================================== *)
(** * three.js values and the platform *)
(* ================================================================== *)

Module Three.

Module Vector3.
Record t : Type := mk { x : number; y : number; z : number }.
End Vector3.

Module Euler.
Record t : Type := mk { x : number; y : number; z : number; order : string }.
End Euler.

Module Quaternion.
Record t : Type := mk { w : number; x : number; y : number; z : number }.
End Quaternion.

End Three.
Import Three.

(** What the engine takes from the platform and from three.js.  The
    setters [setFromEuler] and [setFromQuaternion] overwrite every
    component of their receiver, so they are functions of their
    arguments; [slerp q1 q2 t] is [q1.slerp(q2, t)] on a copy of [q1]. *)
Class Platform : Type := {
  Math_cos : number -> number;
  Math_sin : number -> number;
  Math_sqrt : number -> number;
  degToRad : number -> number;
  radToDeg : number -> number;
  Matrix4 : Type;
  makeBasis : Vector3.t -> Vector3.t -> Vector3.t -> Matrix4;
  transpose : Matrix4 -> Matrix4;
  makeTranslation : number -> number -> number -> Matrix4;
  multiply : Matrix4 -> Matrix4 -> Matrix4;
  applyMatrix4 : Vector3.t -> Matrix4 -> Vector3.t;
  setFromEuler : Euler.t -> Quaternion.t;
  setFromQuaternion : Quaternion.t -> string -> Euler.t;
  slerp : Quaternion.t -> Quaternion.t -> number -> Quaternion.t
}.

(** three.js is an external library.  Of its [slerp] the held pose
    relies on the end points: at [t = 0] it returns [q1] and at [t = 1]
    it returns [q2] (three.js returns early in both cases). *)
Class SlerpEndpoints (P : Platform) : Prop := {
  slerp_zero : forall q1 q2, slerp q1 q2 zero = q1;
  slerp_one : forall q1 q2, slerp q1 q2 one = q2
}.

(* ================================================================== *)
(** * Coordinates ([src/utils/coordinates.ts]) *)
(* ================================================================== *)

Module Coordinates.
Section WithPlatform.
Context {P : Platform}.
Local Open Scope js_scope.

Definition A : number := ofZ 6378137.
Definition F : number := one / Fin (Q2Qc (298257223563 # 1000000000)).
Definition B : number := A * (one - F).
Definition E2 : number := F * (ofZ 2 - F).

Definition wgs84ToEcef (lat lon alt : number) : Vector3.t :=
  let latRad := degToRad lat in
  let lonRad := degToRad lon in
  let cosLat := Math_cos latRad in
  let sinLat := Math_sin latRad in
  let cosLon := Math_cos lonRad in
  let sinLon := Math_sin lonRad in
  let n := A / Math_sqrt (one - E2 * sinLat * sinLat) in
  let x := (n + alt) * cosLat * cosLon in
  let y := (n + alt) * cosLat * sinLon in
  let z := (n * (one - E2) + alt) * sinLat in
  Vector3.mk x y z.

Definition ecefToEnu (originEcef : Vector3.t) (lat lon : number) : Matrix4 :=
  let latRad := degToRad lat in
  let lonRad := degToRad lon in
  let cosLat := Math_cos latRad in
  let sinLat := Math_sin latRad in
  let cosLon := Math_cos lonRad in
  let sinLon := Math_sin lonRad in
  let east := Vector3.mk (neg sinLon) cosLon zero in
  let north := Vector3.mk (neg sinLat * cosLon) (neg sinLat * sinLon) cosLat in
  let up := Vector3.mk (cosLat * cosLon) (cosLat * sinLon) sinLat in
  let rotationMatrix := transpose (makeBasis east north up) in
  let translationMatrix :=
    makeTranslation (neg (Vector3.x originEcef)) (neg (Vector3.y originEcef))
                    (neg (Vector3.z originEcef)) in
  multiply rotationMatrix translationMatrix.

(** [p1.distanceTo(p2)] *)
Definition distanceTo (p1 p2 : Vector3.t) : number :=
  let dx := Vector3.x p1 - Vector3.x p2 in
  let dy := Vector3.y p1 - Vector3.y p2 in
  let dz := Vector3.z p1 - Vector3.z p2 in
  Math_sqrt (dx * dx + dy * dy + dz * dz).

(** [p2.sub(p1)] *)
Definition vsub (p2 p1 : Vector3.t) : Vector3.t :=
  Vector3.mk (Vector3.x p2 - Vector3.x p1) (Vector3.y p2 - Vector3.y p1)
             (Vector3.z p2 - Vector3.z p1).

(** [v.divideScalar(s)], which three.js computes as [v.multiplyScalar(1 / s)] *)
Definition divideScalar (v : Vector3.t) (s : number) : Vector3.t :=
  let k := one / s in
  Vector3.mk (Vector3.x v * k) (Vector3.y v * k) (Vector3.z v * k).

End WithPlatform.
End Coordinates.

(* ================================================================== *)
(** * The simulation service ([src/services/simulation.service.ts]) *)
(* ================================================================== *)

Module Simulation.
Section WithPlatform.
Context {P : Platform}.
Local Open Scope string_scope.
Local Open Scope js_scope.

(** ** State *)

(** The signals and private fields of [SimulationService]. *)
Record service : Type := mkService {
  time : number;
  isPlaying : bool;
  playbackSpeed : number;
  duration : number;
  isDataLoaded : bool;
  acmiData : option AcmiData.t;
  originEcef : option Vector3.t;
  enuMatrix : option Matrix4
}.

(** The service together with the module-level scratch objects that the
    pose computation writes: [tempEuler] of [simulation.service.ts] and
    [tempEuler] of [interpolation.ts]. *)
Record world : Type := mkWorld {
  engine : service;
  tempEuler : Euler.t;
  interpolation_tempEuler : Euler.t
}.

Definition initialService : service :=
  mkService zero false one zero false None None None.

Definition set_time (t : number) (s : service) : service :=
  mkService t (isPlaying s) (playbackSpeed s) (duration s) (isDataLoaded s)
            (acmiData s) (originEcef s) (enuMatrix s).

Definition set_isPlaying (b : bool) (s : service) : service :=
  mkService (time s) b (playbackSpeed s) (duration s) (isDataLoaded s)
            (acmiData s) (originEcef s) (enuMatrix s).

Definition set_playbackSpeed (v : number) (s : service) : service :=
  mkService (time s) (isPlaying s) v (duration s) (isDataLoaded s)
            (acmiData s) (originEcef s) (enuMatrix s).

(** ** Playback *)

Definition loadData (data : AcmiData.t) (s : service) : service :=
  let origin :=
    Coordinates.wgs84ToEcef (AcmiData.referenceLatitude data)
                            (AcmiData.referenceLongitude data) zero in
  mkService (AcmiData.startTime data) (isPlaying s) (playbackSpeed s)
            (AcmiData.endTime data) true (Some data) (Some origin)
            (Some (Coordinates.ecefToEnu origin
                     (AcmiData.referenceLatitude data)
                     (AcmiData.referenceLongitude data))).

Definition pause (s : service) : service := set_isPlaying false s.

Definition tick (deltaTime : number) (s : service) : service :=
  if negb (isPlaying s) || negb (isDataLoaded s) then s
  else
    let s1 :=
      set_time (let newTime := time s + deltaTime * playbackSpeed s in
                Math_min newTime (duration s)) s in
    if time s1 >=? duration s1 then pause s1 else s1.

Definition seek (newTime : number) (s : service) : service :=
  if negb (isDataLoaded s) then s
  else set_time (Math_max zero (Math_min newTime (duration s))) s.

Definition play (s : service) : service :=
  if negb (isDataLoaded s) then s
  else
    let s1 :=
      if time s >=? duration s
      then seek (match acmiData s with
                 | Some data => AcmiData.startTime data
                 | None => zero
                 end) s
      else s in
    set_isPlaying true s1.

Definition setSpeed (speed : number) (s : service) : service :=
  set_playbackSpeed speed s.

Definition reset (s : service) : service :=
  let s := pause s in
  mkService zero (isPlaying s) (playbackSpeed s) zero false None
            (originEcef s) (enuMatrix s).

(** ** Pose computation *)

(** The pose computation writes the scratch objects and throws a
    [TypeError] when it reads a property of [undefined] or [null]: a
    state and error monad over [world]. *)
Definition M (A : Type) : Type := world -> result (A * world).

Definition ret {A : Type} (a : A) : M A := fun w => Ok (a, w).

Definition bind {A B : Type} (c : M A) (k : A -> M B) : M B :=
  fun w => match c w with
           | Ok (a, w') => k a w'
           | Throw m => Throw m
           end.

Notation "x <- c ;; k" := (bind c (fun x => k))
  (at level 61, c at next level, right associativity).
Notation "c ;;; k" := (bind c (fun _ => k))
  (at level 61, right associativity).

Definition TYPE_ERROR : string := "TypeError".

Definition defined {A : Type} (o : option A) : M A :=
  match o with
  | Some a => ret a
  | None => fun _ => Throw TYPE_ERROR
  end.

Definition read_enuMatrix : M Matrix4 :=
  fun w => defined (enuMatrix (engine w)) w.

Definition write_tempEuler (e : Euler.t) : M unit :=
  fun w => Ok (tt, mkWorld (engine w) e (interpolation_tempEuler w)).

Definition read_tempEuler : M Euler.t := fun w => Ok (tempEuler w, w).

Definition write_interpolation_tempEuler (e : Euler.t) : M unit :=
  fun w => Ok (tt, mkWorld (engine w) (tempEuler w) e).

(** [array[i]]: [undefined] outside the array. *)
Definition arrayGet {A : Type} (l : list A) (i : Z) : option A :=
  if (i <? 0)%Z then None else nth_error l (Z.to_nat i).

(** [array.findIndex(f)]; [None] stands for [-1]. *)
Fixpoint findIndex {A : Type} (f : A -> bool) (l : list A) : option nat :=
  match l with
  | [] => None
  | a :: r =>
      if f a then Some 0%nat
      else match findIndex f r with
           | Some i => Some (S i)
           | None => None
           end
  end.

(** [x ?? 0] *)
Definition orZero (x : option number) : number :=
  match x with Some v => v | None => zero end.

(** [eulerToQuaternion] of [interpolation.ts]: [tempEuler.set] writes the
    scratch Euler of that module, the quaternion is a fresh clone. *)
Definition eulerToQuaternion (roll pitch yaw : number) : M Quaternion.t :=
  let rollRad := degToRad roll in
  let pitchRad := degToRad pitch in
  let yawRad := degToRad (neg yaw) in
  let e := Euler.mk pitchRad yawRad rollRad "ZYX" in
  write_interpolation_tempEuler e ;;;
  ret (setFromEuler e).

(** [slerpQuaternion] of [interpolation.ts] *)
Definition slerpQuaternion (q1 q2 : Quaternion.t) (t : number)
  : Quaternion.t := slerp q1 q2 t.

(** The condition [isActive] of [getInterpolatedState]. *)
Definition activeAt (obj : AcmiObject.t) (time : number) : bool :=
  match AcmiObject.states obj with
  | [] => false
  | s0 :: _ =>
      (time >=? TimeState.time s0)
      && match AcmiObject.removedAtTime obj with
         | None => true
         | Some r => time <? r
         end
  end.

Definition defaultState (obj : AcmiObject.t) : InterpolatedState.t :=
  InterpolatedState.mk (AcmiObject.id obj) zero zero zero one zero zero zero
                       zero zero zero "gray" false zero zero zero.

(** [obj.properties.get('Color') || 'cyan'] *)
Definition colorOf (obj : AcmiObject.t) : string :=
  match JsMap.get "Color" (AcmiObject.properties obj) with
  | Some c => if JsString.isEmpty c then "cyan" else c
  | None => "cyan"
  end.

(** The index [i] of the first state later than [time], the length of
    the series when there is none. *)
Definition bracketIndex (states : list TimeState.t) (time : number) : Z :=
  match findIndex (fun s => TimeState.time s >? time) states with
  | Some i => Z.of_nat i
  | None => Z.of_nat (List.length states)
  end.

(** The interpolation fraction [t]. *)
Definition fraction (s1 s2 : TimeState.t) (time : number) : number :=
  let timeDelta := TimeState.time s2 - TimeState.time s1 in
  if timeDelta === zero then one
  else (time - TimeState.time s1) / timeDelta.

(** [a + (b - a) * t] *)
Definition lerp (a b t : number) : number := a + (b - a) * t.

(** The derived speed, vertical speed and velocity. *)
Record kinematics : Type := mkKinematics {
  k_speed : number;
  k_verticalSpeed : number;
  k_vX : number;
  k_vY : number;
  k_vZ : number
}.

Definition deriveKinematics (m : Matrix4) (s1 s2 : TimeState.t) : kinematics :=
  let timeDelta := TimeState.time s2 - TimeState.time s1 in
  if timeDelta >? zero then
    let p1 := applyMatrix4
                (Coordinates.wgs84ToEcef (TimeState.latitude s1)
                   (TimeState.longitude s1) (TimeState.altitude s1)) m in
    let p2 := applyMatrix4
                (Coordinates.wgs84ToEcef (TimeState.latitude s2)
                   (TimeState.longitude s2) (TimeState.altitude s2)) m in
    let distance := Coordinates.distanceTo p1 p2 in
    let velocity := Coordinates.divideScalar (Coordinates.vsub p2 p1) timeDelta in
    mkKinematics (distance / timeDelta)
                 ((TimeState.altitude s2 - TimeState.altitude s1) / timeDelta)
                 (Vector3.x velocity) (Vector3.y velocity) (Vector3.z velocity)
  else mkKinematics zero zero zero zero zero.

Definition getInterpolatedState (obj : AcmiObject.t) (time : number)
  : M InterpolatedState.t :=
  if negb (activeAt obj time) then ret (defaultState obj)
  else
    let states := AcmiObject.states obj in
    let len := Z.of_nat (List.length states) in
    let i := bracketIndex states time in
    s1 <- defined (arrayGet states (Z.max 0 (i - 1))) ;;
    s2 <- defined (arrayGet states (Z.min (len - 1) i)) ;;
    let t := fraction s1 s2 time in
    let lon := lerp (TimeState.longitude s1) (TimeState.longitude s2) t in
    let lat := lerp (TimeState.latitude s1) (TimeState.latitude s2) t in
    let alt := lerp (TimeState.altitude s1) (TimeState.altitude s2) t in
    let ecefPos := Coordinates.wgs84ToEcef lat lon alt in
    m <- read_enuMatrix ;;
    let localPos := applyMatrix4 ecefPos m in
    q1 <- eulerToQuaternion (orZero (TimeState.roll s1))
            (orZero (TimeState.pitch s1)) (orZero (TimeState.yaw s1)) ;;
    q2 <- eulerToQuaternion (orZero (TimeState.roll s2))
            (orZero (TimeState.pitch s2)) (orZero (TimeState.yaw s2)) ;;
    let q := slerpQuaternion q1 q2 t in
    let k := deriveKinematics m s1 s2 in
    write_tempEuler (setFromQuaternion q "ZYX") ;;;
    e <- read_tempEuler ;;
    let heading := rem (radToDeg (Euler.y e) + ofZ 360) (ofZ 360) in
    ret (InterpolatedState.mk (AcmiObject.id obj)
           (Vector3.x localPos) (Vector3.y localPos) (Vector3.z localPos)
           (Quaternion.w q) (Quaternion.x q) (Quaternion.y q) (Quaternion.z q)
           (k_vX k) (k_vY k) (k_vZ k)
           (colorOf obj) true (k_speed k) (k_verticalSpeed k) heading).

(** The loop of [interpolatedStates] over [data.objects.entries()]. *)
Fixpoint collectStates (entries : list (string * AcmiObject.t))
         (simTime : number) (currentStates : JsMap.t InterpolatedState.t)
  : M (JsMap.t InterpolatedState.t) :=
  match entries with
  | [] => ret currentStates
  | (id, obj) :: rest =>
      state <- getInterpolatedState obj simTime ;;
      collectStates rest simTime (JsMap.set id state currentStates)
  end.

(** The computation of the signal [interpolatedStates]: the poses of all
    objects at the current time. *)
Definition interpolatedStates : M (JsMap.t InterpolatedState.t) :=
  fun w =>
    match acmiData (engine w) with
    | None => ret JsMap.empty w
    | Some data =>
        collectStates (AcmiData.objects data) (time (engine w)) JsMap.empty w
    end.

End WithPlatform.
End Simulation.

(* ================================================================== *)
(** * Reading the parser's input *)
(* ================================================================== *)

(** The notions the description of [parse] is phrased in: significant
    lines and the frame markers among them. *)
Module Input.

Import JsString.
Local Open Scope string_scope.

(** A trimmed line is significant when it is neither empty nor a comment. *)
Definition significant (trimmedLine : string) : bool :=
  negb (isEmpty trimmedLine || startsWith trimmedLine "//").

Definition significantLines (lines : list string) : list string :=
  filter significant (map trim lines).


Definition isFrameMarker (trimmedLine : string) : bool :=
  startsWith trimmedLine "#".

Definition frameTime (trimmedLine : string) : number :=
  parseFloat (substringFrom trimmedLine 1).

(** The frame times among the significant lines of [lines]. *)
Definition framesOf (lines : list string) : list number :=
  map frameTime (filter isFrameMarker (significantLines lines)).

(** The times of the frame markers, in order, among the significant lines
    that follow the file-type header. *)
Definition frameTimes (lines : list string) : list number :=
  map frameTime (filter isFrameMarker (tl (significantLines lines))).

(** The i-th sub-field of a position value is present when it exists and
    is not empty. *)
Definition present (i : nat) (value : string) : bool :=
  match nth_error (splitChar "|" value) i with
  | Some f => negb (isEmpty f)
  | None => false
  end.

(** The i-th sub-field read as a number, when it is present. *)
Definition field (i : nat) (value : string) : option number :=
  match nth_error (splitChar "|" value) i with
  | Some f => if isEmpty f then None else Some (parseFloat f)
  | None => None
  end.

(** The i-th sub-field is numeric when it is present and [parseFloat]
    reads a number from it. *)
Definition numeric (i : nat) (value : string) : bool :=
  match field i value with
  | Some x => negb (isNaN x)
  | None => false
  end.

Definition NL : string := String LF EmptyString.

Definition joinLines (lines : list string) : string := String.concat NL lines.

(** The sample recording of the interface description. *)
Definition sample : string :=
  joinLines
    [ "FileType=text/acmi/tacview";
      "FileVersion=2.2";
      "0,ReferenceTime=2020-01-01T00:00:00";
      "0,ReferenceLongitude=30.0";
      "0,ReferenceLatitude=50.0";
      "#1.00";
      "A100,T=30.01|50.01|1000|0|0|90,Name=Test,Color=Red";
      "#2.00";
      "A100,T=30.02|50.02|1000";
      "-A100" ].

End Input.

(* ================================================================== *)
(** * A platform to evaluate examples on *)
(* ================================================================== *)

(** An instance of [Platform] in exact arithmetic, used to run the
    engine on concrete inputs: angles are left in degrees, there is no
    trigonometry, a matrix is a translation. *)
Module Flat.

Local Open Scope js_scope.

Definition vadd (a b : Vector3.t) : Vector3.t :=
  Vector3.mk (Vector3.x a + Vector3.x b) (Vector3.y a + Vector3.y b)
             (Vector3.z a + Vector3.z b).

Definition linearSlerp (q1 q2 : Quaternion.t) (t : number) : Quaternion.t :=
  if t === zero then q1
  else if t === one then q2
  else Quaternion.mk
         (Quaternion.w q1 + (Quaternion.w q2 - Quaternion.w q1) * t)
         (Quaternion.x q1 + (Quaternion.x q2 - Quaternion.x q1) * t)
         (Quaternion.y q1 + (Quaternion.y q2 - Quaternion.y q1) * t)
         (Quaternion.z q1 + (Quaternion.z q2 - Quaternion.z q1) * t).

#[export] Instance platform : Platform := {|
  Math_cos := fun _ => one;
  Math_sin := fun x => x;
  Math_sqrt := fun x => x;
  degToRad := fun x => x;
  radToDeg := fun x => x;
  Matrix4 := Vector3.t;
  makeBasis := fun _ _ _ => Vector3.mk zero zero zero;
  transpose := fun m => m;
  makeTranslation := fun x y z => Vector3.mk x y z;
  multiply := vadd;
  applyMatrix4 := vadd;
  setFromEuler := fun e => Quaternion.mk one (Euler.x e) (Euler.y e) (Euler.z e);
  setFromQuaternion := fun q order =>
    Euler.mk (Quaternion.x q) (Quaternion.y q) (Quaternion.z q) order;
  slerp := linearSlerp
|}.

End Flat.

(* ================================================================== *)
(** * Properties stated about the pose computation *)
(* ================================================================== *)

Module Pose.
Section WithPlatform.
Context {P : Platform}.
Local Open Scope string_scope.
Local Open Scope js_scope.

(** The orientation recorded in one sample. *)
Definition orientationOf (s : TimeState.t) : Quaternion.t :=
  setFromEuler
    (Euler.mk (degToRad (Simulation.orZero (TimeState.pitch s)))
              (degToRad (neg (Simulation.orZero (TimeState.yaw s))))
              (degToRad (Simulation.orZero (TimeState.roll s))) "ZYX").

(** The heading read off an orientation. *)
Definition headingOf (q : Quaternion.t) : number :=
  rem (radToDeg (Euler.y (setFromQuaternion q "ZYX")) + ofZ 360) (ofZ 360).

(** The pose of an active object held at the sample [s]: the sample's
    position in the local frame, its orientation, no motion. *)
Definition heldPose (m : Matrix4) (obj : AcmiObject.t) (s : TimeState.t)
  : InterpolatedState.t :=
  let p := applyMatrix4
             (Coordinates.wgs84ToEcef (TimeState.latitude s)
                (TimeState.longitude s) (TimeState.altitude s)) m in
  let q := orientationOf s in
  InterpolatedState.mk (AcmiObject.id obj)
    (Vector3.x p) (Vector3.y p) (Vector3.z p)
    (Quaternion.w q) (Quaternion.x q) (Quaternion.y q) (Quaternion.z q)
    zero zero zero (Simulation.colorOf obj) true zero zero (headingOf q).

(** The two samples the computation interpolates between. *)
Definition bracket (states : list TimeState.t) (time : number)
  : option (TimeState.t * TimeState.t) :=
  let len := Z.of_nat (List.length states) in
  let i := Simulation.bracketIndex states time in
  match Simulation.arrayGet states (Z.max 0 (i - 1)),
        Simulation.arrayGet states (Z.min (len - 1) i) with
  | Some s1, Some s2 => Some (s1, s2)
  | _, _ => None
  end.

(** The geodetic position interpolated between two samples. *)
Definition interpolatedLongitude (s1 s2 : TimeState.t) (time : number) :=
  Simulation.lerp (TimeState.longitude s1) (TimeState.longitude s2)
                  (Simulation.fraction s1 s2 time).
Definition interpolatedLatitude (s1 s2 : TimeState.t) (time : number) :=
  Simulation.lerp (TimeState.latitude s1) (TimeState.latitude s2)
                  (Simulation.fraction s1 s2 time).
Definition interpolatedAltitude (s1 s2 : TimeState.t) (time : number) :=
  Simulation.lerp (TimeState.altitude s1) (TimeState.altitude s2)
                  (Simulation.fraction s1 s2 time).

(** The pose of an active object between the samples [s1] and [s2]. *)
Definition interpolatedPose (m : Matrix4) (obj : AcmiObject.t)
           (s1 s2 : TimeState.t) (time : number) : InterpolatedState.t :=
  let p := applyMatrix4
             (Coordinates.wgs84ToEcef (interpolatedLatitude s1 s2 time)
                (interpolatedLongitude s1 s2 time)
                (interpolatedAltitude s1 s2 time)) m in
  let q := slerp (orientationOf s1) (orientationOf s2)
                 (Simulation.fraction s1 s2 time) in
  let k := Simulation.deriveKinematics m s1 s2 in
  InterpolatedState.mk (AcmiObject.id obj)
    (Vector3.x p) (Vector3.y p) (Vector3.z p)
    (Quaternion.w q) (Quaternion.x q) (Quaternion.y q) (Quaternion.z q)
    (Simulation.k_vX k) (Simulation.k_vY k) (Simulation.k_vZ k)
    (Simulation.colorOf obj) true
    (Simulation.k_speed k) (Simulation.k_verticalSpeed k) (headingOf q).

(** The scratch Euler of [interpolation.ts] after the sample [s] has been
    converted. *)
Definition eulerOf (s : TimeState.t) : Euler.t :=
  Euler.mk (degToRad (Simulation.orZero (TimeState.pitch s)))
           (degToRad (neg (Simulation.orZero (TimeState.yaw s))))
           (degToRad (Simulation.orZero (TimeState.roll s))) "ZYX".

(** How the two samples relate to the query time: either both are the
    last sample and no sample is later than [time], or they are adjacent,
    the first not later than [time] and the second later. *)
Inductive bracketing (states : list TimeState.t) (time : number)
  : TimeState.t -> TimeState.t -> Prop :=
| bracket_last (s : TimeState.t) :
    nth_error states (Nat.pred (List.length states)) = Some s ->
    Forall (fun a => (TimeState.time a >? time) = false) states ->
    bracketing states time s s
| bracket_adjacent (k : nat) (s1 s2 : TimeState.t) :
    nth_error states k = Some s1 ->
    nth_error states (S k) = Some s2 ->
    (TimeState.time s1 >? time) = false ->
    (TimeState.time s2 >? time) = true ->
    bracketing states time s1 s2.

(** The lifetime of an object: it has a first sample, the query is not
    before it, and the object has not been removed by then. *)
Definition inLifetime (obj : AcmiObject.t) (time : number) : Prop :=
  (exists s0 rest, AcmiObject.states obj = s0 :: rest /\
                   (time >=? TimeState.time s0) = true) /\
  (AcmiObject.removedAtTime obj = None \/
   exists r, AcmiObject.removedAtTime obj = Some r /\ (time <? r) = true).

(** The pose of one object as a function of the transform, the object
    and the time alone. *)
Definition poseOf (m : Matrix4) (obj : AcmiObject.t) (time : number)
  : InterpolatedState.t :=
  if Simulation.activeAt obj time then
    match bracket (AcmiObject.states obj) time with
    | Some (s1, s2) => interpolatedPose m obj s1 s2 time
    | None => Simulation.defaultState obj
    end
  else Simulation.defaultState obj.

(** The pose map as a function of the transform, the objects and the
    time alone. *)
Definition posesOf (m : Matrix4) (entries : list (string * AcmiObject.t))
           (time : number) (acc : JsMap.t InterpolatedState.t)
  : JsMap.t InterpolatedState.t :=
  fold_left (fun acc e => JsMap.set (fst e) (poseOf m (snd e) time) acc)
            entries acc.

(** The transform that [loadData] derives from a dataset. *)
Definition enuOf (data : AcmiData.t) : Matrix4 :=
  Coordinates.ecefToEnu
    (Coordinates.wgs84ToEcef (AcmiData.referenceLatitude data)
                             (AcmiData.referenceLongitude data) zero)
    (AcmiData.referenceLatitude data) (AcmiData.referenceLongitude data).

(** The service holds [data], loaded by [loadData]. *)
Definition holds (data : AcmiData.t) (s : Simulation.service) : Prop :=
  Simulation.acmiData s = Some data /\
  Simulation.enuMatrix s = Some (enuOf data).

(** [s'] has the dataset, the transform and the loaded flag of [s]. *)
Definition keepsDataset (s s' : Simulation.service) : Prop :=
  Simulation.acmiData s' = Simulation.acmiData s /\
  Simulation.enuMatrix s' = Simulation.enuMatrix s /\
  Simulation.isDataLoaded s' = Simulation.isDataLoaded s.

(** The states of the service that its public operations reach. *)
Inductive reachable : Simulation.service -> Prop :=
| reach_initial : reachable Simulation.initialService
| reach_loadData data s :
    reachable s -> reachable (Simulation.loadData data s)
| reach_tick deltaTime s :
    reachable s -> reachable (Simulation.tick deltaTime s)
| reach_play s : reachable s -> reachable (Simulation.play s)
| reach_pause s : reachable s -> reachable (Simulation.pause s)
| reach_seek newTime s :
    reachable s -> reachable (Simulation.seek newTime s)
| reach_setSpeed speed s :
    reachable s -> reachable (Simulation.setSpeed speed s)
| reach_reset s : reachable s -> reachable (Simulation.reset s).

(** The fixed pose of an inactive object. *)
Definition inactivePose (id : string) : InterpolatedState.t :=
  InterpolatedState.mk id zero zero zero one zero zero zero
                       zero zero zero "gray" false zero zero zero.

(** Sample times in non-decreasing order. *)
Fixpoint nonDecreasing (states : list TimeState.t) : bool :=
  match states with
  | s :: (s' :: _) as rest =>
      (TimeState.time s <=? TimeState.time s') && nonDecreasing rest
  | _ => true
  end.

Definition finiteSample (s : TimeState.t) : bool :=
  isFinite (TimeState.time s) && isFinite (TimeState.longitude s)
  && isFinite (TimeState.latitude s) && isFinite (TimeState.altitude s).


End WithPlatform.
End Pose.

(* ================================================================== *)
(** * Inputs for the examples *)
(* ================================================================== *)

Module Examples.

Import Input.
Local Open Scope string_scope.

Section WithPlatform.
Context {P : Platform}.

(** A recording of ten seconds, loaded, playing backwards. *)
Definition reversing : Simulation.service :=
  Simulation.setSpeed (neg one)
    (Simulation.play
       (Simulation.loadData
          (AcmiData.mk JsMap.empty zero (ofZ 10) (DateOfMillis 0) zero zero)
          Simulation.initialService)).

End WithPlatform.

Definition emptyData : AcmiData.t :=
  AcmiData.mk JsMap.empty zero zero (DateOfMillis 0) zero zero.

(** The dataset parsed from the sample recording. *)
Definition sampleData : AcmiData.t :=
  match Parser.parse sample with
  | Ok d => d
  | Throw _ => emptyData
  end.

(** The object [A100] of the sample: samples at 1 s and 2 s, removed at
    2 s. *)
Definition sampleObject : AcmiObject.t :=
  match JsMap.get "A100" (AcmiData.objects sampleData) with
  | Some o => o
  | None => Parser.newObject "A100"
  end.

(** The same object, never removed. *)
Definition lastingObject : AcmiObject.t :=
  Parser.set_removedAtTime None sampleObject.

Definition firstSample : TimeState.t :=
  hd (TimeState.mk zero zero zero zero None None None)
     (AcmiObject.states sampleObject).

Definition lastSample : TimeState.t :=
  last (AcmiObject.states sampleObject)
       (TimeState.mk zero zero zero zero None None None).

(** The default [Euler] of three.js. *)
Definition defaultEuler : Euler.t := Euler.mk zero zero zero "XYZ".

(** The engine after the sample has been loaded, at a given time. *)
Definition sampleWorld (t : number) : Simulation.world (P := Flat.platform) :=
  Simulation.mkWorld
    (Simulation.set_time t
       (Simulation.loadData sampleData Simulation.initialService))
    defaultEuler defaultEuler.

(** The same engine while playing at double speed, the scratch objects
    left over from some earlier computation. *)
Definition busyWorld (t : number) : Simulation.world (P := Flat.platform) :=
  Simulation.mkWorld
    (Simulation.set_time t
       (Simulation.setSpeed (ofZ 2)
          (Simulation.play
             (Simulation.loadData sampleData Simulation.initialService))))
    (Euler.mk one one one "ZYX") (Euler.mk (ofZ 7) zero one "ZYX").

(** A recording of one aircraft, there from 1 s and removed at 3 s. *)
Definition aircraftRecording : string :=
  joinLines [ "FileType=text/acmi/tacview"; "FileVersion=2.2"; "#1";
              "B7,T=30|50|1000,Name=Viper,Type=Air+FixedWing"; "#2";
              "B7,T=30.1|50|1100"; "#3"; "-B7" ].

Definition aircraftData : AcmiData.t :=
  match Parser.parse aircraftRecording with
  | Ok d => d
  | Throw _ => emptyData
  end.

Definition aircraft : AcmiObject.t :=
  match JsMap.get "B7" (AcmiData.objects aircraftData) with
  | Some o => o
  | None => Parser.newObject "B7"
  end.

(** The engine after that recording has been loaded, at a given time. *)
Definition aircraftWorld (t : number) : Simulation.world (P := Flat.platform) :=
  Simulation.mkWorld
    (Simulation.set_time t
       (Simulation.loadData aircraftData Simulation.initialService))
    defaultEuler defaultEuler.

(** A ship whose shape is given with a folder and spaces around it. *)
Definition carrier : AcmiObject.t :=
  AcmiObject.mk "C1" [ ("Shape", " Meshes/Watercraft.CVN-74.obj ") ] [] None.








Definition half : number := Fin (Q2Qc (1 # 2)).
Definition oneAndHalf : number := Fin (Q2Qc (3 # 2)).

(** A recording whose frame times are all negative. *)
Definition negativeFrames : string :=
  joinLines [ "FileType=text/acmi/tacview"; "#-5"; "A,T=1|2|3"; "#-3" ].

(** A position token whose longitude is not a number. *)
Definition badLongitude : string := "T=abc|50|1000".

(** The position token of the scenario: the latitude is missing. *)
Definition missingLatitude : string := "T=30.0||1000".

Definition fullPosition : string := "T=30.01|50.01|1000|0|0|90".

(** The local variables of [parse] when the loop over the sample is over. *)
Definition afterSample : Parser.locals :=
  match Parser.processLines Parser.initial (JsString.splitLines sample) with
  | Ok l => l
  | Throw _ => Parser.initial
  end.

(** The sample with blank lines, comments and indentation added. *)
Definition commentedSample : string :=
  joinLines
    [ "// recorded by a test";
      "";
      "  FileType=text/acmi/tacview  ";
      "FileVersion=2.2";
      "0,ReferenceTime=2020-01-01T00:00:00";
      "// the reference point";
      "0,ReferenceLongitude=30.0";
      "0,ReferenceLatitude=50.0";
      "   ";
      "#1.00";
      "  A100,T=30.01|50.01|1000|0|0|90,Name=Test,Color=Red";
      "#2.00";
      "A100,T=30.02|50.02|1000";
      "//-A100 would be a comment";
      "-A100";
      "" ].

End Examples.

(* ================================================================== *)
(** * The interpolation in binary64 arithmetic *)
(* ================================================================== *)

(** [number] computes with exact rationals.  The two expressions of the
    interpolation are repeated here on IEEE 754 binary64 numbers, the
    arithmetic the engine runs on, to show where rounding makes the two
    differ. *)
Module Binary64.

Local Open Scope float_scope.

(** [timeDelta === 0 ? 1 : (time - s1.time) / timeDelta] *)
Definition fraction (t1 t2 time : float) : float :=
  let timeDelta := t2 - t1 in
  if PrimFloat.eqb timeDelta 0 then 1 else (time - t1) / timeDelta.

(** [a + (b - a) * t] *)
Definition lerp (a b t : float) : float := a + (b - a) * t.

End Binary64.

(* ================================================================== *)
(** * Notions for the recordings the parser accepts *)
(* ================================================================== *)

Module Recording.

(** Numbers in non-decreasing order, none of them [NaN]. *)
Fixpoint ascending (l : list number) : bool :=
  match l with
  | [] => true
  | x :: rest =>
      match rest with
      | [] => negb (isNaN x)
      | y :: _ => (x <=? y)%js && ascending rest
      end
  end.

(** Every entry of the map is filed under the id of its object. *)
Definition filedUnderId (objects : JsMap.t AcmiObject.t) : Prop :=
  Forall (fun e => AcmiObject.id (snd e) = fst e) objects.

(** One object per id: every entry is filed under the id of its
    object, and no id is there twice. *)
Definition onePerId (objects : JsMap.t AcmiObject.t) : Prop :=
  filedUnderId objects /\ NoDup (JsMap.keys objects).

(** The object a line with the id [id] updates: the one in the map, or a
    new one. *)
Definition objectFor (id : string) (objects : JsMap.t AcmiObject.t)
  : AcmiObject.t :=
  match JsMap.get id objects with
  | Some obj => obj
  | None => Parser.newObject id
  end.

(** The header fields among the local variables of [parse]. *)
Definition headerFields (l : Parser.locals)
  : string * option Date * number * number :=
  (Parser.fileVersion l, Parser.referenceTime l,
   Parser.referenceLongitude l, Parser.referenceLatitude l).

(** The times of the samples of an object. *)
Definition sampleTimes (obj : AcmiObject.t) : list number :=
  map TimeState.time (AcmiObject.states obj).

(** What a line after the first frame marker, itself not a frame marker,
    does to the local variables: nothing, or it marks a known object as
    removed at the current time, or it runs the tokens of an update line
    over the object the line names. *)
Inductive dataStep (l : Parser.locals) : Parser.locals -> Prop :=
| data_unchanged : dataStep l l
| data_removed (id : string) (obj : AcmiObject.t) :
    JsMap.get id (Parser.objects l) = Some obj ->
    dataStep l
      (Parser.set_objects
         (JsMap.set id
            (Parser.set_removedAtTime (Some (Parser.currentTime l)) obj)
            (Parser.objects l)) l)
| data_updated (id : string) (rest : list string) :
    dataStep l
      (Parser.set_objects
         (JsMap.set id
            (fold_left (Parser.processPart (Parser.currentTime l)) rest
                       (objectFor id (Parser.objects l)))
            (Parser.objects l)) l).

(** Sample times in strictly increasing order. *)
Fixpoint strictlyIncreasing (states : list TimeState.t) : bool :=
  match states with
  | s :: (s' :: _) as rest =>
      (TimeState.time s <? TimeState.time s')%js && strictlyIncreasing rest
  | _ => true
  end.


(** How a pose says its object moves: velocity, speed and vertical
    speed. *)
Definition motion (p : InterpolatedState.t)
  : number * number * number * number * number :=
  (InterpolatedState.vX p, InterpolatedState.vY p, InterpolatedState.vZ p,
   InterpolatedState.speed p, InterpolatedState.verticalSpeed p).

(** While the loop runs, with [F] the frame times seen so far: before
    the first frame marker there is no object; after it the current time
    is a frame time seen; the samples of the objects were taken at frame
    times seen. *)
Definition timesFromFrames (l : Parser.locals) (F : list number) : Prop :=
  (Parser.inHeader l = true -> Parser.objects l = [] /\ F = []) /\
  (Parser.inHeader l = false -> In (Parser.currentTime l) F) /\
  (forall e, In e (Parser.objects l) ->
     forall t, In t (sampleTimes (snd e)) -> In t F).

(** While the loop runs over ascending frame times: every series is in
    non-decreasing order and none of its samples is later than the
    current time. *)
Definition seriesInOrder (l : Parser.locals) (F : list number) : Prop :=
  ascending F = true ->
  forall e, In e (Parser.objects l) ->
    Pose.nonDecreasing (AcmiObject.states (snd e)) = true /\
    forall t, In t (sampleTimes (snd e)) ->
              (t <=? Parser.currentTime l)%js = true.

Section WithPlatform.
Context {P : Platform}.

(** [withoutLoad s s']: the service gets from [s] to [s'] by public
    operations other than [loadData]. *)
Inductive withoutLoad (s : Simulation.service) : Simulation.service -> Prop :=
| idle_here : withoutLoad s s
| idle_tick deltaTime s' :
    withoutLoad s s' -> withoutLoad s (Simulation.tick deltaTime s')
| idle_play s' : withoutLoad s s' -> withoutLoad s (Simulation.play s')
| idle_pause s' : withoutLoad s s' -> withoutLoad s (Simulation.pause s')
| idle_seek newTime s' :
    withoutLoad s s' -> withoutLoad s (Simulation.seek newTime s')
| idle_setSpeed speed s' :
    withoutLoad s s' -> withoutLoad s (Simulation.setSpeed speed s')
| idle_reset s' : withoutLoad s s' -> withoutLoad s (Simulation.reset s').

End WithPlatform.

End Recording.

(* ================================================================== *)
(** * The object list ([src/components/object-list]) *)
(* ================================================================== *)

Module ObjectList.

Local Open Scope string_scope.

Module DisplayObject.
Record t : Type := mk {
  id : string;
  name : string;
  type : string;
  statesCount : nat
}.
End DisplayObject.

(** The predicate of [filter] in [objectList]. *)
Definition isListed (obj : AcmiObject.t) (time : number) : bool :=
  match AcmiObject.states obj with
  | [] => false
  | s0 :: _ =>
      (TimeState.time s0 <=? time)%js
      && match AcmiObject.removedAtTime obj with
         | None => true
         | Some r => (r >? time)%js
         end
  end.

(** [a || b] on strings that may be [undefined]: the first that is
    neither [undefined] nor empty. *)
Definition orElse (a : option string) (b : string) : string :=
  match a with
  | Some v => if JsString.isEmpty v then b else v
  | None => b
  end.

(** The function of [map] in [objectList]. *)
Definition display (obj : AcmiObject.t) : DisplayObject.t :=
  DisplayObject.mk
    (AcmiObject.id obj)
    (orElse (JsMap.get "Name" (AcmiObject.properties obj))
            (orElse (JsMap.get "CallSign" (AcmiObject.properties obj))
                    "Unknown"))
    (orElse (JsMap.get "Type" (AcmiObject.properties obj)) "Object")
    (List.length (AcmiObject.states obj)).

(** [objectList] before its last step: the values of the map, filtered
    and mapped.  The component then sorts this list by name with
    [localeCompare], which permutes it. *)
Definition listed (data : JsMap.t AcmiObject.t) (time : number)
  : list DisplayObject.t :=
  map display (filter (fun obj => isListed obj time) (map snd data)).

End ObjectList.

(* ================================================================== *)
(** * Further library functions the components call *)
(* ================================================================== *)

Module JsText.

Local Open Scope string_scope.

(** [s.includes(searchString)] *)
Fixpoint includes (s searchString : string) : bool :=
  String.prefix searchString s
  || match s with
     | EmptyString => false
     | String _ rest => includes rest searchString
     end.

(** [s.split(re)] for a regular expression [re] that matches the single
    characters satisfying [sep]: never the empty list. *)
Fixpoint splitWhereAcc (sep : ascii -> bool) (acc : list ascii)
         (l : list ascii) : list string :=
  match l with
  | [] => [JsString.str (rev acc)]
  | d :: r =>
      if sep d then JsString.str (rev acc) :: splitWhereAcc sep [] r
      else splitWhereAcc sep (d :: acc) r
  end.

Definition splitWhere (sep : ascii -> bool) (s : string) : list string :=
  splitWhereAcc sep [] (JsString.chars s).

(** [Math.floor] *)
Definition Math_floor (x : number) : number :=
  match x with
  | Fin q => Fin (Q2Qc (inject_Z (Qfloor q)))
  | _ => x
  end.

(** [x.toString()] for a number that is not finite, or is an integer
    below [10^21] in absolute value, which is written in decimal digits;
    [None] for the other numbers, whose digits depend on their binary
    representation. *)
Definition toString (x : number) : option string :=
  match x with
  | NaN => Some "NaN"
  | Inf false => Some "Infinity"
  | Inf true => Some "-Infinity"
  | Fin q =>
      if ((Qden q =? 1)%positive && (Z.abs (Qnum q) <? 10 ^ 21)%Z)%bool
      then Some (NilZero.string_of_int (Z.to_int (Qnum q)))
      else None
  end.

(** The filler of [padStart]: [n] characters of [padString] repeated;
    [rest] is what is left of the copy being written. *)
Fixpoint truncatedFiller (n : nat) (padString rest : string) : string :=
  match n with
  | O => ""
  | S n' =>
      match rest with
      | String c rest' => String c (truncatedFiller n' padString rest')
      | EmptyString =>
          match padString with
          | String c rest' => String c (truncatedFiller n' padString rest')
          | EmptyString => ""
          end
      end
  end.

(** [s.padStart(targetLength, padString)] *)
Definition padStart (targetLength : nat) (padString s : string) : string :=
  truncatedFiller (targetLength - String.length s) padString padString ++ s.

End JsText.

(* ================================================================== *)
(** * The renderer ([src/services/three-renderer.service.ts]) *)
(* ================================================================== *)

Module Renderer.

Local Open Scope string_scope.
Local Open Scope js_scope.

(** [a === b] on [string | null]. *)
Definition sameId (a b : option string) : bool :=
  match a, b with
  | None, None => true
  | Some x, Some y => String.eqb x y
  | _, _ => false
  end.

(** [setFollowTarget]: the new value of the signal [followTargetId]. *)
Definition setFollowTarget (id : option string) (followTargetId : option string)
  : option string :=
  if sameId followTargetId id then None else id.

Inductive UnitCategory : Type := Aircraft | Ground | Ship | Missile | Unknown.

Definition _getUnitCategory (object : AcmiObject.t) : UnitCategory :=
  let type :=
    ObjectList.orElse (JsMap.get "Type" (AcmiObject.properties object)) "" in
  if JsText.includes type "FixedWing" || JsText.includes type "Rotorcraft"
  then Aircraft
  else if JsText.includes type "Ground" || JsText.includes type "Tank"
          || JsText.includes type "Vehicle" || JsText.includes type "APC"
          || JsText.includes type "Artillery"
          || JsText.includes type "Infantry"
  then Ground
  else if JsText.includes type "Sea" then Ship
  else if JsText.includes type "Missile" || JsText.includes type "Bomb"
  then Missile
  else Unknown.

Definition groundPlaneY : number := neg one.
Definition minHeightAboveGround : number := ofZ 10.
Definition extraGroundOffsets : JsMap.t number :=
  [ ("vtolvr_EscortCruiser.obj", ofZ 80); ("Watercraft.CVN-74.obj", ofZ 120) ].

(** The characters the regular expression of [_resolveShapeName] matches:
    the slash and the backslash. *)
Definition isPathSeparator (c : ascii) : bool :=
  ((JsString.code c =? 47) || (JsString.code c =? 92))%nat.

Definition _resolveShapeName (object : AcmiObject.t) : option string :=
  match JsMap.get "Shape" (AcmiObject.properties object) with
  | None => None
  | Some rawShape =>
      if JsString.isEmpty rawShape then None
      else
        let trimmed := JsString.trim rawShape in
        if JsString.isEmpty trimmed then None
        else
          let popped := last (JsText.splitWhere isPathSeparator trimmed) "" in
          Some (if JsString.isEmpty popped then trimmed else popped)
  end.

Definition _getExtraGroundOffset (object : option AcmiObject.t) : number :=
  match object with
  | None => zero
  | Some object =>
      match _resolveShapeName object with
      | None => zero
      | Some shapeName =>
          match JsMap.get shapeName extraGroundOffsets with
          | Some offset => offset
          | None => zero
          end
      end
  end.

(** A mesh group of the scene, as far as it is followed here: the
    fields [visible] and [position]. *)
Record Group : Type := mkGroup {
  visible : bool;
  position : Vector3.t
}.

(** One turn of the loop of [updateObjects], for the pose [state] of one
    id.  [group] is the entry of [objectMeshes] under that id, if there
    is one; [acmiObject] is [allObjects.get(id)]; [created] stands for
    the group [_createUnitMesh] returns.  The result is the group under
    that id after the turn.  The rotation is left out. *)
Definition updateObject (modelsLoaded : bool) (state : InterpolatedState.t)
           (acmiObject : option AcmiObject.t) (group : option Group)
           (created : Group) : option Group :=
  if negb modelsLoaded then group
  else
    let group :=
      match group with
      | Some g => Some g
      | None =>
          match acmiObject with
          | Some _ => Some created
          | None => None
          end
      end in
    match group with
    | None => None
    | Some g =>
        if InterpolatedState.isActive state then
          let extraOffset := _getExtraGroundOffset acmiObject in
          let minY := groundPlaneY + minHeightAboveGround + extraOffset in
          let clampedY := Math_max (InterpolatedState.z state) minY in
          Some (mkGroup true
                  (Vector3.mk (InterpolatedState.x state) clampedY
                              (neg (InterpolatedState.y state))))
        else Some (mkGroup false (position g))
    end.

End Renderer.

(* ================================================================== *)
(** * The root component ([src/app.component.ts]) *)
(* ================================================================== *)

Module AircraftDisplayData.
Record t : Type := mk {
  callsign : string;
  altitude : number;
  speed : number;
  verticalSpeed : number;
  heading : number
}.
End AircraftDisplayData.

Module App.
Section WithPlatform.
Context {P : Platform}.
Local Open Scope string_scope.

(** The state that [onFileChange] writes: signals of the component, the
    simulation service and the follow target of the renderer. *)
Record t : Type := mk {
  simulationService : Simulation.service;
  followTargetId : option string;
  isLoading : bool;
  errorMessage : option string;
  fileName : option string;
  initialFocusDone : bool
}.

(** [onFileChange] for a file named [name] that is not a ZIP archive and
    whose bytes decode to [fileContent]: what is done before the file is
    read, then [parse] and [loadData] inside [try], the [catch] branch
    for the error of [parse], and [finally].  The diagnostics written to
    the console are left out. *)
Definition onFileChange (name fileContent : string) (a : t) : t :=
  let a1 :=
    mk (Simulation.reset (simulationService a))
       (Renderer.setFollowTarget None (followTargetId a))
       true None (Some name) false in
  let a2 :=
    match Parser.parse fileContent with
    | Ok acmiData =>
        mk (Simulation.loadData acmiData (simulationService a1))
           (followTargetId a1) (isLoading a1) (errorMessage a1)
           (fileName a1) (initialFocusDone a1)
    | Throw message =>
        mk (simulationService a1) (followTargetId a1) (isLoading a1)
           (Some ("Error: " ++ message)) None (initialFocusDone a1)
    end in
  mk (simulationService a2) (followTargetId a2) false (errorMessage a2)
     (fileName a2) (initialFocusDone a2).

End WithPlatform.

Local Open Scope string_scope.

(** The second effect of the constructor: the value it sets the signal
    [selectedAircraftData] to, from the follow target, the dataset and
    the pose map. *)
Definition selectedAircraftData (targetId : option string)
           (data : option AcmiData.t) (states : JsMap.t InterpolatedState.t)
  : option AircraftDisplayData.t :=
  match targetId, data with
  | Some targetId, Some data =>
      if JsString.isEmpty targetId then None
      else
        let acmiObject := JsMap.get targetId (AcmiData.objects data) in
        let currentState := JsMap.get targetId states in
        let objectType :=
          match acmiObject with
          | Some o =>
              ObjectList.orElse (JsMap.get "Type" (AcmiObject.properties o)) ""
          | None => ""
          end in
        let isAircraft :=
          JsText.includes objectType "FixedWing"
          || JsText.includes objectType "Rotorcraft" in
        match acmiObject, currentState with
        | Some o, Some st =>
            if isAircraft then
              Some (AircraftDisplayData.mk
                      (ObjectList.orElse
                         (JsMap.get "Name" (AcmiObject.properties o)) "N/A")
                      (InterpolatedState.z st) (InterpolatedState.speed st)
                      (InterpolatedState.verticalSpeed st)
                      (InterpolatedState.heading st))
            else None
        | _, _ => None
        end
  | _, _ => None
  end.

End App.

(* ================================================================== *)
(** * The playback controls ([src/components/playback-controls]) *)
(* ================================================================== *)

Module PlaybackControls.

Local Open Scope string_scope.
Local Open Scope js_scope.

(** [formatTime] *)
Definition formatTime (seconds : number) : option string :=
  match JsText.toString (JsText.Math_floor (seconds / ofZ 3600)),
        JsText.toString
          (JsText.Math_floor (rem seconds (ofZ 3600) / ofZ 60)),
        JsText.toString (JsText.Math_floor (rem seconds (ofZ 60))) with
  | Some h, Some m, Some s =>
      Some (JsText.padStart 2 "0" h ++ ":" ++ JsText.padStart 2 "0" m ++ ":"
            ++ JsText.padStart 2 "0" s)
  | _, _, _ => None
  end.

(** [n] is [x] rounded down. *)
Definition floorIs (x : Q) (n : Z) : Prop :=
  (inject_Z n <= x)%Q /\ (x < inject_Z (n + 1))%Q.

(** The two decimal digits of a number below 100. *)
Definition digit (d : Z) : ascii := ascii_of_nat (48 + Z.to_nat d).
Definition twoDigits (n : Z) : string :=
  String (digit (n / 10)) (String (digit (n mod 10)) "").

End PlaybackControls.

(* ================================================================== *)
(** * Facts about numbers *)
(* ================================================================== *)

Lemma Qc_compare_spec (p q : Qc) :
  CompareSpec (p = q) (p < q)%Qc (q < p)%Qc (p ?= q)%Qc.
Proof.
  destruct (p ?= q)%Qc eqn:E; constructor.
  - now apply Qceq_alt.
  - now apply Qclt_alt.
  - now apply Qcgt_alt.
Qed.

Lemma Qc_ltb_lt (p q : Qc) : Qc_ltb p q = true <-> (p < q)%Qc.
Proof.
  unfold Qc_ltb. rewrite Qclt_alt.
  destruct (p ?= q)%Qc; split; congruence.
Qed.

Lemma Qc_eqb_eq (p q : Qc) : Qc_eqb p q = true <-> p = q.
Proof.
  unfold Qc_eqb. rewrite Qceq_alt.
  destruct (p ?= q)%Qc; split; congruence.
Qed.

Lemma Qc_eqb_refl (p : Qc) : Qc_eqb p p = true.
Proof. now apply Qc_eqb_eq. Qed.

Lemma Qc_ltb_irrefl (p : Qc) : Qc_ltb p p = false.
Proof.
  destruct (Qc_ltb p p) eqn:E; [|reflexivity].
  apply Qc_ltb_lt in E. now apply Qclt_not_eq in E.
Qed.

Lemma Qc_ltb_false_le (p q : Qc) : Qc_ltb p q = false <-> (q <= p)%Qc.
Proof.
  split; intros H.
  - apply Qcnot_lt_le. intros L. apply Qc_ltb_lt in L. congruence.
  - destruct (Qc_ltb p q) eqn:E; [|reflexivity].
    apply Qc_ltb_lt in E. now apply Qcle_not_lt in H.
Qed.

Lemma Qc_leb_le (p q : Qc) :
  Qc_ltb p q || Qc_eqb p q = true <-> (p <= q)%Qc.
Proof.
  rewrite orb_true_iff, Qc_ltb_lt, Qc_eqb_eq. split.
  - intros [H | ->]; [now apply Qclt_le_weak | apply Qcle_refl].
  - intros H. now apply Qcle_lt_or_eq.
Qed.

Lemma leb_Fin (p q : Qc) : (Fin p <=? Fin q)%js = true <-> (p <= q)%Qc.
Proof. unfold leb. simpl. apply Qc_leb_le. Qed.

Lemma ltb_Fin (p q : Qc) : (Fin p <? Fin q)%js = true <-> (p < q)%Qc.
Proof. simpl. apply Qc_ltb_lt. Qed.

Lemma geb_Fin (p q : Qc) : (Fin p >=? Fin q)%js = true <-> (q <= p)%Qc.
Proof. unfold geb. apply leb_Fin. Qed.

Lemma gtb_Fin (p q : Qc) : (Fin p >? Fin q)%js = true <-> (q < p)%Qc.
Proof. unfold gtb. apply ltb_Fin. Qed.

Lemma eqb_Fin (p q : Qc) : (Fin p === Fin q)%js = true <-> p = q.
Proof. simpl. apply Qc_eqb_eq. Qed.

Lemma same_eq (x y : number) : same x y = true <-> x = y.
Proof.
  destruct x as [|s|p], y as [|s'|q]; simpl; split; intros H;
    try reflexivity; try discriminate.
  - apply Bool.eqb_prop in H. now subst.
  - injection H as ->. apply Bool.eqb_reflx.
  - apply Qc_eqb_eq in H. now subst.
  - injection H as ->. apply Qc_eqb_refl.
Qed.

(** Case analysis on the signs of infinities. *)
Ltac sign_cases :=
  intros;
  repeat match goal with b : bool |- _ => destruct b end;
  simpl in *; solve [congruence | auto].

Lemma isFinite_Fin (x : number) : isFinite x = true -> exists q, x = Fin q.
Proof. destruct x; simpl; intros H; try discriminate. now exists q. Qed.

Lemma leb_refl (x : number) : isNaN x = false -> (x <=? x)%js = true.
Proof.
  destruct x as [|s|p]; simpl; intros H; try discriminate.
  - unfold leb. simpl. destruct s; reflexivity.
  - apply leb_Fin, Qcle_refl.
Qed.

Lemma leb_not_NaN (x y : number) :
  (x <=? y)%js = true -> isNaN x = false /\ isNaN y = false.
Proof. destruct x, y; unfold leb; simpl; intros H; auto; discriminate. Qed.

Lemma ltb_not_NaN (x y : number) :
  (x <? y)%js = true -> isNaN x = false /\ isNaN y = false.
Proof. destruct x, y; simpl; intros H; auto; discriminate. Qed.

(** On numbers other than [NaN] the order is total. *)
Lemma ltb_false_leb (x y : number) :
  isNaN x = false -> isNaN y = false ->
  (x <? y)%js = false -> (y <=? x)%js = true.
Proof.
  destruct x as [|s|p], y as [|s'|q]; unfold leb; simpl;
    try solve [sign_cases].
  intros _ _ H. apply Qc_leb_le. now apply Qc_ltb_false_le.
Qed.

Lemma leb_trans (x y z : number) :
  (x <=? y)%js = true -> (y <=? z)%js = true -> (x <=? z)%js = true.
Proof.
  destruct x as [|s|p], y as [|s'|q], z as [|s''|r]; unfold leb; simpl;
    try solve [sign_cases].
  intros H1 H2. apply Qc_leb_le in H1, H2. apply Qc_leb_le.
  eapply Qcle_trans; eassumption.
Qed.

Lemma ltb_leb_trans (x y z : number) :
  (x <? y)%js = true -> (y <=? z)%js = true -> (x <? z)%js = true.
Proof.
  destruct x as [|s|p], y as [|s'|q], z as [|s''|r]; unfold leb; simpl;
    try solve [sign_cases].
  intros H1 H2. apply Qc_ltb_lt in H1. apply Qc_leb_le in H2.
  apply Qc_ltb_lt. eapply Qclt_le_trans; eassumption.
Qed.

Lemma ltb_asym (x y : number) :
  (x <? y)%js = true -> (y <? x)%js = false.
Proof.
  destruct x as [|s|p], y as [|s'|q]; simpl; try solve [sign_cases].
  intros H. apply Qc_ltb_lt in H. apply Qc_ltb_false_le.
  now apply Qclt_le_weak.
Qed.

Lemma Math_min_leb_r (x y : number) :
  isNaN x = false -> isNaN y = false -> (Math_min x y <=? y)%js = true.
Proof.
  intros Hx Hy.
  assert (E : Math_min x y = if (y <? x)%js then y else x)
    by (destruct x, y; simpl in *; congruence || reflexivity).
  rewrite E. destruct (y <? x)%js eqn:L.
  - now apply leb_refl.
  - now apply ltb_false_leb.
Qed.

Lemma Math_min_leb_l (x y : number) :
  isNaN x = false -> isNaN y = false -> (Math_min x y <=? x)%js = true.
Proof.
  intros Hx Hy.
  assert (E : Math_min x y = if (y <? x)%js then y else x)
    by (destruct x, y; simpl in *; congruence || reflexivity).
  rewrite E. destruct (y <? x)%js eqn:L.
  - unfold leb. now rewrite L.
  - now apply leb_refl.
Qed.

Lemma Math_max_geb_l (x y : number) :
  isNaN x = false -> isNaN y = false -> (x <=? Math_max x y)%js = true.
Proof.
  intros Hx Hy.
  assert (E : Math_max x y = if (x <? y)%js then y else x)
    by (destruct x, y; simpl in *; congruence || reflexivity).
  rewrite E. destruct (x <? y)%js eqn:L.
  - unfold leb. now rewrite L.
  - now apply leb_refl.
Qed.

Lemma Math_max_geb_r (x y : number) :
  isNaN x = false -> isNaN y = false -> (y <=? Math_max x y)%js = true.
Proof.
  intros Hx Hy.
  assert (E : Math_max x y = if (x <? y)%js then y else x)
    by (destruct x, y; simpl in *; congruence || reflexivity).
  rewrite E. destruct (x <? y)%js eqn:L.
  - now apply leb_refl.
  - now apply ltb_false_leb.
Qed.

Lemma Math_min_not_NaN (x y : number) :
  isNaN x = false -> isNaN y = false -> isNaN (Math_min x y) = false.
Proof.
  destruct x, y; simpl; try congruence;
    match goal with |- context [if ?b then _ else _] => destruct b end;
    reflexivity.
Qed.

Lemma Math_max_not_NaN (x y : number) :
  isNaN x = false -> isNaN y = false -> isNaN (Math_max x y) = false.
Proof.
  destruct x, y; simpl; try congruence;
    match goal with |- context [if ?b then _ else _] => destruct b end;
    reflexivity.
Qed.

Lemma eqb_true_eq (x y : number) : (x === y)%js = true -> x = y.
Proof.
  destruct x as [|s|p], y as [|s'|q]; simpl; intros H; try discriminate.
  - apply Bool.eqb_prop in H. now subst.
  - apply Qc_eqb_eq in H. now subst.
Qed.

Lemma ltb_irrefl (x : number) : (x <? x)%js = false.
Proof.
  destruct x as [|s|p]; simpl; [reflexivity | now destruct s |].
  apply Qc_ltb_irrefl.
Qed.

Lemma leb_ltb_false (x y : number) :
  (x <=? y)%js = true -> (y <? x)%js = false.
Proof.
  unfold leb. intros H. apply orb_true_iff in H as [H | H].
  - now apply ltb_asym.
  - apply eqb_true_eq in H. subst. apply ltb_irrefl.
Qed.

Lemma Math_min_unfold (x y : number) :
  isNaN x = false -> isNaN y = false ->
  Math_min x y = if (y <? x)%js then y else x.
Proof. destruct x, y; simpl; congruence || reflexivity. Qed.

Lemma Math_max_unfold (x y : number) :
  isNaN x = false -> isNaN y = false ->
  Math_max x y = if (x <? y)%js then y else x.
Proof. destruct x, y; simpl; congruence || reflexivity. Qed.

Lemma Math_min_l (x y : number) : (x <=? y)%js = true -> Math_min x y = x.
Proof.
  intros H. destruct (leb_not_NaN _ _ H) as [Hx Hy].
  rewrite Math_min_unfold by assumption. now rewrite (leb_ltb_false _ _ H).
Qed.

Lemma Math_min_r (x y : number) : (y <? x)%js = true -> Math_min x y = y.
Proof.
  intros H. destruct (ltb_not_NaN _ _ H) as [Hy Hx].
  rewrite Math_min_unfold by assumption. now rewrite H.
Qed.

Lemma Math_max_l (x y : number) : (y <=? x)%js = true -> Math_max x y = x.
Proof.
  intros H. destruct (leb_not_NaN _ _ H) as [Hy Hx].
  rewrite Math_max_unfold by assumption. now rewrite (leb_ltb_false _ _ H).
Qed.

Lemma Math_max_r (x y : number) : (x <? y)%js = true -> Math_max x y = y.
Proof.
  intros H. destruct (ltb_not_NaN _ _ H) as [Hx Hy].
  rewrite Math_max_unfold by assumption. now rewrite H.
Qed.

Lemma leb_ltb_false_rev (x y : number) :
  (x <? y)%js = true -> (y <=? x)%js = false.
Proof.
  intros H. destruct (y <=? x)%js eqn:E; [|reflexivity].
  apply leb_ltb_false in E. congruence.
Qed.

Lemma ltb_leb (x y : number) : (x <? y)%js = true -> (x <=? y)%js = true.
Proof. unfold leb. now intros ->. Qed.

Lemma Math_max_r_leb (x y : number) : (x <=? y)%js = true -> Math_max x y = y.
Proof.
  intros H. destruct (leb_not_NaN _ _ H) as [Hx Hy].
  unfold leb in H. apply orb_true_iff in H as [H | H].
  - now apply Math_max_r.
  - apply eqb_true_eq in H. subst. apply Math_max_l. now apply leb_refl.
Qed.

Arguments Math_max : simpl never.
Arguments Math_min : simpl never.
Arguments add : simpl never.
Arguments sub : simpl never.
Arguments mul : simpl never.
Arguments div : simpl never.
Arguments ltb : simpl never.
Arguments leb : simpl never.
Arguments gtb : simpl never.
Arguments geb : simpl never.
Arguments eqb : simpl never.

(* ================================================================== *)
(** * The playback operations *)
(* ================================================================== *)

Section Playback.
Context {P : Platform}.
Import Simulation.
Local Open Scope js_scope.

Lemma seek_clamps (t lo hi : number) :
  isNaN t = false -> (lo <=? hi) = true ->
  let c := Math_max lo (Math_min t hi) in
  (lo <=? c) = true /\ (c <=? hi) = true /\
  ((lo <=? t) = true -> (t <=? hi) = true -> c = t) /\
  ((t <? lo) = true -> c = lo) /\
  ((hi <? t) = true -> c = hi).
Proof.
  intros Ht Hlh c. subst c.
  destruct (leb_not_NaN _ _ Hlh) as [Hlo Hhi].
  assert (Hm : isNaN (Math_min t hi) = false) by now apply Math_min_not_NaN.
  repeat split.
  - now apply Math_max_geb_l.
  - rewrite Math_max_unfold by assumption.
    destruct (lo <? Math_min t hi) eqn:E; [|assumption].
    now apply Math_min_leb_r.
  - intros H1 H2. rewrite (Math_min_l _ _ H2).
    now apply Math_max_r_leb.
  - intros H. apply Math_max_l.
    apply leb_trans with t; [now apply Math_min_leb_l | now apply ltb_leb].
  - intros H. rewrite (Math_min_r _ _ H). now apply Math_max_r_leb.
Qed.



(** C9.  While no dataset is loaded, [tick], [seek] and [play] return the
    state they were given (they are total functions of the state: there
    is nothing to raise).  With a dataset loaded, [seek t] writes
    [max 0 (min t duration)] to [time] and nothing else; for a number [t]
    and [0 <= duration] that value lies in [[0, duration]], it is [t]
    itself when [t] is in the interval, [0] below it and [duration]
    above it. *)
Theorem unloaded_noop_seek_clamps (s : service) :
  (isDataLoaded s = false ->
   forall d t, tick d s = s /\ seek t s = s /\ play s = s) /\
  (isDataLoaded s = true ->
   forall t,
     let s' := seek t s in
     s' = set_time (Math_max zero (Math_min t (duration s))) s /\
     (isNaN t = false -> (zero <=? duration s) = true ->
      (zero <=? time s') = true /\ (time s' <=? duration s) = true /\
      ((zero <=? t) = true -> (t <=? duration s) = true -> time s' = t) /\
      ((t <? zero) = true -> time s' = zero) /\
      ((duration s <? t) = true -> time s' = duration s))).
Proof.
  split.
  - intros H d t. unfold tick, seek, play. rewrite H. simpl.
    rewrite orb_true_r. auto.
  - intros H t s'.
    assert (E : s' = set_time (Math_max zero (Math_min t (duration s))) s).
    { subst s'. unfold seek. now rewrite H. }
    split; [exact E|]. intros Ht Hd. rewrite E. simpl.
    now apply seek_clamps.
Qed.

End Playback.

(* ================================================================== *)
(** * The parser *)
(* ================================================================== *)

Section ParserFacts.
Import JsString Parser Input.
Local Open Scope string_scope.

Lemma element_field (i : nat) (value : string) :
  element i (positionValues value) = field i value.
Proof.
  unfold element, positionValues, field.
  generalize (splitChar "|" value). intros l. revert i.
  induction l as [|f l IH]; intros [|i]; simpl; auto.
Qed.

Lemma present_field (i : nat) (value : string) :
  present i value = true <-> exists x, field i value = Some x.
Proof.
  unfold present, field.
  destruct (nth_error (splitChar "|" value) i) as [f|].
  - destruct (isEmpty f); simpl; split; intros H; try discriminate; eauto.
    now destruct H.
  - split; [discriminate | now intros [x H]].
Qed.

Lemma present_false_field (i : nat) (value : string) :
  present i value = false <-> field i value = None.
Proof.
  unfold present, field.
  destruct (nth_error (splitChar "|" value) i) as [f|].
  - destruct (isEmpty f); simpl; split; intros H; try discriminate; auto.
  - split; auto.
Qed.

(** C3 (as the code has it).  For a token whose key is exactly [T], a
    state is appended exactly when the longitude, latitude and altitude
    sub-fields are all present (not empty); its coordinates are what
    [parseFloat] reads from them, which is [NaN] for a sub-field that is
    not numeric.  When one of the three is missing or empty the object is
    returned as it was: no state is appended. *)
Theorem position_token_appends (currentTime : number) (obj : AcmiObject.t)
        (part value : string) :
  splitKeyValue part = ("T", value) ->
  let obj' := processPart currentTime obj part in
  (present 0 value && present 1 value && present 2 value = true ->
   exists lon lat alt,
     field 0 value = Some lon /\ field 1 value = Some lat /\
     field 2 value = Some alt /\
     AcmiObject.states obj' =
       (AcmiObject.states obj ++
        [TimeState.mk currentTime lon lat alt (field 3 value)
                      (field 4 value) (field 5 value)])%list /\
     List.length (AcmiObject.states obj') =
       S (List.length (AcmiObject.states obj))) /\
  (present 0 value && present 1 value && present 2 value = false ->
   obj' = obj).
Proof.
  intros E obj'.
  assert (U : obj' = updatePosition currentTime value obj).
  { subst obj'. unfold processPart. now rewrite E. }
  unfold updatePosition in U. rewrite !element_field in U.
  split; intros H.
  - apply andb_true_iff in H as [H H2]. apply andb_true_iff in H as [H0 H1].
    apply present_field in H0 as [lon H0], H1 as [lat H1], H2 as [alt H2].
    rewrite H0, H1, H2 in U. exists lon, lat, alt.
    rewrite U. simpl. rewrite length_app. simpl.
    repeat split; auto. lia.
  - rewrite U.
    destruct (field 0 value) eqn:F0; [|reflexivity].
    destruct (field 1 value) eqn:F1; [|reflexivity].
    destruct (field 2 value) eqn:F2; [|reflexivity].
    assert (present 0 value = true) by (apply present_field; eauto).
    assert (present 1 value = true) by (apply present_field; eauto).
    assert (present 2 value = true) by (apply present_field; eauto).
    rewrite H0, H1, H2 in H. discriminate.
Qed.

(** ** The loop over the lines *)

Lemma significantLines_cons (line : string) (lines : list string) :
  significantLines (line :: lines) =
  if significant (trim line) then trim line :: significantLines lines
  else significantLines lines.
Proof. reflexivity. Qed.

(** Lines that are not significant are skipped. *)
Lemma processLine_skip (l : locals) (line : string) :
  significant (trim line) = false -> processLine l line = Ok l.
Proof.
  unfold significant, processLine. intros H.
  apply negb_false_iff in H. now rewrite H.
Qed.

(** Before the header has been seen, a significant line is the header or
    the parse fails. *)
Lemma processLine_header (l : locals) (line : string) :
  significant (trim line) = true -> fileTypeValidated l = false ->
  processLine l line =
  if String.eqb (trim line) FILE_TYPE then Ok (set_fileTypeValidated true l)
  else Throw HEADER_NOT_FOUND.
Proof.
  unfold significant, processLine. intros H V.
  apply negb_true_iff in H. now rewrite H, V.
Qed.

(** After the header, a frame marker enters a frame. *)
Lemma processLine_frame (l : locals) (line : string) :
  significant (trim line) = true -> fileTypeValidated l = true ->
  isFrameMarker (trim line) = true ->
  processLine l line = Ok (enterFrame (frameTime (trim line)) l).
Proof.
  unfold significant, processLine, isFrameMarker. intros H V F.
  apply negb_true_iff in H. now rewrite H, V, F.
Qed.

Lemma processHeader_frame_fields (key value : string) (l : locals) :
  let l' := processHeader key value l in
  fileTypeValidated l' = fileTypeValidated l /\
  startTime l' = startTime l /\ endTime l' = endTime l.
Proof.
  unfold processHeader.
  repeat match goal with |- context [if ?b then _ else _] => destruct b end;
    simpl; auto.
Qed.

(** After the header, every other line is accepted and leaves the frame
    bookkeeping alone. *)
Lemma processLine_other (l : locals) (line : string) :
  significant (trim line) = true -> fileTypeValidated l = true ->
  isFrameMarker (trim line) = false ->
  exists l', processLine l line = Ok l' /\
             fileTypeValidated l' = true /\
             startTime l' = startTime l /\ endTime l' = endTime l.
Proof.
  unfold significant, processLine, isFrameMarker. intros H V F.
  apply negb_true_iff in H. rewrite H, V, F. simpl.
  destruct (inHeader l).
  - destruct (splitKeyValue (trim line)) as [key value].
    eexists. split; [reflexivity|].
    destruct (processHeader_frame_fields key value l) as (A & B & C).
    rewrite A, B, C. auto.
  - destruct (startsWith (trim line) "-").
    + destruct (JsMap.get _ _); eexists; (split; [reflexivity|]); simpl; auto.
    + destruct (tokenizeLine (trim line));
        eexists; (split; [reflexivity|]); simpl; auto.
Qed.

(** Once the header has been seen the loop runs to its end, and its
    bookkeeping is the first frame time and the running maximum. *)
Lemma processLines_validated (lines : list string) :
  forall l, fileTypeValidated l = true ->
  exists l', processLines l lines = Ok l' /\
             fileTypeValidated l' = true /\
             startTime l' =
               match startTime l with
               | Some s => Some s
               | None => hd_error (framesOf lines)
               end /\
             endTime l' = fold_left Math_max (framesOf lines) (endTime l).
Proof.
  induction lines as [|line lines IH]; intros l V.
  - exists l. simpl. destruct (startTime l); auto.
  - unfold framesOf. rewrite significantLines_cons. simpl processLines.
    destruct (significant (trim line)) eqn:S.
    + simpl filter. destruct (isFrameMarker (trim line)) eqn:F.
      * rewrite (processLine_frame l line S V F).
        destruct (IH (enterFrame (frameTime (trim line)) l) V)
          as (l' & R & V' & St & En).
        exists l'. simpl in St, En. simpl.
        repeat split; auto.
        rewrite St. now destruct (startTime l).
      * destruct (processLine_other l line S V F) as (l1 & R1 & V1 & St1 & En1).
        rewrite R1. destruct (IH l1 V1) as (l' & R & V' & St & En).
        exists l'. rewrite <- St1, <- En1. auto.
    + rewrite (processLine_skip l line S). apply IH, V.
Qed.

(** Before the header has been seen the first significant line decides. *)
Lemma processLines_unvalidated (lines : list string) :
  forall l, fileTypeValidated l = false ->
  match significantLines lines with
  | [] => processLines l lines = Ok l
  | h :: rest =>
      if String.eqb h FILE_TYPE then
        exists lines',
          processLines l lines =
            processLines (set_fileTypeValidated true l) lines' /\
          significantLines lines' = rest
      else processLines l lines = Throw HEADER_NOT_FOUND
  end.
Proof.
  induction lines as [|line lines IH]; intros l V.
  - reflexivity.
  - rewrite significantLines_cons. simpl processLines.
    destruct (significant (trim line)) eqn:S.
    + rewrite (processLine_header l line S V).
      destruct (String.eqb (trim line) FILE_TYPE).
      * exists lines. auto.
      * reflexivity.
    + rewrite (processLine_skip l line S). apply IH, V.
Qed.


(** The local variables behind the dataset returned: the first frame
    time, if any, and the running maximum from 0. *)
Lemma parse_locals (fileContent : string) (d : AcmiData.t) :
  parse fileContent = Ok d ->
  exists l,
    d = finish l /\
    startTime l = hd_error (frameTimes (splitLines fileContent)) /\
    endTime l = fold_left Math_max (frameTimes (splitLines fileContent)) zero.
Proof.
  unfold parse, frameTimes.
  pose proof (processLines_unvalidated (splitLines fileContent) initial
                eq_refl) as H.
  destruct (significantLines (splitLines fileContent)) as [|h rest]; simpl.
  - rewrite H. intros E. injection E as <-. exists initial. auto.
  - destruct (String.eqb h FILE_TYPE) eqn:E.
    + destruct H as (lines' & R & Sg). rewrite R.
      destruct (processLines_validated lines'
                  (set_fileTypeValidated true initial) eq_refl)
        as (l' & R' & _ & St & En).
      rewrite R'. intros D. injection D as <-.
      unfold framesOf in St, En. rewrite Sg in St, En.
      exists l'. auto.
    + rewrite H. discriminate.
Qed.

(** C4 (as the code has it).  Of a parsed input, [startTime] is the time
    of the first frame marker, 0 when there is none, and [endTime] is
    the running [Math.max] of 0 and the times of all frame markers: the
    maximum frame time when one of them is at least 0, and 0 when all of
    them are negative or there is none. *)
Theorem frame_times_bound (fileContent : string) (d : AcmiData.t) :
  parse fileContent = Ok d ->
  let frames := frameTimes (splitLines fileContent) in
  AcmiData.startTime d = hd zero frames /\
  AcmiData.endTime d = fold_left Math_max frames zero.
Proof.
  intros E frames.
  destruct (parse_locals fileContent d E) as (l & -> & St & En).
  fold frames in St, En. unfold finish. simpl. split.
  - rewrite St. now destruct frames.
  - exact En.
Qed.

Lemma fold_Math_max_floor (frames : list number) :
  forall acc, (zero <=? acc)%js = true ->
  isNaN (fold_left Math_max frames acc) = false ->
  (zero <=? fold_left Math_max frames acc)%js = true.
Proof.
  induction frames as [|f frames IH]; intros acc A N; [exact A|].
  simpl in *. destruct (isNaN f) eqn:Nf.
  - destruct f; try discriminate.
    replace (Math_max acc NaN) with NaN in N by now destruct acc.
    clear - N. exfalso. induction frames as [|g frames IH]; simpl in N.
    + discriminate.
    + now apply IH.
  - apply IH; [|exact N].
    destruct (leb_not_NaN _ _ A) as [_ Na].
    eapply leb_trans; [exact A|]. now apply Math_max_geb_l.
Qed.

(** The duration of a parsed recording is never negative. *)
Lemma parse_endTime_floor (fileContent : string) (d : AcmiData.t) :
  parse fileContent = Ok d ->
  isNaN (AcmiData.endTime d) = false ->
  (zero <=? AcmiData.endTime d)%js = true.
Proof.
  intros E N. destruct (parse_locals fileContent d E) as (l & -> & _ & En).
  unfold finish in *. simpl in *. rewrite En in *.
  apply fold_Math_max_floor; [|exact N].
  now apply leb_refl.
Qed.

End ParserFacts.

(* ================================================================== *)
(** * The pose computation *)
(* ================================================================== *)

Section PoseFacts.
Context {P : Platform}.
Import Simulation Pose.
Local Open Scope string_scope.
Local Open Scope js_scope.

(** An inactive object gets the default pose and nothing is written. *)
Lemma getInterpolatedState_inactive (obj : AcmiObject.t) (t : number)
      (w : world) :
  activeAt obj t = false ->
  getInterpolatedState obj t w = Ok (defaultState obj, w).
Proof. unfold getInterpolatedState. now intros ->. Qed.

(** An active object gets the pose interpolated between its bracketing
    samples; the two scratch Eulers are overwritten. *)
Lemma getInterpolatedState_active (obj : AcmiObject.t) (t : number)
      (w : world) (m : Matrix4) (s1 s2 : TimeState.t) :
  activeAt obj t = true ->
  bracket (AcmiObject.states obj) t = Some (s1, s2) ->
  enuMatrix (engine w) = Some m ->
  getInterpolatedState obj t w =
  Ok (interpolatedPose m obj s1 s2 t,
      mkWorld (engine w)
              (setFromQuaternion
                 (slerp (orientationOf s1) (orientationOf s2)
                        (fraction s1 s2 t)) "ZYX")
              (eulerOf s2)).
Proof.
  intros A B E. unfold getInterpolatedState. rewrite A.
  change (negb true) with false. cbv iota.
  unfold bracket in B.
  destruct (arrayGet (AcmiObject.states obj)
              (Z.max 0 (bracketIndex (AcmiObject.states obj) t - 1)))
    as [a|] eqn:G1; [|discriminate].
  destruct (arrayGet (AcmiObject.states obj)
              (Z.min (Z.of_nat (List.length (AcmiObject.states obj)) - 1)
                     (bracketIndex (AcmiObject.states obj) t)))
    as [b|] eqn:G2; [|discriminate].
  injection B as -> ->.
  unfold bind, defined, ret, read_enuMatrix, eulerToQuaternion,
    write_interpolation_tempEuler, write_tempEuler, read_tempEuler,
    slerpQuaternion.
  cbv beta. rewrite E. reflexivity.
Qed.

(** ** The bracketing samples *)

Lemma findIndex_None {A : Type} (f : A -> bool) (l : list A) :
  findIndex f l = None -> Forall (fun a => f a = false) l.
Proof.
  induction l as [|a l IH]; simpl; intros H; [constructor|].
  destruct (f a) eqn:E; [discriminate|].
  destruct (findIndex f l); [discriminate|]. constructor; auto.
Qed.

Lemma findIndex_Some {A : Type} (f : A -> bool) (l : list A) :
  forall i, findIndex f l = Some i ->
  exists a, nth_error l i = Some a /\ f a = true /\
            forall j b, (j < i)%nat -> nth_error l j = Some b -> f b = false.
Proof.
  induction l as [|a l IH]; simpl; intros i H; [discriminate|].
  destruct (f a) eqn:E.
  - injection H as <-. exists a. repeat split; auto. intros j b Hj. lia.
  - destruct (findIndex f l) as [k|]; [|discriminate].
    injection H as <-. destruct (IH k eq_refl) as (x & N & F & M).
    exists x. repeat split; auto.
    intros [|j] b Hj Hb; simpl in Hb.
    + now injection Hb as <-.
    + apply (M j); [lia | assumption].
Qed.

Lemma arrayGet_of_nat {A : Type} (l : list A) (n : nat) :
  arrayGet l (Z.of_nat n) = nth_error l n.
Proof.
  unfold arrayGet. destruct (Z.of_nat n <? 0)%Z eqn:E.
  - apply Z.ltb_lt in E. lia.
  - now rewrite Nat2Z.id.
Qed.

(** The first sample of an active object is not later than the query. *)
Lemma activeAt_first (obj : AcmiObject.t) (t : number) :
  activeAt obj t = true ->
  exists s0 rest, AcmiObject.states obj = s0 :: rest /\
                  (TimeState.time s0 <=? t) = true.
Proof.
  unfold activeAt. destruct (AcmiObject.states obj) as [|s0 rest];
    [discriminate|].
  intros H. apply andb_true_iff in H as [H _]. exists s0, rest. auto.
Qed.

(** An active object always has its two bracketing samples. *)
Lemma bracket_active (obj : AcmiObject.t) (t : number) :
  activeAt obj t = true ->
  exists s1 s2, bracket (AcmiObject.states obj) t = Some (s1, s2) /\
                bracketing (AcmiObject.states obj) t s1 s2.
Proof.
  intros A. destruct (activeAt_first obj t A) as (s0 & rest & E & L).
  unfold bracket, bracketIndex. rewrite E.
  set (states := s0 :: rest).
  destruct (findIndex (fun s => TimeState.time s >? t) states) as [i|] eqn:F.
  - destruct (findIndex_Some _ _ _ F) as (s2 & N2 & G2 & M).
    destruct i as [|k].
    + simpl in N2. injection N2 as <-. unfold gtb in G2.
      rewrite (leb_ltb_false _ _ L) in G2. discriminate.
    + assert (Hk : (S k < List.length states)%nat)
        by (apply nth_error_Some; congruence).
      destruct (nth_error states k) as [s1|] eqn:N1.
      2:{ apply nth_error_None in N1. lia. }
      exists s1, s2.
      replace (Z.max 0 (Z.of_nat (S k) - 1)) with (Z.of_nat k) by lia.
      replace (Z.min (Z.of_nat (List.length states) - 1) (Z.of_nat (S k)))
        with (Z.of_nat (S k)) by lia.
      rewrite !arrayGet_of_nat, N1, N2. split; [reflexivity|].
      apply bracket_adjacent with k; auto.
      apply (M k s1); [lia | assumption].
  - set (n := List.length rest).
    assert (Hl : List.length states = S n) by reflexivity.
    destruct (nth_error states n) as [s|] eqn:N.
    2:{ apply nth_error_None in N. lia. }
    exists s, s. rewrite Hl.
    replace (Z.max 0 (Z.of_nat (S n) - 1)) with (Z.of_nat n) by lia.
    replace (Z.min (Z.of_nat (S n) - 1) (Z.of_nat (S n)))
      with (Z.of_nat n) by lia.
    rewrite !arrayGet_of_nat, N. split; [reflexivity|].
    apply bracket_last.
    + now rewrite Hl.
    + now apply findIndex_None.
Qed.

(** ** Activity *)

Lemma activeAt_inLifetime (obj : AcmiObject.t) (t : number) :
  activeAt obj t = true <-> inLifetime obj t.
Proof.
  unfold activeAt, inLifetime. split.
  - destruct (AcmiObject.states obj) as [|s0 rest]; [discriminate|].
    intros H. apply andb_true_iff in H as [H1 H2]. split.
    + exists s0, rest. auto.
    + destruct (AcmiObject.removedAtTime obj) as [r|]; eauto.
  - intros [(s0 & rest & -> & H1) H2]. rewrite H1. simpl.
    destruct H2 as [-> | (r & -> & H2)]; auto.
Qed.

(** C5.  The pose returned for an object is active exactly when the
    object is in its lifetime at the query time: it has a sample, the
    query is not before the first sample, and the object has not been
    removed ([removedAtTime] is null or later than the query).  In its
    lifetime (the engine being loaded) a pose with [isActive = true] is
    returned; outside of it the pose returned is the fixed one: position
    (0,0,0), identity quaternion, zero velocity, speed, vertical speed
    and heading, [isActive = false] and the colour ["gray"], whatever
    the [Color] property of the object is; nothing is written. *)
Theorem active_iff_in_lifetime (obj : AcmiObject.t) (t : number) (w : world) :
  (inLifetime obj t ->
   forall m, enuMatrix (engine w) = Some m ->
   exists pose w',
     getInterpolatedState obj t w = Ok (pose, w') /\
     InterpolatedState.isActive pose = true) /\
  (~ inLifetime obj t ->
   getInterpolatedState obj t w =
   Ok (InterpolatedState.mk (AcmiObject.id obj) zero zero zero
                            one zero zero zero zero zero zero
                            "gray" false zero zero zero, w)).
Proof.
  split.
  - intros L m E. apply activeAt_inLifetime in L.
    destruct (bracket_active obj t L) as (s1 & s2 & B & _).
    rewrite (getInterpolatedState_active obj t w m s1 s2 L B E).
    eexists. eexists. split; reflexivity.
  - intros L. apply getInterpolatedState_inactive.
    destruct (activeAt obj t) eqn:A; [|reflexivity].
    apply activeAt_inLifetime in A. contradiction.
Qed.

(** ** The interpolation fraction *)

Ltac qc2q :=
  unfold Qcle, Qclt, Qcdiv, Qcmult, Qcinv, Qcminus, Qcplus, Qcopp, Q2Qc in *;
  cbn [this] in *; rewrite ?Qred_correct in *.




Lemma lerp_Fin (x y f : Qc) :
  lerp (Fin x) (Fin y) (Fin f) = Fin (x + (y + - x) * f)%Qc.
Proof. reflexivity. Qed.







(** ** The held pose *)

Lemma nonDecreasing_le_last (states : list TimeState.t) (last : TimeState.t) :
  nonDecreasing states = true ->
  nth_error states (Nat.pred (List.length states)) = Some last ->
  isNaN (TimeState.time last) = false ->
  Forall (fun a => (TimeState.time a <=? TimeState.time last) = true) states.
Proof.
  induction states as [|s rest IH]; intros S N F; [constructor|].
  destruct rest as [|s' rest'].
  - simpl in N. injection N as <-. constructor; [|constructor].
    now apply leb_refl.
  - simpl in S. apply andb_true_iff in S as [S1 S2].
    assert (IH' := IH S2 N F). constructor; [|exact IH'].
    inversion IH' as [|? ? H1 H2]; subst.
    eapply leb_trans; eassumption.
Qed.

Lemma sub_self (a : Qc) : Fin a - Fin a = zero.
Proof. unfold sub, add, neg. now rewrite Qcplus_opp_r. Qed.

Lemma lerp_self (a : Qc) : lerp (Fin a) (Fin a) one = Fin a.
Proof. unfold one. rewrite lerp_Fin. f_equal. ring. Qed.

Lemma eqb_zero_zero : (zero === zero) = true.
Proof. now apply eqb_Fin. Qed.

Lemma gtb_zero_zero : (zero >? zero) = false.
Proof. apply ltb_irrefl. Qed.

(** Interpolating between a finite sample and itself gives the sample. *)
Lemma interpolatedPose_held {L : SlerpEndpoints P} (m : Matrix4)
      (obj : AcmiObject.t) (s : TimeState.t) (t : number) :
  finiteSample s = true ->
  interpolatedPose m obj s s t = heldPose m obj s.
Proof.
  unfold finiteSample. intros F.
  repeat match goal with
         | H : _ && _ = true |- _ => apply andb_true_iff in H as [H ?]
         end.
  repeat match goal with
         | H : isFinite _ = true |- _ => apply isFinite_Fin in H as [? H]
         end.
  assert (Ef : fraction s s t = one).
  { unfold fraction. rewrite F, sub_self, eqb_zero_zero. reflexivity. }
  unfold interpolatedPose, heldPose, interpolatedLatitude,
    interpolatedLongitude, interpolatedAltitude, deriveKinematics.
  rewrite Ef, slerp_one. rewrite F, sub_self, gtb_zero_zero.
  rewrite H, H0, H1, !lerp_self. reflexivity.
Qed.

(** C2 (as the code has it).  Before the first sample the object is not
    yet active: the fixed inactive pose is returned, not the pose of the
    first sample.  After the last sample of a series in non-decreasing
    order, while the object is active, the pose of the last sample is
    returned, held: its position and orientation, zero velocity, zero
    speed and zero vertical speed. *)
Theorem held_after_last_inactive_before_first {L : SlerpEndpoints P}
        (obj : AcmiObject.t) (t : number) (w : world) (m : Matrix4)
        (first last : TimeState.t) :
  enuMatrix (engine w) = Some m ->
  hd_error (AcmiObject.states obj) = Some first ->
  nth_error (AcmiObject.states obj)
            (Nat.pred (List.length (AcmiObject.states obj))) = Some last ->
  ((t <? TimeState.time first) = true ->
   getInterpolatedState obj t w = Ok (inactivePose (AcmiObject.id obj), w)) /\
  (nonDecreasing (AcmiObject.states obj) = true ->
   finiteSample last = true ->
   (TimeState.time last <? t) = true ->
   activeAt obj t = true ->
   exists w', getInterpolatedState obj t w = Ok (heldPose m obj last, w')).
Proof.
  intros E Hf Hl. split.
  - intros B. apply getInterpolatedState_inactive. unfold activeAt.
    destruct (AcmiObject.states obj) as [|s0 rest]; [reflexivity|].
    simpl in Hf. injection Hf as ->.
    unfold geb. rewrite (leb_ltb_false_rev _ _ B). reflexivity.
  - intros S F A Act.
    destruct (bracket_active obj t Act) as (s1 & s2 & B & R).
    assert (Fl : isNaN (TimeState.time last) = false)
      by now destruct (ltb_not_NaN _ _ A).
    pose proof (nonDecreasing_le_last _ last S Hl Fl) as All.
    rewrite Forall_forall in All.
    assert (None_later : forall a, In a (AcmiObject.states obj) ->
                                   (TimeState.time a >? t) = false).
    { intros a Ia. unfold gtb.
      destruct (t <? TimeState.time a) eqn:X; [|reflexivity].
      pose proof (ltb_leb_trans _ _ _ X (All a Ia)) as Y.
      rewrite (ltb_asym _ _ A) in Y. discriminate. }
    destruct R as [s N _ | k a b N1 N2 G1 G2].
    + assert (s = last) by congruence. subst s.
      rewrite (getInterpolatedState_active obj t w m last last Act B E).
      rewrite (interpolatedPose_held m obj last t F). eauto.
    + apply nth_error_In in N2. rewrite (None_later b N2) in G2.
      discriminate.
Qed.

(** ** The pose map *)

(** The pose of one object depends on the transform, the object and the
    time; the service is left as it was. *)
Lemma getInterpolatedState_pure (obj : AcmiObject.t) (t : number) (w : world)
      (m : Matrix4) :
  enuMatrix (engine w) = Some m ->
  exists w', getInterpolatedState obj t w = Ok (poseOf m obj t, w') /\
             engine w' = engine w.
Proof.
  intros E. unfold poseOf. destruct (activeAt obj t) eqn:A.
  - destruct (bracket_active obj t A) as (s1 & s2 & B & _). rewrite B.
    rewrite (getInterpolatedState_active obj t w m s1 s2 A B E).
    eexists. split; reflexivity.
  - rewrite (getInterpolatedState_inactive obj t w A). eauto.
Qed.

Lemma collectStates_pure (entries : list (string * AcmiObject.t)) (t : number)
      (m : Matrix4) :
  forall acc w, enuMatrix (engine w) = Some m ->
  exists w', collectStates entries t acc w = Ok (posesOf m entries t acc, w') /\
             engine w' = engine w.
Proof.
  induction entries as [|[id obj] rest IH]; intros acc w E.
  - exists w. auto.
  - destruct (getInterpolatedState_pure obj t w m E) as (w1 & R1 & E1).
    assert (E1' : enuMatrix (engine w1) = Some m) by now rewrite E1.
    destruct (IH (JsMap.set id (poseOf m obj t) acc) w1 E1')
      as (w' & R & E').
    exists w'. split; [|congruence].
    simpl. unfold bind. rewrite R1. exact R.
Qed.

Lemma interpolatedStates_holds (data : AcmiData.t) (w : world) :
  holds data (engine w) ->
  exists w', interpolatedStates w =
             Ok (posesOf (enuOf data) (AcmiData.objects data)
                         (time (engine w)) JsMap.empty, w') /\
             engine w' = engine w.
Proof.
  intros [D E]. unfold interpolatedStates. rewrite D.
  now apply collectStates_pure.
Qed.

(** What [loadData] establishes, the playback operations keep. *)
Lemma holds_loadData (data : AcmiData.t) (s : service) :
  holds data (loadData data s).
Proof. split; reflexivity. Qed.

Lemma holds_playback (data : AcmiData.t) (s : service) :
  holds data s ->
  forall d,
    holds data (tick d s) /\ holds data (seek d s) /\ holds data (play s) /\
    holds data (pause s) /\ holds data (setSpeed d s).
Proof.
  intros [D E] d. unfold holds, tick, seek, play, seek, pause, setSpeed.
  repeat match goal with
         | |- context [if ?b then _ else _] => destruct b
         end; simpl; auto 10.
Qed.

(** The playback operations leave the dataset, its transform and the
    loaded flag alone. *)
Lemma playback_keeps_dataset (s : service) (d : number) :
  keepsDataset s (tick d s) /\ keepsDataset s (play s) /\
  keepsDataset s (pause s) /\ keepsDataset s (seek d s) /\
  keepsDataset s (setSpeed d s).
Proof.
  unfold keepsDataset, tick, play, seek, pause, setSpeed.
  repeat match goal with
         | |- context [if ?b then _ else _] => destruct b
         end; simpl; auto 15.
Qed.

Lemma keepsDataset_invariant (s s' : service) :
  keepsDataset s s' ->
  match acmiData s with
  | Some data => holds data s /\ isDataLoaded s = true
  | None => isDataLoaded s = false
  end ->
  match acmiData s' with
  | Some data => holds data s' /\ isDataLoaded s' = true
  | None => isDataLoaded s' = false
  end.
Proof.
  intros (A & E & L). unfold holds. rewrite A, E, L. auto.
Qed.

(** In every state the operations reach, a dataset that is there was
    loaded by [loadData], and the loaded flag says whether one is there. *)
Lemma reachable_holds (s : service) :
  reachable s ->
  match acmiData s with
  | Some data => holds data s /\ isDataLoaded s = true
  | None => isDataLoaded s = false
  end.
Proof.
  induction 1 as [|data s R IH|d s R IH|s R IH|s R IH|d s R IH|d s R IH
                  |s R IH].
  - reflexivity.
  - split; [apply holds_loadData | reflexivity].
  - eapply keepsDataset_invariant; [|exact IH].
    apply (playback_keeps_dataset s d).
  - eapply keepsDataset_invariant; [|exact IH].
    apply (playback_keeps_dataset s zero).
  - eapply keepsDataset_invariant; [|exact IH].
    apply (playback_keeps_dataset s zero).
  - eapply keepsDataset_invariant; [|exact IH].
    apply (playback_keeps_dataset s d).
  - eapply keepsDataset_invariant; [|exact IH].
    apply (playback_keeps_dataset s d).
  - reflexivity.
Qed.

(** C7.  The pose map is a function of the loaded dataset and the
    current time: in any two states of the engine that hold the same
    dataset at the same time, whatever the scratch objects, the playing
    flag and the speed are, the computation returns the same map, the
    one given by [posesOf]; it leaves the service (dataset, time and all
    other fields) as it was, and evaluated again in the state it leaves
    behind it returns the same map. *)
Theorem interpolatedStates_pure (data : AcmiData.t) (w1 w2 : world) :
  holds data (engine w1) ->
  holds data (engine w2) ->
  time (engine w1) = time (engine w2) ->
  let poses := posesOf (enuOf data) (AcmiData.objects data)
                       (time (engine w1)) JsMap.empty in
  exists w1' w2' w1'',
    interpolatedStates w1 = Ok (poses, w1') /\
    interpolatedStates w2 = Ok (poses, w2') /\
    engine w1' = engine w1 /\
    engine w2' = engine w2 /\
    interpolatedStates w1' = Ok (poses, w1'').
Proof.
  intros H1 H2 T poses.
  destruct (interpolatedStates_holds data w1 H1) as (w1' & R1 & E1).
  destruct (interpolatedStates_holds data w2 H2) as (w2' & R2 & E2).
  assert (H1' : holds data (engine w1')) by now rewrite E1.
  destruct (interpolatedStates_holds data w1' H1') as (w1'' & R3 & E3).
  exists w1', w2', w1''. subst poses.
  rewrite R1, R2, R3, E1, <- T. auto.
Qed.

End PoseFacts.

(* ================================================================== *)
(** * The theorems on concrete inputs *)
(* ================================================================== *)

(** Equality of two numbers, by evaluation. *)
Ltac number_eq := apply same_eq; vm_compute; reflexivity.

Section ParserExamples.
Import JsString Parser Input Examples.
Local Open Scope string_scope.

Lemma parse_sample : parse sample = Ok sampleData.
Proof. vm_compute. reflexivity. Qed.

(** C1 (the code on the sample recording).  The reference lines of the
    sample carry the object id [0] in front of the key, so the key read
    from the line [0,ReferenceLongitude=30.0] is [0,ReferenceLongitude]:
    none of the header fields matches and the dataset returned has
    [referenceLongitude = 0] and [referenceLatitude = 0], not 30 and 50.
    The same lines without the prefix are recognised. *)
Theorem sample_reference_not_recognised :
  parse sample = Ok sampleData /\
  firstn 6 (significantLines (splitLines sample)) =
    [ FILE_TYPE; "FileVersion=2.2"; "0,ReferenceTime=2020-01-01T00:00:00";
      "0,ReferenceLongitude=30.0"; "0,ReferenceLatitude=50.0"; "#1.00" ] /\
  splitKeyValue "0,ReferenceLongitude=30.0" = ("0,ReferenceLongitude", "30.0") /\
  splitKeyValue "0,ReferenceLatitude=50.0" = ("0,ReferenceLatitude", "50.0") /\
  AcmiData.referenceLongitude sampleData = zero /\
  AcmiData.referenceLatitude sampleData = zero /\
  zero <> parseFloat "30.0" /\ zero <> parseFloat "50.0" /\
  (exists d,
     parse (joinLines [ FILE_TYPE; "ReferenceLongitude=30.0";
                        "ReferenceLatitude=50.0" ]) = Ok d /\
     AcmiData.referenceLongitude d = parseFloat "30.0" /\
     AcmiData.referenceLatitude d = parseFloat "50.0").
Proof.
  split; [exact parse_sample|].
  split; [reflexivity|].
  split; [reflexivity|].
  split; [reflexivity|].
  split; [number_eq|].
  split; [number_eq|].
  split; [intros H; apply same_eq in H; vm_compute in H; discriminate|].
  split; [intros H; apply same_eq in H; vm_compute in H; discriminate|].
  destruct (parse (joinLines [ FILE_TYPE; "ReferenceLongitude=30.0";
                               "ReferenceLatitude=50.0" ])) as [d|m] eqn:E.
  - exists d. split; [reflexivity|].
    split; apply same_eq.
    + change (match Ok d with
              | Ok d => same (AcmiData.referenceLongitude d) (parseFloat "30.0")
              | Throw _ => false
              end = true).
      rewrite <- E. vm_compute. reflexivity.
    + change (match Ok d with
              | Ok d => same (AcmiData.referenceLatitude d) (parseFloat "50.0")
              | Throw _ => false
              end = true).
      rewrite <- E. vm_compute. reflexivity.
  - vm_compute in E. discriminate.
Qed.

(** Counterexample to C3 as stated.  The token [T=abc|50|1000] has key [T] and a
    longitude sub-field that is present but not numeric; a state is
    appended all the same, with longitude [NaN]. *)
Lemma non_numeric_longitude_appended :
  splitKeyValue badLongitude = ("T", "abc|50|1000") /\
  numeric 0 "abc|50|1000" = false /\
  AcmiObject.states (newObject "A") = [] /\
  List.length
    (AcmiObject.states (processPart one (newObject "A") badLongitude)) = 1%nat /\
  map TimeState.longitude
      (AcmiObject.states (processPart one (newObject "A") badLongitude))
  = [NaN].
Proof. repeat split. Qed.

Lemma position_token_appends_witness :
  (splitKeyValue missingLatitude = ("T", "30.0||1000") /\
   present 0 "30.0||1000" && present 1 "30.0||1000"
     && present 2 "30.0||1000" = false /\
   processPart one sampleObject missingLatitude = sampleObject) /\
  (splitKeyValue fullPosition = ("T", "30.01|50.01|1000|0|0|90") /\
   present 0 "30.01|50.01|1000|0|0|90" && present 1 "30.01|50.01|1000|0|0|90"
     && present 2 "30.01|50.01|1000|0|0|90" = true /\
   List.length
     (AcmiObject.states (processPart one sampleObject fullPosition)) =
   S (List.length (AcmiObject.states sampleObject))).
Proof.
  split.
  - split; [reflexivity|]. split; [reflexivity|].
    apply (position_token_appends one sampleObject missingLatitude
             "30.0||1000" eq_refl).
    reflexivity.
  - split; [reflexivity|]. split; [reflexivity|].
    destruct (position_token_appends one sampleObject fullPosition
                "30.01|50.01|1000|0|0|90" eq_refl) as [H _].
    destruct (H eq_refl) as (lon & lat & alt & _ & _ & _ & _ & L).
    exact L.
Defined.

(** Counterexample to C4 as stated.  With the frame markers [#-5] and [#-3] the
    largest frame time is [-3], and [endTime] is 0. *)
Lemma negative_frames_end_at_zero :
  exists d,
    parse negativeFrames = Ok d /\
    frameTimes (splitLines negativeFrames) = [ofZ (-5); ofZ (-3)] /\
    AcmiData.startTime d = ofZ (-5) /\
    AcmiData.endTime d = zero /\
    AcmiData.endTime d <> ofZ (-3).
Proof.
  destruct (parse negativeFrames) as [d|m] eqn:E.
  - exists d. split; [reflexivity|].
    assert (S : same (AcmiData.startTime d) (ofZ (-5))
                && same (AcmiData.endTime d) zero = true).
    { change (match Ok d with
              | Ok d => same (AcmiData.startTime d) (ofZ (-5))
                        && same (AcmiData.endTime d) zero
              | Throw _ => false
              end = true).
      rewrite <- E. vm_compute. reflexivity. }
    apply andb_true_iff in S as [S1 S2]. apply same_eq in S1, S2.
    split; [|split; [exact S1 | split; [exact S2|]]].
    + vm_compute. repeat f_equal; apply Qc_is_canon; reflexivity.
    + rewrite S2. intros H. apply same_eq in H. vm_compute in H.
      discriminate.
  - vm_compute in E. discriminate.
Qed.

Lemma frame_times_bound_witness :
  parse sample = Ok sampleData /\
  (AcmiData.startTime sampleData = hd zero (frameTimes (splitLines sample)) /\
   AcmiData.endTime sampleData =
     fold_left Math_max (frameTimes (splitLines sample)) zero).
Proof.
  split; [exact parse_sample|].
  exact (frame_times_bound sample sampleData parse_sample).
Defined.



(** The scenario of the missing latitude, on a whole line: after the
    sample, the line [A100,T=30.0||1000] leaves the series of [A100] at
    its two states. *)
Example missing_latitude_line :
  match parse (sample ++ NL ++ "A100," ++ missingLatitude) with
  | Ok d =>
      match JsMap.get "A100" (AcmiData.objects d) with
      | Some o => List.length (AcmiObject.states o)
      | None => 0%nat
      end
  | Throw _ => 0%nat
  end = List.length (AcmiObject.states sampleObject).
Proof. vm_compute. reflexivity. Qed.

End ParserExamples.

Section EngineExamples.
Import Simulation Pose Examples Flat.
Local Open Scope string_scope.
Local Open Scope js_scope.

Lemma flat_slerp_endpoints : SlerpEndpoints Flat.platform.
Proof. split; intros q1 q2; reflexivity. Qed.

Lemma sampleWorld_enu (t : number) :
  enuMatrix (engine (sampleWorld t)) = Some (enuOf sampleData).
Proof. reflexivity. Qed.

Lemma sample_first : hd_error (AcmiObject.states sampleObject) = Some firstSample.
Proof. vm_compute. reflexivity. Qed.

Lemma sample_last :
  nth_error (AcmiObject.states sampleObject)
            (Nat.pred (List.length (AcmiObject.states sampleObject)))
  = Some lastSample.
Proof. vm_compute. reflexivity. Qed.

(** Counterexample to C2 as stated.  The first sample of [A100] is at 1 s.  At 0.5 s,
    before it, the pose returned is the inactive one at the local origin,
    not the pose of the first sample. *)
Lemma before_first_sample_inactive :
  hd_error (AcmiObject.states sampleObject) = Some firstSample /\
  (half <? TimeState.time firstSample) = true /\
  getInterpolatedState sampleObject half (sampleWorld half)
  = Ok (inactivePose "A100", sampleWorld half) /\
  InterpolatedState.isActive (heldPose (enuOf sampleData) sampleObject firstSample)
  = true /\
  inactivePose "A100" <> heldPose (enuOf sampleData) sampleObject firstSample.
Proof.
  split; [exact sample_first|].
  split; [vm_compute; reflexivity|].
  split; [apply getInterpolatedState_inactive; vm_compute; reflexivity|].
  split; [reflexivity|].
  intros H. apply (f_equal InterpolatedState.isActive) in H. discriminate.
Qed.

Lemma held_after_last_inactive_before_first_witness :
  ((half <? TimeState.time firstSample) = true /\
   getInterpolatedState lastingObject half (sampleWorld half)
   = Ok (inactivePose "A100", sampleWorld half)) /\
  ((nonDecreasing (AcmiObject.states lastingObject) = true /\
    finiteSample lastSample = true /\
    (TimeState.time lastSample <? ofZ 3) = true /\
    activeAt lastingObject (ofZ 3) = true) /\
   exists w',
     getInterpolatedState lastingObject (ofZ 3) (sampleWorld (ofZ 3))
     = Ok (heldPose (enuOf sampleData) lastingObject lastSample, w')).
Proof.
  assert (B : (half <? TimeState.time firstSample) = true)
    by (vm_compute; reflexivity).
  assert (S : nonDecreasing (AcmiObject.states lastingObject) = true)
    by (vm_compute; reflexivity).
  assert (F : finiteSample lastSample = true) by (vm_compute; reflexivity).
  assert (A : (TimeState.time lastSample <? ofZ 3) = true)
    by (vm_compute; reflexivity).
  assert (Act : activeAt lastingObject (ofZ 3) = true)
    by (vm_compute; reflexivity).
  split.
  - split; [exact B|].
    exact (proj1 (held_after_last_inactive_before_first
                    (L := flat_slerp_endpoints)
                    lastingObject half (sampleWorld half) (enuOf sampleData)
                    firstSample lastSample (sampleWorld_enu half)
                    sample_first sample_last) B).
  - split; [auto|].
    exact (proj2 (held_after_last_inactive_before_first
                    (L := flat_slerp_endpoints)
                    lastingObject (ofZ 3) (sampleWorld (ofZ 3))
                    (enuOf sampleData)
                    firstSample lastSample (sampleWorld_enu (ofZ 3))
                    sample_first sample_last) S F A Act).
Defined.

Lemma sample_in_lifetime : inLifetime sampleObject oneAndHalf.
Proof. apply activeAt_inLifetime. vm_compute. reflexivity. Qed.

Lemma sample_removed : ~ inLifetime sampleObject (ofZ 2).
Proof.
  intros H. apply activeAt_inLifetime in H. vm_compute in H. discriminate.
Qed.

Lemma active_iff_in_lifetime_witness :
  (inLifetime sampleObject oneAndHalf /\
   exists pose w',
     getInterpolatedState sampleObject oneAndHalf (sampleWorld oneAndHalf)
     = Ok (pose, w') /\
     InterpolatedState.isActive pose = true) /\
  (~ inLifetime sampleObject (ofZ 2) /\
   getInterpolatedState sampleObject (ofZ 2) (sampleWorld (ofZ 2))
   = Ok (InterpolatedState.mk "A100" zero zero zero one zero zero zero
                              zero zero zero "gray" false zero zero zero,
         sampleWorld (ofZ 2))).
Proof.
  split.
  - split; [exact sample_in_lifetime|].
    exact (proj1 (active_iff_in_lifetime sampleObject oneAndHalf
                    (sampleWorld oneAndHalf))
                 sample_in_lifetime (enuOf sampleData)
                 (sampleWorld_enu oneAndHalf)).
  - split; [exact sample_removed|].
    exact (proj2 (active_iff_in_lifetime sampleObject (ofZ 2)
                    (sampleWorld (ofZ 2)))
                 sample_removed).
Defined.

Lemma sampleWorld_holds (t : number) :
  holds sampleData (engine (sampleWorld t)).
Proof. split; reflexivity. Qed.

Lemma busyWorld_holds (t : number) : holds sampleData (engine (busyWorld t)).
Proof. split; reflexivity. Qed.

Lemma interpolatedStates_pure_witness :
  holds sampleData (engine (sampleWorld oneAndHalf)) /\
  holds sampleData (engine (busyWorld oneAndHalf)) /\
  time (engine (sampleWorld oneAndHalf)) = time (engine (busyWorld oneAndHalf)) /\
  exists w1' w2' w1'',
    interpolatedStates (sampleWorld oneAndHalf)
    = Ok (posesOf (enuOf sampleData) (AcmiData.objects sampleData)
                  (time (engine (sampleWorld oneAndHalf))) JsMap.empty, w1') /\
    interpolatedStates (busyWorld oneAndHalf)
    = Ok (posesOf (enuOf sampleData) (AcmiData.objects sampleData)
                  (time (engine (sampleWorld oneAndHalf))) JsMap.empty, w2') /\
    engine w1' = engine (sampleWorld oneAndHalf) /\
    engine w2' = engine (busyWorld oneAndHalf) /\
    interpolatedStates w1'
    = Ok (posesOf (enuOf sampleData) (AcmiData.objects sampleData)
                  (time (engine (sampleWorld oneAndHalf))) JsMap.empty, w1'').
Proof.
  split; [apply sampleWorld_holds|].
  split; [apply busyWorld_holds|].
  split; [reflexivity|].
  exact (interpolatedStates_pure sampleData (sampleWorld oneAndHalf)
           (busyWorld oneAndHalf) (sampleWorld_holds oneAndHalf)
           (busyWorld_holds oneAndHalf) eq_refl).
Defined.



Lemma unloaded_noop_seek_clamps_witness :
  (isDataLoaded initialService = false /\
   tick one initialService = initialService /\
   seek one initialService = initialService /\
   play initialService = initialService) /\
  (isDataLoaded reversing = true /\ isNaN (ofZ 12) = false /\
   (zero <=? duration reversing) = true /\
   (duration reversing <? ofZ 12) = true /\
   time (seek (ofZ 12) reversing) = duration reversing).
Proof.
  split.
  - split; [reflexivity|].
    exact (proj1 (unloaded_noop_seek_clamps initialService) eq_refl one one).
  - assert (D : (zero <=? duration reversing) = true)
      by (vm_compute; reflexivity).
    assert (A : (duration reversing <? ofZ 12) = true)
      by (vm_compute; reflexivity).
    split; [reflexivity|]. split; [reflexivity|].
    split; [exact D|]. split; [exact A|].
    destruct (proj2 (unloaded_noop_seek_clamps reversing) eq_refl (ofZ 12))
      as [_ H].
    destruct (H eq_refl D) as (_ & _ & _ & _ & Above).
    exact (Above A).
Defined.


(** In binary64 arithmetic, on finite samples in order: with sample
    times -1 and 1 + 2^-52 and the query at 1, before the second sample,
    both differences round to 2 and the fraction is exactly 1; with the
    coordinates 0.3 and 0.9 the interpolated value is then
    0.9000000000000001, above 0.9. *)
Example binary64_lerp_leaves_bracket :
  PrimFloat.leb (-1) 1 = true /\
  PrimFloat.ltb 1 0x1.0000000000001p+0 = true /\
  Binary64.fraction (-1) 0x1.0000000000001p+0 1 = 1%float /\
  PrimFloat.ltb 0x1.ccccccccccccdp-1
    (Binary64.lerp 0x1.3333333333333p-2 0x1.ccccccccccccdp-1
       (Binary64.fraction (-1) 0x1.0000000000001p+0 1)) = true.
Proof. repeat split; vm_compute; reflexivity. Qed.


(** The scenario of the sample at 1.5 s: the two samples are bracketed,
    the fraction is one half, the longitude 30.015 and the altitude 1000. *)
Example sample_midpoint :
  bracket (AcmiObject.states sampleObject) oneAndHalf
  = Some (firstSample, lastSample) /\
  fraction firstSample lastSample oneAndHalf = half /\
  interpolatedLongitude firstSample lastSample oneAndHalf = parseFloat "30.015" /\
  interpolatedAltitude firstSample lastSample oneAndHalf = ofZ 1000.
Proof.
  split; [vm_compute; reflexivity|].
  repeat split; number_eq.
Qed.

End EngineExamples.

(* ================================================================== *)
(** * More on the parser: tokens and key-value pairs *)
(* ================================================================== *)

Section TokenFacts.
Import JsString Parser.
Local Open Scope string_scope.

Lemma append_empty_r (s : string) : s ++ "" = s.
Proof. induction s as [|c s IH]; simpl; [reflexivity | now rewrite IH]. Qed.

Lemma append_assoc (a b c : string) : (a ++ b) ++ c = a ++ (b ++ c).
Proof. induction a as [|x a IH]; simpl; [reflexivity | now rewrite IH]. Qed.

Lemma str_app (a b : list ascii) : str (a ++ b) = str a ++ str b.
Proof. induction a as [|x a IH]; simpl; [reflexivity | now rewrite IH]. Qed.

Lemma str_chars (s : string) : str (chars s) = s.
Proof. apply string_of_list_ascii_of_string. Qed.

Lemma chars_str (l : list ascii) : chars (str l) = l.
Proof. apply list_ascii_of_string_of_list_ascii. Qed.

Lemma chars_app (a b : string) : chars (a ++ b) = (chars a ++ chars b)%list.
Proof. induction a as [|x a IH]; simpl; [reflexivity | now rewrite IH]. Qed.

Lemma length_chars (s : string) : List.length (chars s) = String.length s.
Proof. induction s as [|c s IH]; simpl; [reflexivity | now rewrite IH]. Qed.

Lemma tokenizeFrom_not_nil (line : list ascii) :
  forall currentToken inQuotes, tokenizeFrom line currentToken inQuotes <> [].
Proof.
  induction line as [|c line IH]; intros cur q; simpl; [discriminate|].
  destruct (Ascii.eqb c "," && _); [discriminate | apply IH].
Qed.

Lemma concat_cons (sep x : string) (l : list string) :
  l <> [] -> String.concat sep (x :: l) = x ++ sep ++ String.concat sep l.
Proof. destruct l; [congruence | reflexivity]. Qed.

Lemma tokenizeFrom_concat (line : list ascii) :
  forall currentToken inQuotes,
    String.concat "," (tokenizeFrom line currentToken inQuotes)
    = currentToken ++ str line.
Proof.
  induction line as [|c line IH]; intros cur q; simpl.
  - now rewrite append_empty_r.
  - destruct (Ascii.eqb c "," && _) eqn:E.
    + apply andb_true_iff in E as [E _]. apply Ascii.eqb_eq in E. subst c.
      rewrite concat_cons by apply tokenizeFrom_not_nil.
      now rewrite IH.
    + rewrite IH, append_assoc. reflexivity.
Qed.

(** X1.  Joining the tokens of a line with commas gives the line back:
    [tokenizeLine] drops and adds no character, whatever the quoting, and
    it returns at least one token. *)
Theorem tokenizeLine_join (line : string) :
  String.concat "," (tokenizeLine line) = line /\ tokenizeLine line <> [].
Proof.
  unfold tokenizeLine. split.
  - rewrite tokenizeFrom_concat. simpl. apply str_chars.
  - apply tokenizeFrom_not_nil.
Qed.

Lemma tokenizeFrom_unquoted (line : list ascii) :
  forall acc,
    existsb (Ascii.eqb quoteChar) line = false ->
    tokenizeFrom line (str (rev acc)) false = splitCharsAcc "," acc line.
Proof.
  induction line as [|c line IH]; intros acc Q; [reflexivity|].
  cbn [existsb] in Q. apply orb_false_iff in Q as [Hq Ql].
  rewrite Ascii.eqb_sym in Hq.
  cbn [tokenizeFrom splitCharsAcc]. rewrite Hq. cbn [negb].
  rewrite andb_true_r, (Ascii.eqb_sym c ",").
  destruct (Ascii.eqb "," c).
  - f_equal. apply (IH [] Ql).
  - rewrite <- (IH (c :: acc) Ql). cbn [rev]. now rewrite str_app.
Qed.

(** X2.  On a line without a double quote [tokenizeLine] is the split at
    every comma, [line.split(',')]. *)
Theorem tokenizeLine_unquoted (line : string) :
  existsb (Ascii.eqb quoteChar) (chars line) = false ->
  tokenizeLine line = splitChar "," line.
Proof. intros Q. apply (tokenizeFrom_unquoted (chars line) [] Q). Qed.

Lemma tokenizeLine_unquoted_witness :
  existsb (Ascii.eqb quoteChar) (chars "A100,T=1|2|3,Name=Test") = false /\
  tokenizeLine "A100,T=1|2|3,Name=Test"
  = splitChar "," "A100,T=1|2|3,Name=Test".
Proof.
  split; [reflexivity|].
  exact (tokenizeLine_unquoted "A100,T=1|2|3,Name=Test" eq_refl).
Defined.

(** ** [splitKeyValue] *)

Lemma length_append (a b : string) :
  String.length (a ++ b) = (String.length a + String.length b)%nat.
Proof. induction a as [|x a IH]; simpl; [reflexivity | now rewrite IH]. Qed.

Lemma substring_0_all (s : string) : String.substring 0 (String.length s) s = s.
Proof. induction s as [|c s IH]; simpl; [reflexivity | now rewrite IH]. Qed.

Lemma substring_0_prefix (a b : string) :
  String.substring 0 (String.length a) (a ++ b) = a.
Proof.
  induction a as [|x a IH]; simpl.
  - now destruct b.
  - now rewrite IH.
Qed.

Lemma substring_skip (a b : string) (n : nat) :
  String.substring (String.length a) n (a ++ b) = String.substring 0 n b.
Proof. induction a as [|x a IH]; simpl; [reflexivity | exact IH]. Qed.

Lemma js_substring_prefix (a b : string) :
  substring (a ++ b) 0 (String.length a) = a.
Proof.
  unfold substring. rewrite length_append.
  replace (Nat.min 0 (String.length a + String.length b)) with 0%nat by lia.
  replace (Nat.min (String.length a) (String.length a + String.length b))
    with (String.length a) by lia.
  rewrite Nat.min_0_l, Nat.max_0_l, Nat.sub_0_r. apply substring_0_prefix.
Qed.

Lemma js_substringFrom_suffix (a b : string) :
  substringFrom (a ++ b) (String.length a) = b.
Proof.
  unfold substringFrom, substring. rewrite length_append.
  rewrite Nat.min_id.
  replace (Nat.min (String.length a) (String.length a + String.length b))
    with (String.length a) by lia.
  replace (Nat.min (String.length a) (String.length a + String.length b))
    with (String.length a) by lia.
  replace (Nat.max (String.length a) (String.length a + String.length b)
           - String.length a)%nat with (String.length b) by lia.
  rewrite substring_skip. apply substring_0_all.
Qed.

Lemma indexOfChar_split (c : ascii) (s : string) :
  forall i, indexOfChar c s = Some i ->
  exists pre post,
    s = pre ++ String c post /\ String.length pre = i /\
    indexOfChar c pre = None.
Proof.
  induction s as [|d s IH]; simpl; intros i H; [discriminate|].
  destruct (Ascii.eqb c d) eqn:E.
  - injection H as <-. apply Ascii.eqb_eq in E. subst d.
    exists "", s. auto.
  - destruct (indexOfChar c s) as [k|]; [|discriminate].
    injection H as <-. destruct (IH k eq_refl) as (pre & post & -> & L & N).
    exists (String d pre), post. simpl. rewrite E, N, L. auto.
Qed.

Lemma startsWith_quote (s : string) :
  startsWith s QUOTE = true -> exists r, s = String quoteChar r.
Proof.
  unfold startsWith. intros H. apply prefix_correct in H.
  destruct s as [|c s]; [discriminate|].
  change (String.length QUOTE) with 1%nat in H. cbn [String.substring] in H.
  exists s. f_equal. unfold QUOTE in H. now injection H.
Qed.

Lemma endsWith_quote (s : string) :
  endsWith s QUOTE = true -> exists r, s = r ++ QUOTE.
Proof.
  unfold endsWith. intros H.
  change (str (rev (chars QUOTE))) with QUOTE in H.
  apply startsWith_quote in H as [r H].
  apply (f_equal chars) in H. rewrite chars_str in H.
  apply (f_equal (@rev ascii)) in H. rewrite rev_involutive in H.
  simpl in H. exists (str (rev (chars r))).
  rewrite <- (str_chars s), H, str_app. reflexivity.
Qed.

(** The value inside a pair of quotes. *)
Lemma unquote_quoted (v : string) :
  substring (QUOTE ++ v ++ QUOTE) 1 (String.length (QUOTE ++ v ++ QUOTE) - 1)
  = v.
Proof.
  unfold substring. rewrite !length_append. simpl String.length.
  replace (Nat.min 1 (1 + (String.length v + 1))) with 1%nat by lia.
  replace (Nat.min (1 + (String.length v + 1) - 1)
                   (1 + (String.length v + 1)))
    with (S (String.length v)) by lia.
  replace (Nat.min 1 (S (String.length v))) with 1%nat by lia.
  replace (Nat.max 1 (S (String.length v)) - 1)%nat
    with (String.length v) by lia.
  change (QUOTE ++ v ++ QUOTE) with (String quoteChar (v ++ QUOTE)).
  simpl. apply substring_0_prefix.
Qed.

Lemma startsWith_quoted (r : string) :
  startsWith (String quoteChar r) QUOTE = true.
Proof.
  unfold startsWith. apply prefix_correct.
  change (String.length QUOTE) with 1%nat. cbn [String.substring].
  now destruct r.
Qed.

Lemma endsWith_quoted (x : string) : endsWith (x ++ QUOTE) QUOTE = true.
Proof.
  unfold endsWith. change (str (rev (chars QUOTE))) with QUOTE.
  rewrite chars_app, rev_app_distr.
  change (rev (chars QUOTE)) with [quoteChar]. simpl.
  apply startsWith_quoted.
Qed.

(** X3.  [splitKeyValue] cuts a token at its first [=]: the key holds no
    [=]; a token without [=] is the key, with the empty value; otherwise
    the token is the key, [=] and a rest, and the value is that rest with
    its double quotes taken off when it is wrapped in a pair of them, the
    rest itself when it is not. *)
Theorem splitKeyValue_reassembles (pair : string) :
  let key := fst (splitKeyValue pair) in
  let value := snd (splitKeyValue pair) in
  indexOfChar "=" key = None /\
  (indexOfChar "=" pair = None -> key = pair /\ value = "") /\
  (indexOfChar "=" pair <> None ->
   exists rest,
     pair = key ++ "=" ++ rest /\
     ((exists inner, rest = QUOTE ++ inner ++ QUOTE /\ value = inner) \/
      ((forall inner, rest <> QUOTE ++ inner ++ QUOTE) /\ value = rest))).
Proof.
  unfold splitKeyValue.
  destruct (indexOfChar "=" pair) as [i|] eqn:E; simpl.
  - destruct (indexOfChar_split "=" pair i E) as (pre & post & -> & L & N).
    subst i. rewrite js_substring_prefix.
    replace (String.length pre + 1)%nat
      with (String.length (pre ++ "=")) by (rewrite length_append; reflexivity).
    change (pre ++ String "=" post) with (pre ++ ("=" ++ post)).
    rewrite <- append_assoc, js_substringFrom_suffix.
    split; [exact N|]. split; [discriminate|]. intros _.
    rewrite append_assoc. exists post. split; [reflexivity|].
    destruct (startsWith post QUOTE && endsWith post QUOTE) eqn:Q.
    + apply andb_true_iff in Q as [Q1 Q2].
      apply startsWith_quote in Q1 as [r Hr].
      apply endsWith_quote in Q2 as [r' Hr'].
      destruct r as [|c r].
      * right. subst post. split; [|reflexivity].
        intros inner H. destruct inner; discriminate.
      * left. destruct r' as [|c' r'].
        { rewrite Hr' in Hr. discriminate. }
        assert (c' = quoteChar) by (rewrite Hr' in Hr; now injection Hr).
        subst c'.
        assert (Hp : post = QUOTE ++ r' ++ QUOTE) by exact Hr'.
        clear Hr Hr' E. subst post. exists r'.
        split; [reflexivity | apply unquote_quoted].
    + right. split; [|reflexivity]. intros inner H.
      pose proof (startsWith_quoted (inner ++ QUOTE)) as A.
      pose proof (endsWith_quoted (QUOTE ++ inner)) as B.
      change ((QUOTE ++ inner) ++ QUOTE)
        with (String quoteChar (inner ++ QUOTE)) in B.
      rewrite <- H in A, B. rewrite A, B in Q. discriminate.
  - rewrite E. split; [reflexivity|]. split; [auto|]. congruence.
Qed.

Lemma splitKeyValue_reassembles_witness :
  (indexOfChar "=" "Visible" = None /\
   fst (splitKeyValue "Visible") = "Visible" /\
   snd (splitKeyValue "Visible") = "") /\
  (indexOfChar "=" ("Name=" ++ QUOTE ++ "a,b" ++ QUOTE) <> None /\
   snd (splitKeyValue ("Name=" ++ QUOTE ++ "a,b" ++ QUOTE)) = "a,b" /\
   exists rest,
     "Name=" ++ QUOTE ++ "a,b" ++ QUOTE
     = fst (splitKeyValue ("Name=" ++ QUOTE ++ "a,b" ++ QUOTE)) ++ "=" ++ rest
     /\
     ((exists inner,
         rest = QUOTE ++ inner ++ QUOTE /\
         snd (splitKeyValue ("Name=" ++ QUOTE ++ "a,b" ++ QUOTE)) = inner) \/
      ((forall inner, rest <> QUOTE ++ inner ++ QUOTE) /\
       snd (splitKeyValue ("Name=" ++ QUOTE ++ "a,b" ++ QUOTE)) = rest))).
Proof.
  split.
  - split; [reflexivity|].
    exact (proj1 (proj2 (splitKeyValue_reassembles "Visible")) eq_refl).
  - assert (H : indexOfChar "=" ("Name=" ++ QUOTE ++ "a,b" ++ QUOTE) <> None)
      by discriminate.
    split; [exact H|]. split; [reflexivity|].
    exact (proj2 (proj2 (splitKeyValue_reassembles
                           ("Name=" ++ QUOTE ++ "a,b" ++ QUOTE))) H).
Defined.

End TokenFacts.

(* ================================================================== *)
(** * More on the parser: the objects *)
(* ================================================================== *)

Section MapFacts.
Context {V : Type}.

Lemma JsMap_get_set_same (k : string) (v : V) (m : JsMap.t V) :
  JsMap.get k (JsMap.set k v m) = Some v.
Proof.
  induction m as [|[k' v'] m IH]; simpl.
  - now rewrite String.eqb_refl.
  - destruct (String.eqb k k') eqn:E; simpl; rewrite ?E, ?String.eqb_refl; auto.
Qed.

Lemma JsMap_get_set_other (k k' : string) (v : V) (m : JsMap.t V) :
  k' <> k -> JsMap.get k' (JsMap.set k v m) = JsMap.get k' m.
Proof.
  intros N. induction m as [|[k0 v0] m IH]; simpl.
  - apply String.eqb_neq in N. now rewrite N.
  - destruct (String.eqb k k0) eqn:E; simpl.
    + apply String.eqb_eq in E. subst k0.
      apply String.eqb_neq in N. now rewrite N.
    + destruct (String.eqb k' k0); auto.
Qed.

Lemma JsMap_get_In (k : string) (v : V) (m : JsMap.t V) :
  JsMap.get k m = Some v -> In (k, v) m.
Proof.
  induction m as [|[k' v'] m IH]; simpl; [discriminate|].
  destruct (String.eqb k k') eqn:E.
  - apply String.eqb_eq in E. subst k'. intros H. injection H as ->. auto.
  - auto.
Qed.

Lemma JsMap_get_None (k : string) (m : JsMap.t V) :
  JsMap.get k m = None <-> ~ In k (JsMap.keys m).
Proof.
  induction m as [|[k' v'] m IH]; simpl.
  - tauto.
  - destruct (String.eqb k k') eqn:E.
    + apply String.eqb_eq in E. subst k'. split; [discriminate | tauto].
    + apply String.eqb_neq in E. rewrite IH. split.
      * intros H [H1 | H1]; [congruence | contradiction].
      * tauto.
Qed.

(** [set] on a key that is there keeps the keys and their order; on a
    new key it adds the key at the end. *)
Lemma JsMap_keys_set (k : string) (v : V) (m : JsMap.t V) :
  JsMap.keys (JsMap.set k v m) =
  match JsMap.get k m with
  | Some _ => JsMap.keys m
  | None => (JsMap.keys m ++ [k])%list
  end.
Proof.
  induction m as [|[k' v'] m IH]; simpl; [reflexivity|].
  destruct (String.eqb k k') eqn:E; simpl.
  - apply String.eqb_eq in E. now subst k'.
  - rewrite IH. now destruct (JsMap.get k m).
Qed.

Lemma JsMap_set_NoDup (k : string) (v : V) (m : JsMap.t V) :
  NoDup (JsMap.keys m) -> NoDup (JsMap.keys (JsMap.set k v m)).
Proof.
  intros N. rewrite JsMap_keys_set. destruct (JsMap.get k m) eqn:G; [exact N|].
  apply JsMap_get_None in G. revert N G. generalize (JsMap.keys m).
  intros l. induction l as [|x l IH]; simpl; intros N G.
  - repeat constructor. simpl. tauto.
  - inversion N as [|? ? Nx Nl]; subst. constructor.
    + rewrite in_app_iff. simpl. intros [H | [H | []]]; [tauto|].
      subst. tauto.
    + apply IH; tauto.
Qed.

Lemma JsMap_In_set (k : string) (v : V) (m : JsMap.t V) (e : string * V) :
  In e (JsMap.set k v m) -> e = (k, v) \/ In e m.
Proof.
  induction m as [|[k' v'] m IH]; simpl.
  - intros [H | []]. now left.
  - destruct (String.eqb k k'); simpl; intros [H | H]; auto.
    destruct (IH H); auto.
Qed.

End MapFacts.

Section ObjectFacts.
Import JsString Parser Input Recording.
Local Open Scope string_scope.

(** What one token does to an object: the id and the removal mark stay,
    the series grows by samples taken at the current time. *)
Lemma processPart_shape (ct : number) (obj : AcmiObject.t) (part : string) :
  let obj' := processPart ct obj part in
  AcmiObject.id obj' = AcmiObject.id obj /\
  AcmiObject.removedAtTime obj' = AcmiObject.removedAtTime obj /\
  exists news,
    AcmiObject.states obj' = (AcmiObject.states obj ++ news)%list /\
    Forall (fun s => TimeState.time s = ct) news.
Proof.
  unfold processPart. destruct (splitKeyValue part) as [key value].
  destruct (isEmpty key).
  { simpl. repeat split. exists []. now rewrite app_nil_r. }
  destruct (String.eqb key "T").
  - unfold updatePosition.
    destruct (element 0 _); [|simpl; repeat split; exists [];
                               now rewrite app_nil_r].
    destruct (element 1 _); [|simpl; repeat split; exists [];
                               now rewrite app_nil_r].
    destruct (element 2 _); [|simpl; repeat split; exists [];
                               now rewrite app_nil_r].
    simpl. repeat split. eexists. split; [reflexivity|].
    repeat constructor.
  - simpl. repeat split. exists []. now rewrite app_nil_r.
Qed.

Lemma fold_processPart_shape (ct : number) (parts : list string) :
  forall obj,
    let obj' := fold_left (processPart ct) parts obj in
    AcmiObject.id obj' = AcmiObject.id obj /\
    AcmiObject.removedAtTime obj' = AcmiObject.removedAtTime obj /\
    exists news,
      AcmiObject.states obj' = (AcmiObject.states obj ++ news)%list /\
      Forall (fun s => TimeState.time s = ct) news.
Proof.
  induction parts as [|part parts IH]; intros obj; simpl.
  - repeat split. exists []. now rewrite app_nil_r.
  - destruct (processPart_shape ct obj part) as (I & R & n1 & S1 & F1).
    destruct (IH (processPart ct obj part)) as (I' & R' & n2 & S2 & F2).
    simpl in *. rewrite I', R', S2, S1, I, R. repeat split.
    exists (n1 ++ n2)%list. rewrite app_assoc. split; [reflexivity|].
    apply Forall_app. auto.
Qed.

(** X4.  A token whose key is not empty and not [T] stores its value as
    a property: afterwards the key reads that value, whatever it read
    before; every other property, the series, the id and the removal
    mark are as they were.  A token with an empty key changes nothing. *)
Theorem property_token_stored (ct : number) (obj : AcmiObject.t)
        (part : string) :
  let key := fst (splitKeyValue part) in
  let value := snd (splitKeyValue part) in
  let obj' := processPart ct obj part in
  (key <> "" -> key <> "T" ->
   JsMap.get key (AcmiObject.properties obj') = Some value /\
   (forall k, k <> key ->
      JsMap.get k (AcmiObject.properties obj')
      = JsMap.get k (AcmiObject.properties obj)) /\
   AcmiObject.states obj' = AcmiObject.states obj /\
   AcmiObject.id obj' = AcmiObject.id obj /\
   AcmiObject.removedAtTime obj' = AcmiObject.removedAtTime obj) /\
  (key = "" -> obj' = obj).
Proof.
  unfold processPart. destruct (splitKeyValue part) as [key value]. simpl.
  split.
  - intros N T.
    assert (E : isEmpty key = false)
      by (destruct key; [now elim N | reflexivity]).
    apply String.eqb_neq in T. rewrite E, T. simpl.
    split; [apply JsMap_get_set_same|].
    split; [|auto]. intros k Hk. now apply JsMap_get_set_other.
  - intros ->. reflexivity.
Qed.

Lemma property_token_stored_witness :
  (fst (splitKeyValue "Color=Blue") <> "" /\
   fst (splitKeyValue "Color=Blue") <> "T" /\
   JsMap.get "Color"
     (AcmiObject.properties (processPart one Examples.sampleObject "Color=Blue"))
   = Some "Blue") /\
  (fst (splitKeyValue "=Blue") = "" /\
   processPart one Examples.sampleObject "=Blue" = Examples.sampleObject).
Proof.
  split.
  - assert (A : fst (splitKeyValue "Color=Blue") <> "") by discriminate.
    assert (B : fst (splitKeyValue "Color=Blue") <> "T") by discriminate.
    split; [exact A|]. split; [exact B|].
    exact (proj1 (proj1 (property_token_stored one Examples.sampleObject
                           "Color=Blue") A B)).
  - split; [reflexivity|].
    exact (proj2 (property_token_stored one Examples.sampleObject "=Blue")
                 eq_refl).
Defined.

(** ** The steps of the loop *)

(** After the header, a significant line that is no frame marker is a
    header line before the first frame marker and a data line after it. *)
Lemma processLine_step (l : locals) (line : string) :
  significant (trim line) = true -> fileTypeValidated l = true ->
  isFrameMarker (trim line) = false ->
  (inHeader l = true /\
   exists key value, processLine l line = Ok (processHeader key value l)) \/
  (inHeader l = false /\
   exists l', processLine l line = Ok l' /\ dataStep l l').
Proof.
  unfold significant, processLine, isFrameMarker. intros H V F.
  apply negb_true_iff in H. rewrite H, V, F. simpl.
  destruct (inHeader l).
  - left. split; [reflexivity|].
    destruct (splitKeyValue (trim line)) as [key value]. eauto.
  - right. split; [reflexivity|].
    destruct (startsWith (trim line) "-").
    + destruct (JsMap.get (substringFrom (trim line) 1) (objects l))
        as [obj|] eqn:G.
      * eexists. split; [reflexivity|]. now apply data_removed.
      * eexists. split; [reflexivity|]. apply data_unchanged.
    + destruct (tokenizeLine (trim line)) as [|id rest].
      * eexists. split; [reflexivity|]. apply data_unchanged.
      * eexists. split; [reflexivity|]. apply data_updated.
Qed.

Lemma framesOf_cons (line : string) (lines : list string) :
  framesOf (line :: lines) = (framesOf [line] ++ framesOf lines)%list.
Proof.
  unfold framesOf. rewrite !significantLines_cons.
  destruct (significant (trim line)); simpl; [|reflexivity].
  destruct (isFrameMarker (trim line)); reflexivity.
Qed.

Lemma processHeader_keeps (key value : string) (l : locals) :
  let l' := processHeader key value l in
  fileTypeValidated l' = fileTypeValidated l /\
  inHeader l' = inHeader l /\ objects l' = objects l /\
  currentTime l' = currentTime l.
Proof.
  unfold processHeader.
  repeat match goal with |- context [if ?b then _ else _] => destruct b end;
    simpl; auto.
Qed.

Lemma dataStep_keeps (l l' : locals) :
  dataStep l l' ->
  fileTypeValidated l' = fileTypeValidated l /\
  inHeader l' = inHeader l /\ currentTime l' = currentTime l /\
  headerFields l' = headerFields l.
Proof. intros [|id obj G|id rest]; simpl; auto. Qed.

(** Induction over the loop after the header: a property of the local
    variables and of the frame times seen so far that every kind of step
    keeps holds when the loop is over. *)
Lemma processLines_induction (Inv : locals -> list number -> Prop) :
  (forall l F t, Inv l F -> Inv (enterFrame t l) (F ++ [t])%list) ->
  (forall l F key value,
     inHeader l = true -> Inv l F -> Inv (processHeader key value l) F) ->
  (forall l F l',
     inHeader l = false -> dataStep l l' -> Inv l F -> Inv l' F) ->
  forall lines l F l',
    fileTypeValidated l = true -> Inv l F ->
    processLines l lines = Ok l' ->
    Inv l' (F ++ framesOf lines)%list.
Proof.
  intros Hf Hh Hd. induction lines as [|line lines IH]; intros l F l' V I R.
  - simpl in R. injection R as <-. unfold framesOf. simpl.
    now rewrite app_nil_r.
  - rewrite framesOf_cons, app_assoc. simpl in R.
    unfold framesOf at 1. rewrite significantLines_cons.
    destruct (significant (trim line)) eqn:S.
    + simpl. destruct (isFrameMarker (trim line)) eqn:Fm.
      * rewrite (processLine_frame l line S V Fm) in R. simpl.
        apply (IH (enterFrame (frameTime (trim line)) l)); auto.
      * simpl. rewrite app_nil_r.
        destruct (processLine_step l line S V Fm)
          as [(Ih & key & value & E) | (Ih & l1 & E & D)];
          rewrite E in R.
        -- apply (IH (processHeader key value l)); auto.
           destruct (processHeader_keeps key value l) as (A & _).
           simpl in A. now rewrite A.
        -- apply (IH l1); eauto.
           destruct (dataStep_keeps l l1 D) as (A & _). now rewrite A.
    + simpl. rewrite app_nil_r.
      rewrite (processLine_skip l line S) in R. now apply (IH l).
Qed.

(** The same for [parse]: what holds of the initial variables and is kept
    by every step holds of the variables the dataset is made from. *)
Lemma parse_induction (Inv : locals -> list number -> Prop) :
  (forall l F t, Inv l F -> Inv (enterFrame t l) (F ++ [t])%list) ->
  (forall l F key value,
     inHeader l = true -> Inv l F -> Inv (processHeader key value l) F) ->
  (forall l F l',
     inHeader l = false -> dataStep l l' -> Inv l F -> Inv l' F) ->
  Inv initial [] -> Inv (set_fileTypeValidated true initial) [] ->
  forall fileContent d,
    parse fileContent = Ok d ->
    exists l, d = finish l /\ Inv l (frameTimes (splitLines fileContent)).
Proof.
  intros Hf Hh Hd I0 I1 fileContent d. unfold parse, frameTimes.
  pose proof (processLines_unvalidated (splitLines fileContent) initial
                eq_refl) as H.
  destruct (significantLines (splitLines fileContent)) as [|h rest]; simpl.
  - rewrite H. intros E. injection E as <-. exists initial. auto.
  - destruct (String.eqb h FILE_TYPE) eqn:E.
    + destruct H as (lines' & R & Sg). rewrite R.
      destruct (processLines _ lines') as [l'|m] eqn:R'; [|discriminate].
      intros D. injection D as <-. exists l'. split; [reflexivity|].
      pose proof (processLines_induction Inv Hf Hh Hd lines'
                    (set_fileTypeValidated true initial) [] l'
                    eq_refl I1 R') as X.
      simpl in X. unfold framesOf in X. now rewrite Sg in X.
    + rewrite H. discriminate.
Qed.

(** ** The objects of a dataset *)

Lemma objectFor_id (id : string) (objects : JsMap.t AcmiObject.t) :
  filedUnderId objects -> AcmiObject.id (objectFor id objects) = id.
Proof.
  unfold objectFor, filedUnderId. intros W.
  destruct (JsMap.get id objects) as [obj|] eqn:G; [|reflexivity].
  apply JsMap_get_In in G. rewrite Forall_forall in W. apply (W _ G).
Qed.

Lemma filedUnderId_set (id : string) (obj : AcmiObject.t)
      (objects : JsMap.t AcmiObject.t) :
  AcmiObject.id obj = id -> filedUnderId objects ->
  filedUnderId (JsMap.set id obj objects).
Proof.
  unfold filedUnderId. rewrite !Forall_forall. intros I W e He.
  apply JsMap_In_set in He as [-> | He]; [exact I | now apply W].
Qed.

Lemma onePerId_dataStep (l l' : locals) :
  dataStep l l' -> onePerId (objects l) -> onePerId (objects l').
Proof.
  intros D [W N]. destruct D as [|id obj G|id rest]; simpl.
  - split; assumption.
  - split; [|now apply JsMap_set_NoDup].
    apply filedUnderId_set; [|exact W]. simpl.
    apply JsMap_get_In in G. unfold filedUnderId in W.
    rewrite Forall_forall in W. apply (W _ G).
  - split; [|now apply JsMap_set_NoDup].
    apply filedUnderId_set; [|exact W].
    destruct (fold_processPart_shape (currentTime l) rest
                (objectFor id (objects l))) as (I & _).
    simpl in I. rewrite I. now apply objectFor_id.
Qed.

Lemma parse_onePerId (fileContent : string) (d : AcmiData.t) :
  parse fileContent = Ok d -> onePerId (AcmiData.objects d).
Proof.
  intros E.
  destruct (parse_induction (fun l _ => onePerId (objects l)))
    with (fileContent := fileContent) (d := d) as (l & -> & I); auto.
  - intros l F key value _ I.
    destruct (processHeader_keeps key value l) as (_ & _ & O & _).
    simpl in O. now rewrite O.
  - intros l F l' _ D I. now apply (onePerId_dataStep l l').
  - split; constructor.
  - split; constructor.
Qed.

(** X5.  In the dataset [parse] returns every object is filed under its
    own id and no id occurs twice: update lines with the same id end up
    in one object. *)
Theorem parsed_objects_filed (fileContent : string) (d : AcmiData.t) :
  parse fileContent = Ok d ->
  filedUnderId (AcmiData.objects d) /\
  NoDup (JsMap.keys (AcmiData.objects d)).
Proof.
  intros E. destruct (parse_onePerId fileContent d E) as [W N].
  split.
  - exact W.
  - exact N.
Qed.

Lemma parsed_objects_filed_witness :
  parse sample = Ok Examples.sampleData /\
  (filedUnderId (AcmiData.objects Examples.sampleData) /\
   NoDup (JsMap.keys (AcmiData.objects Examples.sampleData))).
Proof.
  split; [exact parse_sample|].
  exact (parsed_objects_filed sample Examples.sampleData parse_sample).
Defined.

Lemma objectFor_states (id : string) (objects : JsMap.t AcmiObject.t)
      (s : TimeState.t) :
  In s (AcmiObject.states (objectFor id objects)) ->
  exists e, In e objects /\ In s (AcmiObject.states (snd e)).
Proof.
  unfold objectFor. destruct (JsMap.get id objects) as [obj|] eqn:G.
  - intros H. apply JsMap_get_In in G. exists (id, obj). auto.
  - intros [].
Qed.

Lemma timesFromFrames_frame (l : locals) (F : list number) (t : number) :
  timesFromFrames l F -> timesFromFrames (enterFrame t l) (F ++ [t])%list.
Proof.
  intros (_ & _ & S). split; [discriminate|]. split.
  - intros _. simpl. apply in_or_app. simpl. auto.
  - simpl. intros e He t0 Ht. apply in_or_app. left. eapply S; eassumption.
Qed.

Lemma timesFromFrames_header (l : locals) (F : list number)
      (key value : string) :
  inHeader l = true -> timesFromFrames l F ->
  timesFromFrames (processHeader key value l) F.
Proof.
  intros Ih (H & _ & S).
  destruct (processHeader_keeps key value l) as (_ & Ih' & O & _).
  simpl in Ih', O. unfold timesFromFrames. rewrite Ih', O, Ih.
  split; [auto|]. split; [discriminate | exact S].
Qed.

Lemma timesFromFrames_data (l l' : locals) (F : list number) :
  inHeader l = false -> dataStep l l' -> timesFromFrames l F ->
  timesFromFrames l' F.
Proof.
  intros Ih D (_ & C & S). specialize (C Ih).
  destruct (dataStep_keeps l l' D) as (_ & Ih' & Ct & _).
  unfold timesFromFrames. rewrite Ih', Ct, Ih.
  split; [discriminate|]. split; [auto|].
  destruct D as [|id obj G|id rest]; simpl.
  - exact S.
  - intros e He t Ht. apply JsMap_In_set in He as [-> | He].
    + apply JsMap_get_In in G. apply (S _ G). exact Ht.
    + apply (S _ He). exact Ht.
  - intros e He t Ht. apply JsMap_In_set in He as [-> | He].
    + simpl in Ht. unfold sampleTimes in Ht.
      destruct (fold_processPart_shape (currentTime l) rest
                  (objectFor id (objects l))) as (_ & _ & news & E & N).
      simpl in E. rewrite E, map_app in Ht.
      apply in_app_or in Ht as [Ht | Ht].
      * apply in_map_iff in Ht as (s0 & <- & Hs).
        apply objectFor_states in Hs as (e & He & Hs).
        apply (S _ He). unfold sampleTimes. now apply in_map.
      * apply in_map_iff in Ht as (s0 & <- & Hs).
        rewrite Forall_forall in N. now rewrite (N _ Hs).
    + apply (S _ He). exact Ht.
Qed.

Lemma parse_timesFromFrames (fileContent : string) (d : AcmiData.t) :
  parse fileContent = Ok d ->
  exists l, d = finish l /\
            timesFromFrames l (frameTimes (splitLines fileContent)).
Proof.
  apply (parse_induction timesFromFrames timesFromFrames_frame
           timesFromFrames_header).
  - intros l F l'. apply timesFromFrames_data.
  - repeat split; auto; try discriminate; intros e [].
  - repeat split; auto; try discriminate; intros e [].
Qed.

(** X6.  Every sample of a parsed dataset carries the time of a frame
    marker of the input. *)
Theorem sample_times_are_frame_times (fileContent : string) (d : AcmiData.t) :
  parse fileContent = Ok d ->
  forall id obj s,
    In (id, obj) (AcmiData.objects d) ->
    In s (AcmiObject.states obj) ->
    In (TimeState.time s) (frameTimes (splitLines fileContent)).
Proof.
  intros E id obj s Ho Hs.
  destruct (parse_timesFromFrames fileContent d E) as (l & -> & _ & _ & S).
  apply (S (id, obj) Ho). unfold sampleTimes. now apply in_map.
Qed.

(** X7.  Objects come into being only after a frame marker: the lines
    before the first frame marker are read as header lines, so an input
    without any frame marker gives a dataset without objects. *)
Theorem no_frame_no_object (fileContent : string) (d : AcmiData.t) :
  parse fileContent = Ok d ->
  frameTimes (splitLines fileContent) = [] ->
  AcmiData.objects d = [].
Proof.
  intros E N.
  destruct (parse_timesFromFrames fileContent d E) as (l & -> & H & C & _).
  rewrite N in *. simpl. destruct (inHeader l).
  - now apply H.
  - destruct (C eq_refl).
Qed.

Lemma sample_times_are_frame_times_witness :
  parse sample = Ok Examples.sampleData /\
  In ("A100", Examples.sampleObject) (AcmiData.objects Examples.sampleData) /\
  In Examples.lastSample (AcmiObject.states Examples.sampleObject) /\
  In (TimeState.time Examples.lastSample) (frameTimes (splitLines sample)).
Proof.
  assert (A : In ("A100", Examples.sampleObject)
                 (AcmiData.objects Examples.sampleData))
    by (vm_compute; auto).
  assert (B : In Examples.lastSample (AcmiObject.states Examples.sampleObject))
    by (vm_compute; auto).
  split; [exact parse_sample|]. split; [exact A|]. split; [exact B|].
  exact (sample_times_are_frame_times sample Examples.sampleData parse_sample
           "A100" Examples.sampleObject Examples.lastSample A B).
Defined.

Lemma no_frame_no_object_witness :
  parse (joinLines [FILE_TYPE; "A100,T=1|2|3,Name=Test"; "B,Name=Other"])
  = Ok Examples.emptyData /\
  frameTimes (splitLines
                (joinLines [FILE_TYPE; "A100,T=1|2|3,Name=Test";
                            "B,Name=Other"])) = [] /\
  AcmiData.objects Examples.emptyData = [].
Proof.
  assert (E : parse (joinLines [FILE_TYPE; "A100,T=1|2|3,Name=Test";
                                "B,Name=Other"]) = Ok Examples.emptyData)
    by (vm_compute; reflexivity).
  split; [exact E|]. split; [reflexivity|].
  exact (no_frame_no_object _ Examples.emptyData E eq_refl).
Defined.

(** ** The order of the samples *)

Lemma ascending_snoc (F : list number) (t : number) :
  ascending (F ++ [t]) = true ->
  ascending F = true /\ isNaN t = false /\
  forall x, In x F -> (x <=? t)%js = true.
Proof.
  induction F as [|x F IH]; intros A.
  - simpl in A. apply negb_true_iff in A.
    split; [reflexivity|]. split; [exact A | intros x []].
  - destruct F as [|y F].
    + simpl in A. apply andb_true_iff in A as [L N].
      apply negb_true_iff in N. destruct (leb_not_NaN _ _ L) as [Nx _].
      simpl. rewrite Nx. split; [reflexivity|]. split; [exact N|].
      intros z [<- | []]. exact L.
    + change (ascending ((x :: y :: F) ++ [t]))
        with ((x <=? y)%js && ascending ((y :: F) ++ [t])) in A.
      apply andb_true_iff in A as [L A].
      destruct (IH A) as (A' & N & B).
      change (ascending (x :: y :: F)) with ((x <=? y)%js && ascending (y :: F)).
      rewrite L, A'. split; [reflexivity|]. split; [exact N|].
      intros z [<- | Hz]; [|now apply B].
      apply leb_trans with y; [exact L | apply B; simpl; auto].
Qed.

Lemma ascending_not_NaN (F : list number) :
  ascending F = true -> forall x, In x F -> isNaN x = false.
Proof.
  induction F as [|x F IH]; intros A z Hz; [destruct Hz|].
  destruct F as [|y F].
  - simpl in A. apply negb_true_iff in A. now destruct Hz as [<- | []].
  - change (ascending (x :: y :: F))
      with ((x <=? y)%js && ascending (y :: F)) in A.
    apply andb_true_iff in A as [L A]. destruct Hz as [<- | Hz].
    + now destruct (leb_not_NaN _ _ L).
    + now apply IH.
Qed.

Lemma nonDecreasing_snoc (old : list TimeState.t) (x : TimeState.t) :
  Pose.nonDecreasing old = true ->
  (forall s, In s old -> (TimeState.time s <=? TimeState.time x)%js = true) ->
  Pose.nonDecreasing (old ++ [x]) = true.
Proof.
  induction old as [|a old IH]; intros N B; [reflexivity|].
  destruct old as [|b old].
  - simpl. rewrite (B a); simpl; auto.
  - change (Pose.nonDecreasing (a :: b :: old))
      with ((TimeState.time a <=? TimeState.time b)%js
            && Pose.nonDecreasing (b :: old)) in N.
    apply andb_true_iff in N as [L N].
    change (Pose.nonDecreasing ((a :: b :: old) ++ [x]))
      with ((TimeState.time a <=? TimeState.time b)%js
            && Pose.nonDecreasing ((b :: old) ++ [x])).
    rewrite L. simpl andb. apply IH; [exact N|].
    intros s Hs. apply B. now right.
Qed.

(** Samples taken at the current time can be appended to a series in
    order that ends no later than the current time. *)
Lemma nonDecreasing_app_now (ct : number) (news : list TimeState.t) :
  isNaN ct = false ->
  Forall (fun s => TimeState.time s = ct) news ->
  forall old,
    Pose.nonDecreasing old = true ->
    (forall s, In s old -> (TimeState.time s <=? ct)%js = true) ->
    Pose.nonDecreasing (old ++ news) = true /\
    forall s, In s (old ++ news) -> (TimeState.time s <=? ct)%js = true.
Proof.
  intros Nct. induction news as [|n news IH]; intros Fn old N B.
  - rewrite app_nil_r. auto.
  - inversion Fn as [|? ? Hn Fn']; subst.
    replace (old ++ n :: news)%list with ((old ++ [n]) ++ news)%list
      by (rewrite <- app_assoc; reflexivity).
    apply IH; [exact Fn' | |].
    + apply nonDecreasing_snoc; [exact N|]. intros s Hs. now apply B.
    + intros s Hs. apply in_app_or in Hs as [Hs | [<- | []]]; [now apply B|].
      now apply leb_refl.
Qed.

Lemma seriesInOrder_frame (l : locals) (F : list number) (t : number) :
  timesFromFrames l F -> seriesInOrder l F ->
  seriesInOrder (enterFrame t l) (F ++ [t])%list.
Proof.
  intros (_ & _ & S) O A e He.
  destruct (ascending_snoc F t A) as (A' & _ & B).
  simpl in He. destruct (O A' e He) as [N _]. split; [exact N|].
  intros t0 Ht. simpl. apply B. eapply S; eassumption.
Qed.

Lemma seriesInOrder_header (l : locals) (F : list number)
      (key value : string) :
  seriesInOrder l F -> seriesInOrder (processHeader key value l) F.
Proof.
  intros O A e He.
  destruct (processHeader_keeps key value l) as (_ & _ & Ob & Ct).
  simpl in Ob, Ct. rewrite Ob in He. rewrite Ct. now apply O.
Qed.

Lemma seriesInOrder_data (l l' : locals) (F : list number) :
  inHeader l = false -> dataStep l l' ->
  timesFromFrames l F -> seriesInOrder l F -> seriesInOrder l' F.
Proof.
  intros Ih D (_ & C & _) O A. specialize (C Ih).
  pose proof (ascending_not_NaN F A _ C) as Nct.
  destruct (dataStep_keeps l l' D) as (_ & _ & Ct & _). rewrite Ct.
  destruct D as [|id obj G|id rest]; simpl; intros e He.
  - now apply O.
  - apply JsMap_In_set in He as [-> | He]; [|now apply O].
    apply JsMap_get_In in G. apply (O A _ G).
  - apply JsMap_In_set in He as [-> | He]; [|now apply O].
    unfold sampleTimes. simpl.
    destruct (fold_processPart_shape (currentTime l) rest
                (objectFor id (objects l))) as (_ & _ & news & E & N).
    simpl in E. rewrite E.
    assert (Old : Pose.nonDecreasing
                    (AcmiObject.states (objectFor id (objects l))) = true /\
                  forall s, In s (AcmiObject.states (objectFor id (objects l)))
                            -> (TimeState.time s <=? currentTime l)%js = true).
    { unfold objectFor.
      destruct (JsMap.get id (objects l)) as [obj|] eqn:G.
      - apply JsMap_get_In in G. destruct (O A _ G) as [N1 B1].
        split; [exact N1|]. intros s Hs. apply B1. unfold sampleTimes.
        now apply in_map.
      - split; [reflexivity | intros s []]. }
    destruct Old as [N1 B1].
    destruct (nonDecreasing_app_now (currentTime l) news Nct N _ N1 B1)
      as [N2 B2].
    split; [exact N2|]. intros t Ht.
    apply in_map_iff in Ht as (s & <- & Hs). now apply B2.
Qed.

(** X8.  When the frame times of the input are numbers in non-decreasing
    order, the series of every parsed object is in non-decreasing time
    order: the parser appends and never sorts, and this is what the
    interpolation of the engine relies on. *)
Theorem parsed_series_in_order (fileContent : string) (d : AcmiData.t) :
  parse fileContent = Ok d ->
  ascending (frameTimes (splitLines fileContent)) = true ->
  forall id obj,
    In (id, obj) (AcmiData.objects d) ->
    Pose.nonDecreasing (AcmiObject.states obj) = true.
Proof.
  intros E A id obj Ho.
  destruct (parse_induction
              (fun l F => timesFromFrames l F /\ seriesInOrder l F))
    with (fileContent := fileContent) (d := d) as (l & -> & _ & O); auto.
  - intros l F t [T O]. split.
    + now apply timesFromFrames_frame.
    + now apply seriesInOrder_frame.
  - intros l F key value Ih [T O]. split.
    + now apply timesFromFrames_header.
    + now apply seriesInOrder_header.
  - intros l F l' Ih D [T O]. split.
    + now apply (timesFromFrames_data l l' F).
    + now apply (seriesInOrder_data l l' F).
  - split; [|intros _ e []].
    repeat split; auto; try discriminate; intros e [].
  - split; [|intros _ e []].
    repeat split; auto; try discriminate; intros e [].
  - apply (O A (id, obj) Ho).
Qed.

Lemma parsed_series_in_order_witness :
  parse sample = Ok Examples.sampleData /\
  ascending (frameTimes (splitLines sample)) = true /\
  In ("A100", Examples.sampleObject) (AcmiData.objects Examples.sampleData) /\
  Pose.nonDecreasing (AcmiObject.states Examples.sampleObject) = true.
Proof.
  assert (A : ascending (frameTimes (splitLines sample)) = true)
    by (vm_compute; reflexivity).
  assert (B : In ("A100", Examples.sampleObject)
                 (AcmiData.objects Examples.sampleData))
    by (vm_compute; auto).
  split; [exact parse_sample|]. split; [exact A|]. split; [exact B|].
  exact (parsed_series_in_order sample Examples.sampleData parse_sample A
           "A100" Examples.sampleObject B).
Defined.

(** ** The header and the removals *)

Lemma frameMarker_significant (t : string) :
  isFrameMarker t = true -> significant t = true.
Proof.
  unfold isFrameMarker, significant, startsWith. intros H.
  apply prefix_correct in H. destruct t as [|c t]; [discriminate|].
  cbn [String.length String.substring] in H.
  assert (c = "#"%char) by now injection H. subst c. reflexivity.
Qed.

(** X9.  The header is closed by the first frame marker: from a frame
    marker on, no line changes [fileVersion], [referenceTime],
    [referenceLongitude] or [referenceLatitude], whatever its key. *)
Theorem header_closed_by_first_frame (l l' : locals) (line : string)
        (lines : list string) :
  fileTypeValidated l = true ->
  isFrameMarker (trim line) = true ->
  processLines l (line :: lines) = Ok l' ->
  headerFields l' = headerFields l /\ inHeader l' = false.
Proof.
  intros V Fm R. simpl in R.
  rewrite (processLine_frame l line (frameMarker_significant _ Fm) V Fm) in R.
  pose proof (processLines_induction
                (fun l0 _ => headerFields l0 = headerFields l /\
                             inHeader l0 = false)) as X.
  refine (X _ _ _ lines (enterFrame (frameTime (trim line)) l) [] l' V _ R).
  - intros l0 F t [H _]. split; [exact H | reflexivity].
  - intros l0 F key value Ih [_ Ih']. congruence.
  - intros l0 F l1 _ D [H Ih].
    destruct (dataStep_keeps l0 l1 D) as (_ & Ih1 & _ & Hf).
    rewrite Hf, Ih1. auto.
  - split; reflexivity.
Qed.

Lemma header_closed_by_first_frame_witness :
  fileTypeValidated (set_fileTypeValidated true initial) = true /\
  isFrameMarker (trim "#1.00") = true /\
  (exists l',
     processLines (set_fileTypeValidated true initial)
                  ["#1.00"; "ReferenceLongitude=30.0"] = Ok l' /\
     headerFields l' = headerFields (set_fileTypeValidated true initial) /\
     inHeader l' = false).
Proof.
  split; [reflexivity|]. split; [reflexivity|].
  destruct (processLines (set_fileTypeValidated true initial)
                         ["#1.00"; "ReferenceLongitude=30.0"])
    as [l'|m] eqn:E.
  - exists l'. split; [reflexivity|].
    exact (header_closed_by_first_frame
             (set_fileTypeValidated true initial) l' "#1.00"
             ["ReferenceLongitude=30.0"] eq_refl eq_refl E).
  - vm_compute in E. discriminate.
Defined.

(** X10.  A removal line [-id] after the first frame marker: for an id
    that is not in the map nothing changes; for a known id the object is
    marked as removed at the current time and stays in the map, at its
    place, with its id, properties and samples, and no other object is
    touched. *)
Theorem removal_marks_object (l : locals) (line id : string) :
  fileTypeValidated l = true -> inHeader l = false ->
  trim line = "-" ++ id ->
  (JsMap.get id (objects l) = None -> processLine l line = Ok l) /\
  (forall obj,
     JsMap.get id (objects l) = Some obj ->
     exists l',
       processLine l line = Ok l' /\
       JsMap.get id (objects l')
       = Some (AcmiObject.mk (AcmiObject.id obj) (AcmiObject.properties obj)
                             (AcmiObject.states obj) (Some (currentTime l))) /\
       JsMap.keys (objects l') = JsMap.keys (objects l) /\
       (forall k, k <> id ->
                  JsMap.get k (objects l') = JsMap.get k (objects l))).
Proof.
  intros V Ih T. unfold processLine. rewrite T, V, Ih.
  change (isEmpty ("-" ++ id)) with false.
  change (startsWith ("-" ++ id) "//") with false.
  change (startsWith ("-" ++ id) "#") with false.
  assert (Hm : startsWith ("-" ++ id) "-" = true)
    by (unfold startsWith; destruct id; reflexivity).
  rewrite Hm. cbn [orb negb].
  change 1%nat with (String.length "-").
  rewrite js_substringFrom_suffix.
  split.
  - now intros ->.
  - intros obj G. rewrite G. eexists. split; [reflexivity|]. simpl.
    split; [apply JsMap_get_set_same|]. split.
    + now rewrite JsMap_keys_set, G.
    + intros k Hk. now apply JsMap_get_set_other.
Qed.

Lemma removal_marks_object_witness :
  fileTypeValidated Examples.afterSample = true /\
  inHeader Examples.afterSample = false /\
  (trim " -B200" = "-" ++ "B200" /\
   JsMap.get "B200" (objects Examples.afterSample) = None /\
   processLine Examples.afterSample " -B200" = Ok Examples.afterSample) /\
  (trim "-A100" = "-" ++ "A100" /\
   JsMap.get "A100" (objects Examples.afterSample)
   = Some Examples.sampleObject /\
   exists l',
     processLine Examples.afterSample "-A100" = Ok l' /\
     JsMap.get "A100" (objects l')
     = Some (AcmiObject.mk (AcmiObject.id Examples.sampleObject)
               (AcmiObject.properties Examples.sampleObject)
               (AcmiObject.states Examples.sampleObject)
               (Some (currentTime Examples.afterSample))) /\
     JsMap.keys (objects l') = JsMap.keys (objects Examples.afterSample) /\
     (forall k, k <> "A100" ->
                JsMap.get k (objects l')
                = JsMap.get k (objects Examples.afterSample))).
Proof.
  assert (V : fileTypeValidated Examples.afterSample = true)
    by (vm_compute; reflexivity).
  assert (H : inHeader Examples.afterSample = false)
    by (vm_compute; reflexivity).
  assert (N : JsMap.get "B200" (objects Examples.afterSample) = None)
    by (vm_compute; reflexivity).
  assert (G : JsMap.get "A100" (objects Examples.afterSample)
              = Some Examples.sampleObject)
    by (vm_compute; reflexivity).
  split; [exact V|]. split; [exact H|]. split.
  - split; [reflexivity|]. split; [exact N|].
    exact (proj1 (removal_marks_object Examples.afterSample " -B200" "B200"
                    V H eq_refl) N).
  - split; [reflexivity|]. split; [exact G|].
    exact (proj2 (removal_marks_object Examples.afterSample "-A100" "A100"
                    V H eq_refl) Examples.sampleObject G).
Defined.

(** ** Blank lines, comments and indentation *)

Lemma trimStartChars_idempotent (l : list ascii) :
  trimStartChars (trimStartChars l) = trimStartChars l.
Proof.
  induction l as [|c l IH]; simpl; [reflexivity|].
  destruct (isWhiteSpace c) eqn:W; [exact IH|]. simpl. now rewrite W.
Qed.

Lemma trimStartChars_head (l : list ascii) :
  trimStartChars l = [] \/
  exists c r, trimStartChars l = c :: r /\ isWhiteSpace c = false.
Proof.
  induction l as [|c l IH]; simpl; [now left|].
  destruct (isWhiteSpace c) eqn:W; [exact IH|]. right. eauto.
Qed.

Lemma trimStartChars_keeps (c : ascii) (r : list ascii) :
  isWhiteSpace c = false -> trimStartChars (c :: r) = c :: r.
Proof. intros W. simpl. now rewrite W. Qed.

Lemma trimStartChars_snoc (x : list ascii) (c : ascii) :
  isWhiteSpace c = false ->
  exists p, trimStartChars (x ++ [c]) = (p ++ [c])%list.
Proof.
  intros W. induction x as [|a x IH]; simpl.
  - rewrite W. now exists [].
  - destruct (isWhiteSpace a); [exact IH|]. now exists (a :: x).
Qed.

Lemma trimEndChars_keeps_head (c : ascii) (r : list ascii) :
  isWhiteSpace c = false -> exists r', trimEndChars (c :: r) = c :: r'.
Proof.
  intros W. unfold trimEndChars. simpl rev.
  destruct (trimStartChars_snoc (rev r) c W) as [p ->].
  rewrite rev_app_distr. simpl. eauto.
Qed.

Lemma trimEndChars_idempotent (l : list ascii) :
  trimEndChars (trimEndChars l) = trimEndChars l.
Proof.
  unfold trimEndChars. now rewrite rev_involutive, trimStartChars_idempotent.
Qed.

Lemma trim_idempotent (s : string) : trim (trim s) = trim s.
Proof.
  unfold trim. rewrite chars_str. f_equal.
  destruct (trimStartChars_head (chars s)) as [E | (c & r & E & W)];
    rewrite E.
  - reflexivity.
  - destruct (trimEndChars_keeps_head c r W) as [r' E'].
    assert (K : trimStartChars (trimEndChars (c :: r)) = trimEndChars (c :: r))
      by (rewrite E'; now apply trimStartChars_keeps).
    rewrite K. apply trimEndChars_idempotent.
Qed.

Lemma processLine_trim (l : locals) (line : string) :
  processLine l (trim line) = processLine l line.
Proof. unfold processLine. now rewrite trim_idempotent. Qed.

Lemma processLines_significant (lines : list string) :
  forall l, processLines l (significantLines lines) = processLines l lines.
Proof.
  induction lines as [|line lines IH]; intros l; [reflexivity|].
  rewrite significantLines_cons. simpl.
  destruct (significant (trim line)) eqn:S.
  - simpl. rewrite processLine_trim.
    destruct (processLine l line); [apply IH | reflexivity].
  - rewrite (processLine_skip l line S). apply IH.
Qed.

(** X11.  The dataset depends on the significant lines alone: two inputs
    that agree once blank lines and comment lines are dropped and the
    other lines are trimmed give the same result, dataset or error. *)
Theorem parse_ignores_insignificant (a b : string) :
  significantLines (splitLines a) = significantLines (splitLines b) ->
  parse a = parse b.
Proof.
  intros E. unfold parse.
  rewrite <- (processLines_significant (splitLines a)),
          <- (processLines_significant (splitLines b)), E.
  reflexivity.
Qed.

Lemma parse_ignores_insignificant_witness :
  significantLines (splitLines Examples.commentedSample)
  = significantLines (splitLines sample) /\
  parse Examples.commentedSample = parse sample.
Proof.
  assert (E : significantLines (splitLines Examples.commentedSample)
              = significantLines (splitLines sample))
    by (vm_compute; reflexivity).
  split; [exact E|].
  exact (parse_ignores_insignificant Examples.commentedSample sample E).
Defined.

(** ** The time range *)

Lemma fold_Math_max_above (frames : list number) :
  Forall (fun t => isNaN t = false) frames ->
  forall acc, isNaN acc = false ->
    isNaN (fold_left Math_max frames acc) = false /\
    (acc <=? fold_left Math_max frames acc)%js = true /\
    Forall (fun t => (t <=? fold_left Math_max frames acc)%js = true) frames.
Proof.
  induction 1 as [|t frames Nt Nf IH]; intros acc Na; simpl.
  - split; [exact Na|]. split; [now apply leb_refl | constructor].
  - assert (Nm : isNaN (Math_max acc t) = false)
      by now apply Math_max_not_NaN.
    destruct (IH (Math_max acc t) Nm) as (N & L & A).
    split; [exact N|]. split.
    + eapply leb_trans; [|exact L]. now apply Math_max_geb_l.
    + constructor; [|exact A].
      eapply leb_trans; [|exact L]. now apply Math_max_geb_r.
Qed.

(** X12.  When the frame times of the input are numbers, the time range
    of the dataset is well formed: [0 <= endTime], [startTime <= endTime]
    and no frame time is later than [endTime]. *)
Theorem parsed_time_range (fileContent : string) (d : AcmiData.t) :
  parse fileContent = Ok d ->
  Forall (fun t => isNaN t = false) (frameTimes (splitLines fileContent)) ->
  (zero <=? AcmiData.endTime d)%js = true /\
  (AcmiData.startTime d <=? AcmiData.endTime d)%js = true /\
  Forall (fun t => (t <=? AcmiData.endTime d)%js = true)
         (frameTimes (splitLines fileContent)).
Proof.
  intros E N. destruct (parse_locals fileContent d E) as (l & -> & St & En).
  unfold finish. simpl. rewrite St, En.
  destruct (fold_Math_max_above _ N zero eq_refl) as (_ & L & A).
  split; [exact L|]. split; [|exact A].
  destruct (frameTimes (splitLines fileContent)) as [|t frames]; [exact L|].
  simpl. inversion A; subst. assumption.
Qed.

Lemma parsed_time_range_witness :
  parse sample = Ok Examples.sampleData /\
  Forall (fun t => isNaN t = false) (frameTimes (splitLines sample)) /\
  (zero <=? AcmiData.endTime Examples.sampleData)%js = true /\
  (AcmiData.startTime Examples.sampleData
   <=? AcmiData.endTime Examples.sampleData)%js = true /\
  Forall (fun t => (t <=? AcmiData.endTime Examples.sampleData)%js = true)
         (frameTimes (splitLines sample)).
Proof.
  assert (N : Forall (fun t => isNaN t = false)
                     (frameTimes (splitLines sample)))
    by (vm_compute; repeat constructor).
  split; [exact parse_sample|]. split; [exact N|].
  exact (parsed_time_range sample Examples.sampleData parse_sample N).
Defined.

End ObjectFacts.

(* ================================================================== *)
(** * More on the engine *)
(* ================================================================== *)

Section EngineFacts.
Context {P : Platform}.
Import Simulation Pose Recording.
Local Open Scope string_scope.
Local Open Scope js_scope.

(** X13.  In every state that the operations of the service reach, the
    pose computation returns a pose map and does not throw: the
    transform it dereferences is there whenever a dataset is, and the
    two samples it reads are inside the series.  The service is left as
    it was. *)
Theorem interpolatedStates_never_throws (s : service) (e1 e2 : Euler.t) :
  reachable s ->
  exists poses w',
    interpolatedStates (mkWorld s e1 e2) = Ok (poses, w') /\ engine w' = s.
Proof.
  intros R. pose proof (reachable_holds s R) as H.
  destruct (acmiData s) as [data|] eqn:D.
  - destruct H as [H _].
    destruct (interpolatedStates_holds data (mkWorld s e1 e2) H)
      as (w' & E & K).
    eauto.
  - unfold interpolatedStates. simpl. rewrite D. eexists. eexists.
    split; reflexivity.
Qed.

(** ** One pose per object *)

Lemma posesOf_app (m : Matrix4) (entries : list (string * AcmiObject.t))
      (t : number) :
  forall acc,
    NoDup (JsMap.keys acc ++ JsMap.keys entries) ->
    posesOf m entries t acc
    = (acc ++ map (fun e => (fst e, poseOf m (snd e) t)) entries)%list.
Proof.
  unfold posesOf.
  induction entries as [|[id obj] entries IH]; intros acc N; simpl.
  - now rewrite app_nil_r.
  - assert (Hid : ~ In id (JsMap.keys acc)).
    { intros Hin. apply NoDup_remove_2 in N. apply N.
      apply in_or_app. now left. }
    assert (S : JsMap.set id (poseOf m obj t) acc
                = (acc ++ [(id, poseOf m obj t)])%list).
    { clear - Hid. induction acc as [|[k v] acc IH]; simpl; [reflexivity|].
      simpl in Hid. destruct (String.eqb id k) eqn:E.
      - apply String.eqb_eq in E. subst. tauto.
      - rewrite IH; [reflexivity | tauto]. }
    rewrite S, IH.
    + now rewrite <- app_assoc.
    + unfold JsMap.keys in *. rewrite map_app. simpl.
      rewrite <- app_assoc. simpl.
      simpl in N. apply NoDup_remove in N as [N1 N2].
      apply NoDup_Add with (a := id) (l := (map fst acc ++ map fst entries)%list).
      * apply Add_app.
      * split; assumption.
Qed.

Lemma poseOf_id (m : Matrix4) (obj : AcmiObject.t) (t : number) :
  InterpolatedState.id (poseOf m obj t) = AcmiObject.id obj.
Proof.
  unfold poseOf. destruct (activeAt obj t); [|reflexivity].
  destruct (bracket _ _) as [[s1 s2]|]; reflexivity.
Qed.

Lemma poseOf_isActive (m : Matrix4) (obj : AcmiObject.t) (t : number) :
  InterpolatedState.isActive (poseOf m obj t) = activeAt obj t.
Proof.
  unfold poseOf. destruct (activeAt obj t) eqn:A; [|reflexivity].
  destruct (bracket_active obj t A) as (s1 & s2 & B & _). now rewrite B.
Qed.

(** X14.  For a dataset whose objects are filed under their ids, no id
    twice (as [parse] returns them), the pose map has one pose for every
    object, in the order of the objects, filed under the id of the
    object, and the id inside the pose is that id. *)
Theorem one_pose_per_object (data : AcmiData.t) (w w' : world)
        (poses : JsMap.t InterpolatedState.t) :
  holds data (engine w) ->
  NoDup (JsMap.keys (AcmiData.objects data)) ->
  filedUnderId (AcmiData.objects data) ->
  interpolatedStates w = Ok (poses, w') ->
  JsMap.keys poses = JsMap.keys (AcmiData.objects data) /\
  Forall (fun e => InterpolatedState.id (snd e) = fst e) poses.
Proof.
  intros H N W E.
  destruct (interpolatedStates_holds data w H) as (w1 & E1 & _).
  rewrite E1 in E. injection E as <- _.
  rewrite posesOf_app by exact N. simpl. split.
  - unfold JsMap.keys. rewrite map_map. reflexivity.
  - unfold filedUnderId in W. rewrite Forall_forall in *.
    intros e He. apply in_map_iff in He as (e0 & <- & He0). simpl.
    rewrite poseOf_id. now apply W.
Qed.

Lemma isListed_activeAt (obj : AcmiObject.t) (t : number) :
  ObjectList.isListed obj t = activeAt obj t.
Proof. reflexivity. Qed.

(** X15.  The object list and the engine agree on which objects are
    there: for a dataset as [parse] returns it, the ids of the objects
    the list shows at the current time are the ids of the poses that are
    active, in the same order (the order before the list is sorted by
    name). *)
Theorem listed_objects_are_active (data : AcmiData.t) (w w' : world)
        (poses : JsMap.t InterpolatedState.t) :
  holds data (engine w) ->
  NoDup (JsMap.keys (AcmiData.objects data)) ->
  filedUnderId (AcmiData.objects data) ->
  interpolatedStates w = Ok (poses, w') ->
  map ObjectList.DisplayObject.id
      (ObjectList.listed (AcmiData.objects data) (time (engine w)))
  = map fst (filter (fun e => InterpolatedState.isActive (snd e)) poses).
Proof.
  intros H N W E.
  destruct (interpolatedStates_holds data w H) as (w1 & E1 & _).
  rewrite E1 in E. injection E as <- _.
  rewrite posesOf_app by exact N. simpl. unfold ObjectList.listed.
  unfold filedUnderId in W. clear N E1.
  induction (AcmiData.objects data) as [|[id obj] entries IH]; simpl;
    [reflexivity|].
  inversion W as [|? ? Hid W']; subst. simpl in Hid.
  rewrite poseOf_isActive, isListed_activeAt.
  destruct (activeAt obj (time (engine w))); simpl.
  - rewrite Hid. f_equal. now apply IH.
  - now apply IH.
Qed.

(** ** At the time of a sample *)

Lemma ltb_trans (x y z : number) :
  (x <? y) = true -> (y <? z) = true -> (x <? z) = true.
Proof. intros A B. eapply ltb_leb_trans; [exact A | now apply ltb_leb]. Qed.

Lemma strictlyIncreasing_tail (s : TimeState.t) (rest : list TimeState.t) :
  strictlyIncreasing (s :: rest) = true -> strictlyIncreasing rest = true.
Proof.
  destruct rest as [|s' rest]; [reflexivity|].
  intros H. change (strictlyIncreasing (s :: s' :: rest))
    with ((TimeState.time s <? TimeState.time s')
          && strictlyIncreasing (s' :: rest)) in H.
  now apply andb_true_iff in H as [_ H].
Qed.

Lemma strictlyIncreasing_head (rest : list TimeState.t) :
  forall s, strictlyIncreasing (s :: rest) = true ->
  forall j b, nth_error rest j = Some b ->
              (TimeState.time s <? TimeState.time b) = true.
Proof.
  induction rest as [|s' rest IH]; intros s H j b Hb.
  - destruct j; discriminate.
  - change (strictlyIncreasing (s :: s' :: rest))
      with ((TimeState.time s <? TimeState.time s')
            && strictlyIncreasing (s' :: rest)) in H.
    apply andb_true_iff in H as [L H]. destruct j as [|j]; simpl in Hb.
    + now injection Hb as <-.
    + apply ltb_trans with (TimeState.time s'); [exact L|].
      now apply (IH s' H j).
Qed.

Lemma strictlyIncreasing_nth (states : list TimeState.t) :
  strictlyIncreasing states = true ->
  forall i j a b,
    (i < j)%nat -> nth_error states i = Some a -> nth_error states j = Some b ->
    (TimeState.time a <? TimeState.time b) = true.
Proof.
  induction states as [|s rest IH]; intros H i j a b Lt Ha Hb.
  - destruct i; discriminate.
  - destruct j as [|j]; [lia|]. simpl in Hb. destruct i as [|i]; simpl in Ha.
    + injection Ha as <-. now apply (strictlyIncreasing_head rest s H j).
    + apply (IH (strictlyIncreasing_tail s rest H) i j); auto. lia.
Qed.




(** ** Between two samples *)

Lemma sub_positive (a b : number) :
  (a <? b) = true -> (b - a >? zero) = true.
Proof.
  destruct a as [|s|p], b as [|s'|q]; unfold gtb, sub, add, neg, zero; simpl;
    try solve [sign_cases].
  intros H. apply Qc_ltb_lt in H. apply Qc_ltb_lt.
  now apply Qclt_minus_iff in H.
Qed.

(** In a series in strict order the two samples around a time are the
    ones the computation brackets it with. *)
Lemma bracketing_adjacent (states : list TimeState.t) (k : nat)
      (s1 s2 a b : TimeState.t) (t : number) :
  strictlyIncreasing states = true ->
  nth_error states k = Some s1 -> nth_error states (S k) = Some s2 ->
  (TimeState.time s1 <=? t) = true -> (t <? TimeState.time s2) = true ->
  bracketing states t a b -> a = s1 /\ b = s2.
Proof.
  intros Inc N1 N2 L1 L2 R.
  destruct R as [s0 N0 All | j a b Na Nb G1 G2].
  - rewrite Forall_forall in All.
    pose proof (All s2 (nth_error_In _ _ N2)) as Y. unfold gtb in Y.
    congruence.
  - unfold gtb in G1, G2.
    assert (j = k).
    { destruct (Nat.lt_trichotomy j k) as [Lt | [-> | Lt]]; [|reflexivity|].
      - exfalso. destruct (Nat.eq_dec (S j) k) as [<- | Hne].
        + assert (b = s1) by congruence. subst b.
          rewrite (leb_ltb_false _ _ L1) in G2. discriminate.
        + assert (Lt' : (S j < k)%nat) by lia.
          pose proof (strictlyIncreasing_nth _ Inc _ _ _ _ Lt' Nb N1) as X.
          pose proof (ltb_leb_trans _ _ _ X L1) as X'.
          rewrite (ltb_asym _ _ X') in G2. discriminate.
      - exfalso. destruct (Nat.eq_dec (S k) j) as [<- | Hne].
        + assert (a = s2) by congruence. subst a. congruence.
        + assert (Lt' : (S k < j)%nat) by lia.
          pose proof (strictlyIncreasing_nth _ Inc _ _ _ _ Lt' N2 Na) as X.
          pose proof (ltb_trans _ _ _ L2 X) as X'. congruence. }
    subst j. split; congruence.
Qed.

(** X17.  Between two consecutive samples of a series in strict order the
    motion of an active object does not depend on the time of the query:
    velocity, speed and vertical speed are those of the segment, the
    vertical speed being the altitude difference over the time
    difference. *)
Theorem motion_constant_between_samples (obj : AcmiObject.t) (k : nat)
        (s1 s2 : TimeState.t) (t t' : number) (w w2 : world) (m : Matrix4) :
  enuMatrix (engine w) = Some m -> enuMatrix (engine w2) = Some m ->
  strictlyIncreasing (AcmiObject.states obj) = true ->
  nth_error (AcmiObject.states obj) k = Some s1 ->
  nth_error (AcmiObject.states obj) (S k) = Some s2 ->
  (TimeState.time s1 <=? t) = true -> (t <? TimeState.time s2) = true ->
  (TimeState.time s1 <=? t') = true -> (t' <? TimeState.time s2) = true ->
  activeAt obj t = true -> activeAt obj t' = true ->
  exists pose pose' w' w2',
    getInterpolatedState obj t w = Ok (pose, w') /\
    getInterpolatedState obj t' w2 = Ok (pose', w2') /\
    motion pose = motion pose' /\
    InterpolatedState.verticalSpeed pose
    = (TimeState.altitude s2 - TimeState.altitude s1)
      / (TimeState.time s2 - TimeState.time s1).
Proof.
  intros E E2 Inc N1 N2 L1 L2 L1' L2' A A'.
  destruct (bracket_active obj _ A) as (a & b & B & R).
  destruct (bracket_active obj _ A') as (a' & b' & B' & R').
  destruct (bracketing_adjacent _ k s1 s2 a b t Inc N1 N2 L1 L2 R)
    as [-> ->].
  destruct (bracketing_adjacent _ k s1 s2 a' b' t' Inc N1 N2 L1' L2' R')
    as [-> ->].
  rewrite (getInterpolatedState_active obj _ w m s1 s2 A B E).
  rewrite (getInterpolatedState_active obj _ w2 m s1 s2 A' B' E2).
  do 4 eexists. split; [reflexivity|]. split; [reflexivity|].
  split; [reflexivity|].
  assert (Lt : (TimeState.time s1 <? TimeState.time s2) = true)
    by (eapply strictlyIncreasing_nth; eauto).
  unfold interpolatedPose. simpl. unfold deriveKinematics.
  now rewrite (sub_positive _ _ Lt).
Qed.

(** ** The end of the recording *)

Lemma Math_min_r_leb (x y : number) : (y <=? x) = true -> Math_min x y = y.
Proof.
  intros H. destruct (leb_not_NaN _ _ H) as [Hy Hx].
  unfold leb in H. apply orb_true_iff in H as [H | H].
  - now apply Math_min_r.
  - apply eqb_true_eq in H. subst. apply Math_min_l. now apply leb_refl.
Qed.

(** X18.  When an advance reaches the end of the recording, the time is
    exactly [duration] and playback is paused; further advances change
    nothing; [play] then rewinds to the start time of the dataset
    (clamped into [[0, duration]] by [seek]) and plays again. *)
Theorem playback_stops_at_end (deltaTime : number) (s : service) :
  isPlaying s = true -> isDataLoaded s = true ->
  (duration s <=? time s + deltaTime * playbackSpeed s) = true ->
  let s1 := tick deltaTime s in
  time s1 = duration s /\
  isPlaying s1 = false /\
  (forall d, tick d s1 = s1) /\
  isPlaying (play s1) = true /\
  time (play s1)
  = Math_max zero
      (Math_min (match acmiData s with
                 | Some data => AcmiData.startTime data
                 | None => zero
                 end) (duration s)).
Proof.
  intros Pl Ld End s1.
  assert (E : s1 = set_isPlaying false (set_time (duration s) s)).
  { subst s1. unfold tick. rewrite Pl, Ld. simpl.
    rewrite (Math_min_r_leb _ _ End). unfold geb.
    destruct (leb_not_NaN _ _ End) as [Nd _].
    now rewrite (leb_refl _ Nd). }
  rewrite E. simpl. split; [reflexivity|]. split; [reflexivity|]. split.
  - intros d. reflexivity.
  - unfold play, seek. simpl. rewrite Ld. simpl. unfold geb.
    destruct (leb_not_NaN _ _ End) as [Nd _].
    rewrite (leb_refl _ Nd). split; reflexivity.
Qed.

(** X19.  After [reset] only [loadData] brings the engine back: whatever
    other operations follow, the service is as [reset] left it but for
    the playback speed: unloaded, paused, at time 0 with duration 0, and
    the pose map is empty. *)
Theorem reset_unloads (s s' : service) (e1 e2 : Euler.t) :
  withoutLoad (reset s) s' ->
  (exists speed, s' = setSpeed speed (reset s)) /\
  acmiData s' = None /\ isDataLoaded s' = false /\ isPlaying s' = false /\
  time s' = zero /\ duration s' = zero /\
  interpolatedStates (mkWorld s' e1 e2) = Ok (JsMap.empty, mkWorld s' e1 e2).
Proof.
  intros W.
  assert (K : exists speed, s' = setSpeed speed (reset s)).
  { induction W as [|d s' _ [v ->]|s' _ [v ->]|s' _ [v ->]|t s' _ [v ->]
                    |v' s' _ [v ->]|s' _ [v ->]].
    - exists (playbackSpeed s). reflexivity.
    - exists v. reflexivity.
    - exists v. reflexivity.
    - exists v. reflexivity.
    - exists v. reflexivity.
    - exists v'. reflexivity.
    - exists v. reflexivity. }
  split; [exact K|]. destruct K as [v ->].
  repeat split.
Qed.

(** ** The heading *)

Ltac qc2q :=
  unfold Qcle, Qclt, Qcdiv, Qcmult, Qcinv, Qcminus, Qcplus, Qcopp, Q2Qc in *;
  cbn [this] in *; rewrite ?Qred_correct in *.

Lemma Qc_trunc_floor (r : Qc) : (0 <= r)%Qc -> Qc_trunc r = Qfloor r.
Proof.
  unfold Qc_trunc, Qfloor, Qcle. destruct r as [[n d] c]. simpl.
  unfold Qle. simpl. intros H. apply Z.quot_div_nonneg; lia.
Qed.

Lemma Qc_rem_360_range (p : Qc) :
  (0 <= p)%Qc ->
  let h := (p - Q2Qc 360 * Q2Qc (inject_Z (Qc_trunc (p / Q2Qc 360))))%Qc in
  (0 <= h)%Qc /\ (h < Q2Qc 360)%Qc.
Proof.
  intros Hp h. subst h.
  assert (Hr : (0 <= p / Q2Qc 360)%Qc).
  { qc2q. apply Qle_shift_div_l; [reflexivity | lra]. }
  rewrite (Qc_trunc_floor _ Hr).
  pose proof (Qfloor_le (p / Q2Qc 360)%Qc) as A.
  pose proof (Qlt_floor (p / Q2Qc 360)%Qc) as B.
  set (k := Qfloor (p / Q2Qc 360)%Qc) in *.
  rewrite inject_Z_plus in B.
  qc2q.
  assert (E : (360 * (p / 360) == p)%Q) by (apply Qmult_div_r; discriminate).
  clearbody k. change (inject_Z 1) with 1%Q in B. unfold Qdiv in E.
  change (Qred 360) with 360%Q in *.
  split; lra.
Qed.

(** X20.  The heading of a pose is the Euler angle in degrees, plus 360,
    modulo 360.  For an angle that is a number not below -360 degrees
    (three.js gives angles between -180 and 180) the heading lies in
    [[0, 360)]. *)
Theorem heading_in_range (q : Quaternion.t) :
  let angle := radToDeg (Euler.y (setFromQuaternion q "ZYX")) in
  isFinite angle = true ->
  (ofZ (-360) <=? angle) = true ->
  (zero <=? headingOf q) = true /\ (headingOf q <? ofZ 360) = true.
Proof.
  intros angle F L. unfold headingOf. fold angle.
  apply isFinite_Fin in F as [a Ea]. rewrite Ea in *.
  change (Fin a + ofZ 360) with (Fin (a + Q2Qc 360)%Qc).
  change (rem (Fin (a + Q2Qc 360)%Qc) (ofZ 360))
    with (Fin ((a + Q2Qc 360)
               - Q2Qc 360
                 * Q2Qc (inject_Z (Qc_trunc ((a + Q2Qc 360) / Q2Qc 360))))%Qc).
  unfold ofZ in L. apply leb_Fin in L.
  assert (Hp : (0 <= a + Q2Qc 360)%Qc).
  { clear - L. qc2q. change (inject_Z (-360)) with (-360 # 1)%Q in L. lra. }
  destruct (Qc_rem_360_range (a + Q2Qc 360)%Qc Hp) as [A B].
  split; [apply leb_Fin | apply ltb_Fin]; assumption.
Qed.

End EngineFacts.

(* ================================================================== *)
(** * Loading a file *)
(* ================================================================== *)

Section AppFacts.
Context {P : Platform}.
Import Parser Simulation Pose Recording.
Local Open Scope string_scope.

(** X21.  What loading a file leaves behind.  Whatever was loaded before
    is dropped first, the follow target is cleared and playback is
    paused.  If [parse] accepts the text, its dataset is loaded at its
    start time, no error is shown, and the pose computation gives one
    pose per parsed object.  If [parse] throws, the message is shown,
    the file name is cleared and the engine stays unloaded, with an empty
    pose map: the recording loaded before is not kept. *)
Theorem file_load_outcome (name fileContent : string) (a : App.t)
        (e1 e2 : Euler.t) :
  let a' := App.onFileChange name fileContent a in
  let s' := App.simulationService a' in
  App.isLoading a' = false /\ App.followTargetId a' = None /\
  isPlaying s' = false /\
  playbackSpeed s' = playbackSpeed (App.simulationService a) /\
  match parse fileContent with
  | Ok d =>
      App.errorMessage a' = None /\ App.fileName a' = Some name /\
      isDataLoaded s' = true /\ acmiData s' = Some d /\
      time s' = AcmiData.startTime d /\ duration s' = AcmiData.endTime d /\
      exists poses w',
        interpolatedStates (mkWorld s' e1 e2) = Ok (poses, w') /\
        JsMap.keys poses = JsMap.keys (AcmiData.objects d)
  | Throw message =>
      App.errorMessage a' = Some ("Error: " ++ message) /\
      App.fileName a' = None /\
      isDataLoaded s' = false /\ acmiData s' = None /\
      interpolatedStates (mkWorld s' e1 e2)
      = Ok (JsMap.empty, mkWorld s' e1 e2)
  end.
Proof.
  intros a' s'. subst s' a'. unfold App.onFileChange.
  assert (T : Renderer.setFollowTarget None (App.followTargetId a) = None).
  { unfold Renderer.setFollowTarget.
    now destruct (Renderer.sameId (App.followTargetId a) None). }
  destruct (parse fileContent) as [d | message] eqn:E; simpl.
  - repeat (split; [first [reflexivity | exact T]|]).
    set (s' := loadData d (reset (App.simulationService a))).
    destruct (interpolatedStates_holds d (mkWorld s' e1 e2)
                (holds_loadData d _)) as (w' & I & _).
    destruct (parse_onePerId fileContent d E) as [_ N].
    exists (posesOf (enuOf d) (AcmiData.objects d) (time s') JsMap.empty), w'.
    split; [exact I|].
    rewrite posesOf_app by exact N. simpl.
    unfold JsMap.keys. rewrite map_map. reflexivity.
  - repeat (split; [first [reflexivity | exact T]|]). reflexivity.
Qed.

End AppFacts.

(* ================================================================== *)
(** * The info panel and the renderer *)
(* ================================================================== *)

Section ComponentFacts.
Context {P : Platform}.
Import Simulation Pose Recording.
Local Open Scope string_scope.
Local Open Scope js_scope.

Lemma JsMap_get_map {A B : Type} (f : A -> B) (id : string) (m : JsMap.t A) :
  JsMap.get id (map (fun e => (fst e, f (snd e))) m)
  = option_map f (JsMap.get id m).
Proof.
  induction m as [|[k v] m IH]; simpl; [reflexivity|].
  now destruct (String.eqb id k).
Qed.

(** The pose map of a loaded engine, looked up by id. *)
Lemma pose_lookup (data : AcmiData.t) (w w' : world)
      (poses : JsMap.t InterpolatedState.t) (id : string) :
  holds data (engine w) ->
  NoDup (JsMap.keys (AcmiData.objects data)) ->
  interpolatedStates w = Ok (poses, w') ->
  JsMap.get id poses
  = option_map (fun obj => poseOf (enuOf data) obj (time (engine w)))
               (JsMap.get id (AcmiData.objects data)).
Proof.
  intros H N E.
  destruct (interpolatedStates_holds data w H) as (w1 & E1 & _).
  rewrite E1 in E. injection E as <- _.
  rewrite posesOf_app by exact N. simpl.
  apply (JsMap_get_map (fun obj => poseOf (enuOf data) obj (time (engine w)))).
Qed.

Lemma category_Aircraft (obj : AcmiObject.t) :
  Renderer._getUnitCategory obj = Renderer.Aircraft <->
  JsText.includes
    (ObjectList.orElse (JsMap.get "Type" (AcmiObject.properties obj)) "")
    "FixedWing"
  || JsText.includes
       (ObjectList.orElse (JsMap.get "Type" (AcmiObject.properties obj)) "")
       "Rotorcraft" = true.
Proof.
  unfold Renderer._getUnitCategory.
  set (type := ObjectList.orElse _ _).
  destruct (JsText.includes type "FixedWing"
            || JsText.includes type "Rotorcraft"); [tauto|].
  split; [|discriminate].
  repeat match goal with
         | |- context [if ?b then _ else _] => destruct b
         end; discriminate.
Qed.

(** X22.  The info panel and the renderer agree on what an aircraft is:
    with a recording loaded, the panel has data exactly when the follow
    target is the id, not empty, of an object of the recording that the
    renderer puts in the category [Aircraft]. *)
Theorem panel_iff_followed_aircraft (data : AcmiData.t) (w w' : world)
        (poses : JsMap.t InterpolatedState.t) (targetId : option string) :
  holds data (engine w) ->
  NoDup (JsMap.keys (AcmiData.objects data)) ->
  interpolatedStates w = Ok (poses, w') ->
  (App.selectedAircraftData targetId (acmiData (engine w)) poses <> None <->
   exists id obj,
     targetId = Some id /\ id <> "" /\
     JsMap.get id (AcmiData.objects data) = Some obj /\
     Renderer._getUnitCategory obj = Renderer.Aircraft).
Proof.
  intros H N E. destruct H as [D M]. rewrite D.
  assert (H : holds data (engine w)) by (split; assumption).
  unfold App.selectedAircraftData.
  destruct targetId as [id|].
  2:{ split; [congruence|]. intros (id & obj & X & _). discriminate. }
  destruct id as [|c id].
  { split; [simpl; congruence|]. intros (id & obj & X & Y & _).
    injection X as <-. congruence. }
  cbn [JsString.isEmpty].
  rewrite (pose_lookup data w w' poses (String c id) H N E).
  destruct (JsMap.get (String c id) (AcmiData.objects data)) as [obj|] eqn:G;
    cbn [option_map].
  - pose proof (category_Aircraft obj) as C.
    destruct (JsText.includes _ "FixedWing" || JsText.includes _ "Rotorcraft").
    + split; [|discriminate]. intros _. exists (String c id), obj.
      repeat split; [discriminate | exact G | now apply C].
    + split; [congruence|]. intros (id' & obj' & X & _ & G' & C').
      injection X as <-. rewrite G in G'. injection G' as <-.
      apply C in C'. discriminate.
  - split; [congruence|]. intros (id' & obj' & X & _ & G' & _).
    injection X as <-. congruence.
Qed.

(** X23.  The panel does not look at [isActive]: while the followed
    aircraft is not active (not yet there, or removed) the panel stays,
    with its call sign and with altitude, speed, vertical speed and
    heading all 0. *)
Theorem panel_of_inactive_aircraft (data : AcmiData.t) (w w' : world)
        (poses : JsMap.t InterpolatedState.t) (id : string)
        (obj : AcmiObject.t) :
  holds data (engine w) ->
  NoDup (JsMap.keys (AcmiData.objects data)) ->
  interpolatedStates w = Ok (poses, w') ->
  id <> "" ->
  JsMap.get id (AcmiData.objects data) = Some obj ->
  Renderer._getUnitCategory obj = Renderer.Aircraft ->
  activeAt obj (time (engine w)) = false ->
  App.selectedAircraftData (Some id) (acmiData (engine w)) poses
  = Some (AircraftDisplayData.mk
            (ObjectList.orElse (JsMap.get "Name" (AcmiObject.properties obj))
                               "N/A")
            zero zero zero zero).
Proof.
  intros H N E Hid G C A. pose proof H as [D M]. rewrite D.
  unfold App.selectedAircraftData.
  destruct id as [|c id]; [congruence|]. cbn [JsString.isEmpty].
  rewrite (pose_lookup data w w' poses (String c id) H N E), G.
  cbn [option_map]. apply category_Aircraft in C. rewrite C.
  unfold poseOf. rewrite A. reflexivity.
Qed.

(** ** The name of a shape *)

Lemma splitWhereAcc_not_nil (sep : ascii -> bool) (l : list ascii) :
  forall acc, JsText.splitWhereAcc sep acc l <> [].
Proof.
  induction l as [|d r IH]; intros acc; simpl; [discriminate|].
  destruct (sep d); [discriminate | apply IH].
Qed.

Lemma last_cons_not_nil {A : Type} (a d : A) (l : list A) :
  l <> [] -> last (a :: l) d = last l d.
Proof. destruct l; [congruence | reflexivity]. Qed.

(** What [pop] takes off the result of [split]: when there is no
    separator, all the characters; otherwise the characters after the
    last separator. *)
Lemma splitWhereAcc_last (sep : ascii -> bool) (l : list ascii) :
  forall acc,
    forallb (fun c => negb (sep c)) acc = true ->
    let popped := JsString.chars (last (JsText.splitWhereAcc sep acc l) "") in
    forallb (fun c => negb (sep c)) popped = true /\
    ((forallb (fun c => negb (sep c)) l = true /\
      popped = (rev acc ++ l)%list) \/
     (exists before c,
        sep c = true /\ l = (before ++ c :: popped)%list)).
Proof.
  induction l as [|d r IH]; intros acc Hacc; simpl.
  - rewrite chars_str.
    assert (C : forallb (fun c => negb (sep c)) (rev acc) = true).
    { rewrite forallb_forall in *. intros c Hc. apply Hacc.
      now apply in_rev. }
    split; [exact C|]. left. split; [reflexivity|]. now rewrite app_nil_r.
  - destruct (sep d) eqn:S.
    + rewrite last_cons_not_nil by apply splitWhereAcc_not_nil.
      destruct (IH [] eq_refl) as [C [[N E] | (before & c & Sc & E)]].
      * split; [exact C|]. right. exists [], d. split; [exact S|].
        simpl in E. now rewrite E.
      * split; [exact C|]. right. exists (d :: before), c.
        split; [exact Sc|]. simpl. f_equal. exact E.
    + destruct (IH (d :: acc)) as [C [[N E] | (before & c & Sc & E)]].
      { simpl. now rewrite S. }
      * split; [exact C|]. left. split; [exact N|].
        rewrite E. simpl. now rewrite <- app_assoc.
      * split; [exact C|]. right. exists (d :: before), c.
        split; [exact Sc|]. simpl. f_equal. exact E.
Qed.

(** X24.  The shape name of an object is never empty.  If the trimmed
    [Shape] property holds no slash and no backslash, the name is that
    text.  Otherwise the text is cut after its last separator: the name
    is what follows it, free of separators; but when nothing follows the
    last separator, the name is the whole trimmed text, separators
    included. *)
Theorem resolveShapeName_name (object : AcmiObject.t) (name : string) :
  Renderer._resolveShapeName object = Some name ->
  name <> "" /\
  exists rawShape,
    JsMap.get "Shape" (AcmiObject.properties object) = Some rawShape /\
    ((forallb (fun c => negb (Renderer.isPathSeparator c))
              (JsString.chars (JsString.trim rawShape)) = true /\
      name = JsString.trim rawShape) \/
     (exists before c after,
        Renderer.isPathSeparator c = true /\
        forallb (fun c => negb (Renderer.isPathSeparator c))
                (JsString.chars after) = true /\
        JsString.trim rawShape = before ++ String c after /\
        name = if JsString.isEmpty after then JsString.trim rawShape
               else after)).
Proof.
  unfold Renderer._resolveShapeName.
  destruct (JsMap.get "Shape" (AcmiObject.properties object))
    as [rawShape|]; [|discriminate].
  destruct (JsString.isEmpty rawShape); [discriminate|].
  destruct (JsString.isEmpty (JsString.trim rawShape)) eqn:T; [discriminate|].
  unfold JsText.splitWhere.
  destruct (splitWhereAcc_last Renderer.isPathSeparator
              (JsString.chars (JsString.trim rawShape)) [] eq_refl)
    as [C Cases].
  set (popped := last (JsText.splitWhereAcc Renderer.isPathSeparator []
                         (JsString.chars (JsString.trim rawShape))) "") in *.
  intros X. injection X as <-. split.
  - destruct (JsString.isEmpty popped) eqn:Pe; intros Z.
    + rewrite Z in T. discriminate.
    + rewrite Z in Pe. discriminate.
  - exists rawShape. split; [reflexivity|].
    destruct Cases as [[N E] | (before & c & Sc & E)].
    + left. split; [exact N|].
      simpl in E. apply (f_equal JsString.str) in E.
      rewrite !str_chars in E. rewrite E, T. reflexivity.
    + right. exists (JsString.str before), c, popped.
      split; [exact Sc|]. split; [exact C|]. split; [|reflexivity].
      rewrite <- (str_chars (JsString.trim rawShape)), E, str_app.
      simpl. now rewrite str_chars.
Qed.

(** ** The height objects are drawn at *)

Lemma extraGroundOffset_cases (object : option AcmiObject.t) :
  Renderer._getExtraGroundOffset object = zero \/
  Renderer._getExtraGroundOffset object = ofZ 80 \/
  Renderer._getExtraGroundOffset object = ofZ 120.
Proof.
  unfold Renderer._getExtraGroundOffset.
  destruct object as [o|]; [|now left].
  destruct (Renderer._resolveShapeName o) as [shapeName|]; [|now left].
  unfold Renderer.extraGroundOffsets. cbn [JsMap.get].
  destruct (String.eqb shapeName "vtolvr_EscortCruiser.obj");
    [right; now left|].
  destruct (String.eqb shapeName "Watercraft.CVN-74.obj");
    [right; now right | now left].
Qed.

Lemma clamped_height (z : number) (acmiObject : option AcmiObject.t) :
  isNaN z = false ->
  let height :=
    Math_max z (Renderer.groundPlaneY + Renderer.minHeightAboveGround
                + Renderer._getExtraGroundOffset acmiObject) in
  (ofZ 9 <=? height) = true /\
  (z <=? height) = true /\
  (height = z \/ height = ofZ 9 \/ height = ofZ 89 \/ height = ofZ 129).
Proof.
  intros Z height. subst height.
  assert (K : exists minY,
             Renderer.groundPlaneY + Renderer.minHeightAboveGround
             + Renderer._getExtraGroundOffset acmiObject = minY /\
             (ofZ 9 <=? minY) = true /\
             (minY = ofZ 9 \/ minY = ofZ 89 \/ minY = ofZ 129)).
  { destruct (extraGroundOffset_cases acmiObject) as [-> | [-> | ->]].
    - exists (ofZ 9). split; [number_eq|]. split; [reflexivity | now left].
    - exists (ofZ 89). split; [number_eq|].
      split; [vm_compute; reflexivity | right; now left].
    - exists (ofZ 129). split; [number_eq|].
      split; [vm_compute; reflexivity | right; now right]. }
  destruct K as (minY & -> & L & Cases).
  destruct (leb_not_NaN _ _ L) as [_ Nm].
  destruct (z <? minY) eqn:Lt.
  - rewrite (Math_max_r _ _ Lt). split; [exact L|].
    split; [now apply ltb_leb | now right].
  - pose proof (ltb_false_leb _ _ Z Nm Lt) as Ge.
    rewrite (Math_max_l _ _ Ge). split; [now apply (leb_trans _ minY)|].
    split; [now apply leb_refl | now left].
Qed.

(** X25.  One turn of [updateObjects] with the models loaded, for a pose
    whose id has a mesh group after the turn.  If the pose is active the
    group is made visible, and when the altitude of the pose is a number
    the group is put no lower than height 9 (the ground plane at -1 plus
    10) and no lower than that altitude: at the altitude, or lifted to 9,
    89 or 129 according to the shape.  If the pose is not active the
    group is hidden and stays where it was. *)
Theorem drawn_height_floor (state : InterpolatedState.t)
        (acmiObject : option AcmiObject.t)
        (group : option Renderer.Group) (created g' : Renderer.Group) :
  Renderer.updateObject true state acmiObject group created = Some g' ->
  (InterpolatedState.isActive state = true ->
   Renderer.visible g' = true /\
   Vector3.x (Renderer.position g') = InterpolatedState.x state /\
   Vector3.z (Renderer.position g') = neg (InterpolatedState.y state) /\
   (isNaN (InterpolatedState.z state) = false ->
    let height := Vector3.y (Renderer.position g') in
    (ofZ 9 <=? height) = true /\
    (InterpolatedState.z state <=? height) = true /\
    (height = InterpolatedState.z state \/ height = ofZ 9 \/
     height = ofZ 89 \/ height = ofZ 129))) /\
  (InterpolatedState.isActive state = false ->
   Renderer.visible g' = false /\
   Renderer.position g'
   = Renderer.position (match group with Some g => g | None => created end)).
Proof.
  unfold Renderer.updateObject. cbn [negb].
  intros U.
  assert (G : exists g,
            match group with
            | Some g => Some g
            | None => match acmiObject with
                      | Some _ => Some created
                      | None => None
                      end
            end = Some g /\
            g = match group with Some g => g | None => created end).
  { destruct group as [g|]; [eauto|].
    destruct acmiObject; [eauto | discriminate]. }
  destruct G as (g & Eg & Hg). rewrite Eg in U. split.
  - intros A. rewrite A in U. injection U as <-. cbn.
    split; [reflexivity|]. split; [reflexivity|]. split; [reflexivity|].
    intros Z. now apply clamped_height.
  - intros A. rewrite A in U. injection U as <-. cbn.
    split; [reflexivity | now rewrite Hg].
Qed.

End ComponentFacts.

(* ================================================================== *)
(** * The clock of the playback controls *)
(* ================================================================== *)

Section ClockFacts.
Import JsText PlaybackControls.
Local Open Scope string_scope.
Local Open Scope Z_scope.

Ltac qc2q :=
  unfold Qcle, Qclt, Qcdiv, Qcmult, Qcinv, Qcminus, Qcplus, Qcopp, Q2Qc in *;
  cbn [this] in *; rewrite ?Qred_correct in *.

Lemma Qfloor_unique (x : Q) (k : Z) :
  (inject_Z k <= x)%Q -> (x < inject_Z (k + 1))%Q -> Qfloor x = k.
Proof.
  intros A B.
  pose proof (Qfloor_le x) as C. pose proof (Qlt_floor x) as D.
  assert (k < Qfloor x + 1).
  { rewrite Zlt_Qlt. eapply Qle_lt_trans; eassumption. }
  assert (Qfloor x < k + 1).
  { rewrite Zlt_Qlt. eapply Qle_lt_trans; eassumption. }
  lia.
Qed.

(** The floor of a quotient by a positive integer. *)
Lemma Qfloor_div (x : Q) (n d : Z) :
  0 < d -> (inject_Z n <= x)%Q -> (x < inject_Z (n + 1))%Q ->
  Qfloor (x / inject_Z d) = n / d.
Proof.
  intros Hd A B. apply Qfloor_unique.
  - apply Qle_shift_div_l.
    + change 0%Q with (inject_Z 0). rewrite <- Zlt_Qlt. exact Hd.
    + rewrite <- inject_Z_mult. eapply Qle_trans; [|exact A].
      rewrite <- Zle_Qle. pose proof (Z.mul_div_le n d Hd). lia.
  - apply Qlt_shift_div_r.
    + change 0%Q with (inject_Z 0). rewrite <- Zlt_Qlt. exact Hd.
    + rewrite <- inject_Z_mult. eapply Qlt_le_trans; [exact B|].
      rewrite <- Zle_Qle.
      pose proof (Z.mod_pos_bound n d Hd). pose proof (Z.div_mod n d).
      nia.
Qed.

Lemma Qred_inject_Z (z : Z) : Qred (inject_Z z) = inject_Z z.
Proof. apply Qred_identity. simpl. apply Z.gcd_1_r. Qed.

Lemma ofZ_nonzero (d : Z) : d <> 0 -> Qc_eqb (Q2Qc (inject_Z d)) 0%Qc = false.
Proof.
  intros Hd. destruct (Qc_eqb (Q2Qc (inject_Z d)) 0%Qc) eqn:X; [|reflexivity].
  apply Qc_eqb_eq in X. apply (f_equal this) in X.
  unfold Q2Qc in X. cbn [this] in X. rewrite Qred_inject_Z in X.
  change (Qred 0) with (inject_Z 0) in X. injection X as X. contradiction.
Qed.

Lemma floorIs_Qfloor (x : Q) : floorIs x (Qfloor x).
Proof. split; [apply Qfloor_le | apply Qlt_floor]. Qed.

Lemma Math_floor_Fin (q : Qc) (n : Z) :
  floorIs q n -> Math_floor (Fin q) = ofZ n.
Proof.
  intros [A B]. unfold Math_floor, ofZ. now rewrite (Qfloor_unique q n A B).
Qed.

Lemma div_floor (q : Qc) (n d : Z) :
  0 < d -> floorIs q n ->
  exists r : Qc, (Fin q / ofZ d)%js = Fin r /\ floorIs r (n / d).
Proof.
  intros Hd [A B]. exists (q / Q2Qc (inject_Z d))%Qc. split.
  - unfold div, ofZ. rewrite ofZ_nonzero by lia. reflexivity.
  - assert (E : Qfloor (q / inject_Z d) = n / d) by now apply Qfloor_div.
    assert (X : ((q / Q2Qc (inject_Z d))%Qc == q / inject_Z d)%Q).
    { unfold Qcdiv, Qcmult, Qcinv, Q2Qc. cbn [this].
      now rewrite !Qred_correct. }
    unfold floorIs. rewrite X, <- E. apply floorIs_Qfloor.
Qed.

Lemma rem_floor (q : Qc) (n d : Z) :
  0 < d -> 0 <= n -> floorIs q n ->
  exists r : Qc, rem (Fin q) (ofZ d) = Fin r /\ floorIs r (n mod d).
Proof.
  intros Hd Hn [A B].
  assert (Hq : (0 <= q / Q2Qc (inject_Z d))%Qc).
  { qc2q. apply Qle_shift_div_l.
    - change 0%Q with (inject_Z 0). rewrite <- Zlt_Qlt. exact Hd.
    - rewrite Qmult_0_l. eapply Qle_trans; [|exact A].
      change 0%Q with (inject_Z 0). now rewrite <- Zle_Qle. }
  exists (q - Q2Qc (inject_Z d)
              * Q2Qc (inject_Z (Qc_trunc (q / Q2Qc (inject_Z d)))))%Qc.
  split.
  - unfold rem, ofZ. rewrite ofZ_nonzero by lia. reflexivity.
  - rewrite (Qc_trunc_floor _ Hq).
    assert (E : Qfloor (q / inject_Z d) = n / d)
      by (apply Qfloor_div; assumption).
    assert (X : ((q / Q2Qc (inject_Z d))%Qc == q / inject_Z d)%Q).
    { unfold Qcdiv, Qcmult, Qcinv, Q2Qc. cbn [this].
      now rewrite !Qred_correct. }
    rewrite X, E.
    assert (M : n mod d = n - d * (n / d)) by (pose proof (Z.div_mod n d); lia).
    rewrite M. unfold floorIs.
    replace (n - d * (n / d) + 1) with (n + 1 - d * (n / d)) by lia.
    unfold Z.sub. rewrite !inject_Z_plus, !inject_Z_opp, !inject_Z_mult.
    rewrite inject_Z_plus in B. clear Hq X E M. qc2q.
    change (inject_Z 1) with 1%Q in *.
    generalize dependent (inject_Z d * inject_Z (n / d))%Q.
    intros k. split; lra.
Qed.

Lemma toString_ofZ (z : Z) :
  Z.abs z < 10 ^ 21 ->
  toString (ofZ z) = Some (NilZero.string_of_int (Z.to_int z)).
Proof.
  intros H. unfold toString, ofZ, Q2Qc. cbn [this].
  rewrite Qred_inject_Z. simpl Qden. simpl Qnum.
  apply Z.ltb_lt in H. now rewrite H.
Qed.

Lemma padStart_twoDigits (z : Z) :
  0 <= z < 100 ->
  padStart 2 "0" (NilZero.string_of_int (Z.to_int z)) = twoDigits z.
Proof.
  intros H.
  assert (A : forallb (fun n => String.eqb
                (padStart 2 "0" (NilZero.string_of_int (Z.to_int (Z.of_nat n))))
                (twoDigits (Z.of_nat n))) (seq 0 100) = true)
    by (vm_compute; reflexivity).
  rewrite forallb_forall in A.
  specialize (A (Z.to_nat z)). rewrite Z2Nat.id in A by lia.
  apply String.eqb_eq, A, in_seq. lia.
Qed.

(** X26.  For a time from 0 up to, not including, 100 hours
    [formatTime] gives the clock reading of the whole seconds: two digits
    of hours, of minutes below 60 and of seconds below 60, separated by
    colons. *)
Theorem formatTime_clock (seconds : number) :
  isFinite seconds = true ->
  (zero <=? seconds)%js = true -> (seconds <? ofZ 360000)%js = true ->
  exists h m s : Z,
    0 <= h < 100 /\ 0 <= m < 60 /\ 0 <= s < 60 /\
    Math_floor seconds = ofZ (3600 * h + 60 * m + s) /\
    formatTime seconds
    = Some (twoDigits h ++ ":" ++ twoDigits m ++ ":" ++ twoDigits s).
Proof.
  intros F L U. apply isFinite_Fin in F as [q ->].
  unfold zero, ofZ in *. apply leb_Fin in L. apply ltb_Fin in U.
  set (n := Qfloor q).
  assert (Fl : floorIs q n) by apply floorIs_Qfloor.
  clearbody n.
  assert (Hn : 0 <= n < 360000).
  { destruct Fl as [A B]. split.
    - assert (0 < n + 1); [|lia]. rewrite Zlt_Qlt.
      eapply Qle_lt_trans; [|exact B]. exact L.
    - rewrite Zlt_Qlt. eapply Qle_lt_trans; [exact A|].
      qc2q. exact U. }
  exists (n / 3600), (n mod 3600 / 60), (n mod 60).
  assert (Hh : 0 <= n / 3600 < 100).
  { split; [apply Z.div_pos; lia | apply Z.div_lt_upper_bound; lia]. }
  assert (Hm : 0 <= n mod 3600 / 60 < 60).
  { pose proof (Z.mod_pos_bound n 3600 ltac:(lia)).
    split; [apply Z.div_pos; lia | apply Z.div_lt_upper_bound; lia]. }
  assert (Hs : 0 <= n mod 60 < 60) by (apply Z.mod_pos_bound; lia).
  repeat (split; [lia|]). split.
  - rewrite (Math_floor_Fin q n Fl). unfold ofZ. do 3 f_equal.
    pose proof (Z.div_mod n 3600 ltac:(lia)).
    pose proof (Z.div_mod (n mod 3600) 60 ltac:(lia)).
    assert (n mod 3600 mod 60 = n mod 60).
    { apply Z.mod_mod_divide. exists 60. reflexivity. }
    lia.
  - unfold formatTime.
    destruct (div_floor q n 3600 ltac:(lia) Fl) as (r1 & E1 & F1).
    destruct (rem_floor q n 3600 ltac:(lia) ltac:(lia) Fl) as (r2 & E2 & F2).
    destruct (div_floor r2 _ 60 ltac:(lia) F2) as (r3 & E3 & F3).
    destruct (rem_floor q n 60 ltac:(lia) ltac:(lia) Fl) as (r4 & E4 & F4).
    change (Fin (Q2Qc (inject_Z 3600))) with (ofZ 3600).
    change (Fin (Q2Qc (inject_Z 60))) with (ofZ 60).
    rewrite E1, E2, E3, E4.
    rewrite (Math_floor_Fin _ _ F1), (Math_floor_Fin _ _ F3),
            (Math_floor_Fin _ _ F4).
    rewrite !toString_ofZ by lia.
    now rewrite !padStart_twoDigits by lia.
Qed.

Lemma formatTime_clock_witness :
  (isFinite (Fin (Q2Qc (14769 # 2))) = true /\
   (zero <=? Fin (Q2Qc (14769 # 2)))%js = true /\
   (Fin (Q2Qc (14769 # 2)) <? ofZ 360000)%js = true) /\
  exists h m s : Z,
    0 <= h < 100 /\ 0 <= m < 60 /\ 0 <= s < 60 /\
    Math_floor (Fin (Q2Qc (14769 # 2))) = ofZ (3600 * h + 60 * m + s) /\
    formatTime (Fin (Q2Qc (14769 # 2)))
    = Some (twoDigits h ++ ":" ++ twoDigits m ++ ":" ++ twoDigits s).
Proof.
  assert (F : isFinite (Fin (Q2Qc (14769 # 2))) = true) by reflexivity.
  assert (L : (zero <=? Fin (Q2Qc (14769 # 2)))%js = true)
    by (vm_compute; reflexivity).
  assert (U : (Fin (Q2Qc (14769 # 2)) <? ofZ 360000)%js = true)
    by (vm_compute; reflexivity).
  split; [repeat split; assumption|].
  exact (formatTime_clock (Fin (Q2Qc (14769 # 2))) F L U).
Defined.

(** ** Negative times *)

Lemma Qc_trunc_small (r : Qc) :
  (inject_Z (-1) < r)%Q -> (r <= 0)%Q -> Qc_trunc r = 0.
Proof.
  unfold Qc_trunc. destruct r as [[n d] c]. simpl. unfold Qlt, Qle. simpl.
  intros A B. replace n with (- - n) by lia.
  rewrite Z.quot_opp_l by lia. rewrite Z.quot_small by lia. reflexivity.
Qed.

(** Division and remainder of a negative number above [-d] by [d]. *)
Lemma div_rem_negative (q : Qc) (d : Z) :
  0 < d -> (inject_Z (- d) < q)%Q -> (q < 0)%Q ->
  (exists r : Qc, (Fin q / ofZ d)%js = Fin r /\ floorIs r (-1)) /\
  rem (Fin q) (ofZ d) = Fin q.
Proof.
  intros Hd A B.
  assert (Pd : (0 < inject_Z d)%Q)
    by (change 0%Q with (inject_Z 0); now rewrite <- Zlt_Qlt).
  assert (X : ((q / Q2Qc (inject_Z d))%Qc == q / inject_Z d)%Q).
  { unfold Qcdiv, Qcmult, Qcinv, Q2Qc. cbn [this].
    now rewrite !Qred_correct. }
  assert (Lo : (inject_Z (-1) < q / inject_Z d)%Q).
  { apply Qlt_shift_div_l; [exact Pd|].
    rewrite <- inject_Z_mult. now replace (-1 * d) with (- d) by lia. }
  assert (Hi : (q / inject_Z d < 0)%Q).
  { apply Qlt_shift_div_r; [exact Pd|]. now rewrite Qmult_0_l. }
  split.
  - exists (q / Q2Qc (inject_Z d))%Qc. split.
    + unfold div, ofZ. rewrite ofZ_nonzero by lia. reflexivity.
    + unfold floorIs. rewrite X. split; [now apply Qlt_le_weak | exact Hi].
  - unfold rem, ofZ. rewrite ofZ_nonzero by lia.
    rewrite Qc_trunc_small;
      [| rewrite X; exact Lo | rewrite X; now apply Qlt_le_weak].
    f_equal. change (Q2Qc (inject_Z 0)) with 0%Qc. ring.
Qed.

Lemma padStart_negative (k : Z) :
  1 <= k <= 60 ->
  padStart 2 "0" (NilZero.string_of_int (Z.to_int (- k)))
  = NilZero.string_of_int (Z.to_int (- k)).
Proof.
  intros H.
  assert (A : forallb (fun n => String.eqb
                (padStart 2 "0"
                   (NilZero.string_of_int (Z.to_int (- Z.of_nat n))))
                (NilZero.string_of_int (Z.to_int (- Z.of_nat n))))
                (seq 1 60) = true)
    by (vm_compute; reflexivity).
  rewrite forallb_forall in A.
  specialize (A (Z.to_nat k)). rewrite Z2Nat.id in A by lia.
  apply String.eqb_eq, A, in_seq. lia.
Qed.

(** X27.  For a negative time above -60 seconds and not above -1
    second [formatTime] gives no clock reading: the hours and the minutes
    are both written [-1], and the seconds are the negative whole number
    the time is rounded down to.  (The statement stops at -1: for
    negative times of the smallest magnitudes binary64 division gives a
    negative zero, which [number] does not have.) *)
Theorem formatTime_negative (seconds : number) :
  isFinite seconds = true ->
  (ofZ (-60) <? seconds)%js = true -> (seconds <=? ofZ (-1))%js = true ->
  exists k : Z,
    1 <= k <= 60 /\
    Math_floor seconds = ofZ (- k) /\
    formatTime seconds
    = Some ("-1:-1:" ++ NilZero.string_of_int (Z.to_int (- k))).
Proof.
  intros F L U. apply isFinite_Fin in F as [q ->].
  unfold zero, ofZ in L, U. apply ltb_Fin in L. apply leb_Fin in U.
  assert (Lq : (inject_Z (-60) < q)%Q) by (qc2q; exact L).
  assert (Uq : (q < 0)%Q).
  { qc2q. eapply Qle_lt_trans; [exact U|]. reflexivity. }
  set (n := Qfloor q).
  assert (Fl : floorIs q n) by apply floorIs_Qfloor.
  clearbody n.
  assert (Hn : -60 <= n <= -1).
  { destruct Fl as [A B]. split.
    - assert (-60 < n + 1); [|lia]. rewrite Zlt_Qlt.
      eapply Qlt_trans; [exact Lq | exact B].
    - assert (n < 0); [|lia]. rewrite Zlt_Qlt.
      eapply Qle_lt_trans; [exact A | exact Uq]. }
  exists (- n). split; [lia|]. rewrite Z.opp_involutive.
  split; [now apply Math_floor_Fin|].
  assert (L3600 : (inject_Z (-3600) < q)%Q).
  { eapply Qlt_trans; [|exact Lq]. now rewrite <- Zlt_Qlt. }
  destruct (div_rem_negative q 3600 ltac:(lia) L3600 Uq)
    as [(r1 & E1 & F1) R1].
  destruct (div_rem_negative q 60 ltac:(lia) Lq Uq) as [(r2 & E2 & F2) R2].
  unfold formatTime.
  rewrite E1, R1, E2, R2.
  rewrite (Math_floor_Fin _ _ F1), (Math_floor_Fin _ _ F2),
          (Math_floor_Fin _ _ Fl).
  rewrite !toString_ofZ by lia.
  pose proof (padStart_negative (- n) ltac:(lia)) as Pn.
  rewrite Z.opp_involutive in Pn. rewrite Pn. reflexivity.
Qed.

Lemma formatTime_negative_witness :
  (isFinite (ofZ (-5)) = true /\
   (ofZ (-60) <? ofZ (-5))%js = true /\
   (ofZ (-5) <=? ofZ (-1))%js = true) /\
  exists k : Z,
    1 <= k <= 60 /\
    Math_floor (ofZ (-5)) = ofZ (- k) /\
    formatTime (ofZ (-5))
    = Some ("-1:-1:" ++ NilZero.string_of_int (Z.to_int (- k))).
Proof.
  assert (F : isFinite (ofZ (-5)) = true) by reflexivity.
  assert (L : (ofZ (-60) <? ofZ (-5))%js = true) by (vm_compute; reflexivity).
  assert (U : (ofZ (-5) <=? ofZ (-1))%js = true) by (vm_compute; reflexivity).
  split; [repeat split; assumption|].
  exact (formatTime_negative (ofZ (-5)) F L U).
Defined.

End ClockFacts.

(* ================================================================== *)
(** * The engine on the sample recording *)
(* ================================================================== *)

Section EngineFactsExamples.
Import Simulation Pose Recording Examples Flat.
Local Open Scope string_scope.
Local Open Scope js_scope.

Lemma interpolatedStates_never_throws_witness :
  reachable (seek oneAndHalf
               (loadData sampleData (initialService (P := Flat.platform)))) /\
  exists poses w',
    interpolatedStates
      (mkWorld (seek oneAndHalf
                  (loadData sampleData
                            (initialService (P := Flat.platform))))
               defaultEuler defaultEuler)
    = Ok (poses, w') /\
    engine w' = seek oneAndHalf (loadData sampleData initialService).
Proof.
  assert (R : reachable (seek oneAndHalf
                           (loadData sampleData
                                     (initialService (P := Flat.platform)))))
    by (apply reach_seek, reach_loadData, reach_initial).
  split; [exact R|].
  exact (interpolatedStates_never_throws
           (seek oneAndHalf (loadData sampleData initialService))
           defaultEuler defaultEuler R).
Defined.

Lemma sampleData_keys_NoDup : NoDup (JsMap.keys (AcmiData.objects sampleData)).
Proof.
  assert (E : JsMap.keys (AcmiData.objects sampleData) = ["A100"])
    by (vm_compute; reflexivity).
  rewrite E. constructor; [intros [] | constructor].
Qed.

Lemma sampleData_filedUnderId : filedUnderId (AcmiData.objects sampleData).
Proof.
  unfold filedUnderId.
  assert (E : AcmiData.objects sampleData = [("A100", sampleObject)])
    by (vm_compute; reflexivity).
  rewrite E. constructor; [vm_compute; reflexivity | constructor].
Qed.

Lemma one_pose_per_object_witness :
  exists poses w',
    interpolatedStates (sampleWorld oneAndHalf) = Ok (poses, w') /\
    JsMap.keys poses = JsMap.keys (AcmiData.objects sampleData) /\
    Forall (fun e => InterpolatedState.id (snd e) = fst e) poses.
Proof.
  destruct (interpolatedStates_holds sampleData (sampleWorld oneAndHalf)
              (sampleWorld_holds oneAndHalf)) as (w1 & E1 & _).
  eexists. exists w1. split; [exact E1|].
  exact (one_pose_per_object sampleData (sampleWorld oneAndHalf) w1 _
           (sampleWorld_holds oneAndHalf) sampleData_keys_NoDup
           sampleData_filedUnderId E1).
Defined.

Lemma listed_objects_are_active_witness :
  exists poses w',
    interpolatedStates (busyWorld oneAndHalf) = Ok (poses, w') /\
    map ObjectList.DisplayObject.id
        (ObjectList.listed (AcmiData.objects sampleData)
                           (time (engine (busyWorld oneAndHalf))))
    = map fst (filter (fun e => InterpolatedState.isActive (snd e)) poses).
Proof.
  destruct (interpolatedStates_holds sampleData (busyWorld oneAndHalf)
              (busyWorld_holds oneAndHalf)) as (w1 & E1 & _).
  eexists. exists w1. split; [exact E1|].
  exact (listed_objects_are_active sampleData (busyWorld oneAndHalf) w1 _
           (busyWorld_holds oneAndHalf) sampleData_keys_NoDup
           sampleData_filedUnderId E1).
Defined.


(** The sample, loaded and playing from its first frame. *)
Lemma playback_stops_at_end_witness :
  let s := play (loadData sampleData (initialService (P := Flat.platform))) in
  (isPlaying s = true /\ isDataLoaded s = true /\
   (duration s <=? time s + ofZ 5 * playbackSpeed s) = true) /\
  time (tick (ofZ 5) s) = duration s /\
  isPlaying (tick (ofZ 5) s) = false /\
  (forall d, tick d (tick (ofZ 5) s) = tick (ofZ 5) s) /\
  isPlaying (play (tick (ofZ 5) s)) = true /\
  time (play (tick (ofZ 5) s))
  = Math_max zero
      (Math_min (match acmiData s with
                 | Some data => AcmiData.startTime data
                 | None => zero
                 end) (duration s)).
Proof.
  intros s.
  assert (Pl : isPlaying s = true) by (vm_compute; reflexivity).
  assert (Ld : isDataLoaded s = true) by reflexivity.
  assert (End : (duration s <=? time s + ofZ 5 * playbackSpeed s) = true)
    by (vm_compute; reflexivity).
  split; [repeat split; assumption|].
  exact (playback_stops_at_end (ofZ 5) s Pl Ld End).
Defined.

(** The sample is dropped, then some playing around. *)
Lemma reset_unloads_witness :
  withoutLoad
    (reset (loadData sampleData (initialService (P := Flat.platform))))
    (play (seek (ofZ 3) (setSpeed (ofZ 2) (tick one
       (reset (loadData sampleData initialService)))))) /\
  (exists speed,
     play (seek (ofZ 3) (setSpeed (ofZ 2) (tick one
       (reset (loadData sampleData initialService)))))
     = setSpeed speed (reset (loadData sampleData initialService))) /\
  acmiData (play (seek (ofZ 3) (setSpeed (ofZ 2) (tick one
       (reset (loadData sampleData initialService)))))) = None /\
  isDataLoaded (play (seek (ofZ 3) (setSpeed (ofZ 2) (tick one
       (reset (loadData sampleData initialService)))))) = false /\
  isPlaying (play (seek (ofZ 3) (setSpeed (ofZ 2) (tick one
       (reset (loadData sampleData initialService)))))) = false /\
  time (play (seek (ofZ 3) (setSpeed (ofZ 2) (tick one
       (reset (loadData sampleData initialService)))))) = zero /\
  duration (play (seek (ofZ 3) (setSpeed (ofZ 2) (tick one
       (reset (loadData sampleData initialService)))))) = zero /\
  interpolatedStates
    (mkWorld (play (seek (ofZ 3) (setSpeed (ofZ 2) (tick one
                (reset (loadData sampleData initialService))))))
             defaultEuler defaultEuler)
  = Ok (JsMap.empty,
        mkWorld (play (seek (ofZ 3) (setSpeed (ofZ 2) (tick one
                   (reset (loadData sampleData initialService))))))
                defaultEuler defaultEuler).
Proof.
  assert (W : withoutLoad
                (reset (loadData sampleData
                                 (initialService (P := Flat.platform))))
                (play (seek (ofZ 3) (setSpeed (ofZ 2) (tick one
                   (reset (loadData sampleData initialService)))))))
    by (apply idle_play, idle_seek, idle_setSpeed, idle_tick, idle_here).
  split; [exact W|].
  exact (reset_unloads (loadData sampleData initialService) _
           defaultEuler defaultEuler W).
Defined.

(** An orientation whose angle is -90 degrees: the heading is 270. *)
Lemma heading_in_range_witness :
  let q := Quaternion.mk one zero (ofZ (-90)) zero in
  (isFinite (@radToDeg Flat.platform
               (Euler.y (setFromQuaternion q "ZYX"))) = true /\
   (ofZ (-360) <=? radToDeg (Euler.y (setFromQuaternion q "ZYX"))) = true) /\
  (zero <=? headingOf q) = true /\ (headingOf q <? ofZ 360) = true.
Proof.
  intros q.
  assert (F : isFinite (@radToDeg Flat.platform
                          (Euler.y (setFromQuaternion q "ZYX"))) = true)
    by reflexivity.
  assert (L : (ofZ (-360) <=? @radToDeg Flat.platform
                                (Euler.y (setFromQuaternion q "ZYX"))) = true)
    by (vm_compute; reflexivity).
  split; [split; assumption|].
  exact (@heading_in_range Flat.platform q F L).
Defined.

Lemma motion_constant_between_samples_witness :
  (enuMatrix (engine (sampleWorld oneAndHalf)) = Some (enuOf sampleData) /\
   enuMatrix (engine (busyWorld one)) = Some (enuOf sampleData) /\
   strictlyIncreasing (AcmiObject.states lastingObject) = true /\
   nth_error (AcmiObject.states lastingObject) 0 = Some firstSample /\
   nth_error (AcmiObject.states lastingObject) 1 = Some lastSample /\
   (TimeState.time firstSample <=? oneAndHalf) = true /\
   (oneAndHalf <? TimeState.time lastSample) = true /\
   (TimeState.time firstSample <=? one) = true /\
   (one <? TimeState.time lastSample) = true /\
   activeAt lastingObject oneAndHalf = true /\
   activeAt lastingObject one = true) /\
  exists pose pose' w' w2',
    getInterpolatedState lastingObject oneAndHalf (sampleWorld oneAndHalf)
    = Ok (pose, w') /\
    getInterpolatedState lastingObject one (busyWorld one) = Ok (pose', w2') /\
    motion pose = motion pose' /\
    InterpolatedState.verticalSpeed pose
    = (TimeState.altitude lastSample - TimeState.altitude firstSample)
      / (TimeState.time lastSample - TimeState.time firstSample).
Proof.
  assert (M1 : enuMatrix (engine (sampleWorld oneAndHalf))
               = Some (enuOf sampleData)) by reflexivity.
  assert (M2 : enuMatrix (engine (busyWorld one)) = Some (enuOf sampleData))
    by reflexivity.
  assert (I : strictlyIncreasing (AcmiObject.states lastingObject) = true)
    by (vm_compute; reflexivity).
  assert (N1 : nth_error (AcmiObject.states lastingObject) 0
               = Some firstSample) by (vm_compute; reflexivity).
  assert (N2 : nth_error (AcmiObject.states lastingObject) 1
               = Some lastSample) by (vm_compute; reflexivity).
  assert (L1 : (TimeState.time firstSample <=? oneAndHalf) = true)
    by (vm_compute; reflexivity).
  assert (U1 : (oneAndHalf <? TimeState.time lastSample) = true)
    by (vm_compute; reflexivity).
  assert (L2 : (TimeState.time firstSample <=? one) = true)
    by (vm_compute; reflexivity).
  assert (U2 : (one <? TimeState.time lastSample) = true)
    by (vm_compute; reflexivity).
  assert (A1 : activeAt lastingObject oneAndHalf = true)
    by (vm_compute; reflexivity).
  assert (A2 : activeAt lastingObject one = true)
    by (vm_compute; reflexivity).
  split; [repeat split; assumption|].
  exact (motion_constant_between_samples lastingObject 0 firstSample
           lastSample oneAndHalf one (sampleWorld oneAndHalf) (busyWorld one)
           (enuOf sampleData) M1 M2 I N1 N2 L1 U1 L2 U2 A1 A2).
Defined.

Lemma aircraftWorld_holds (t : number) :
  holds aircraftData (engine (aircraftWorld t)).
Proof. split; reflexivity. Qed.

Lemma aircraftData_keys_NoDup :
  NoDup (JsMap.keys (AcmiData.objects aircraftData)).
Proof.
  assert (E : JsMap.keys (AcmiData.objects aircraftData) = ["B7"])
    by (vm_compute; reflexivity).
  rewrite E. constructor; [intros [] | constructor].
Qed.

Lemma panel_iff_followed_aircraft_witness :
  exists poses w',
    interpolatedStates (aircraftWorld (ofZ 2)) = Ok (poses, w') /\
    (App.selectedAircraftData (Some "B7")
       (acmiData (engine (aircraftWorld (ofZ 2)))) poses <> None <->
     exists id obj,
       Some "B7" = Some id /\ id <> "" /\
       JsMap.get id (AcmiData.objects aircraftData) = Some obj /\
       Renderer._getUnitCategory obj = Renderer.Aircraft).
Proof.
  destruct (interpolatedStates_holds aircraftData (aircraftWorld (ofZ 2))
              (aircraftWorld_holds (ofZ 2))) as (w1 & E1 & _).
  eexists. exists w1. split; [exact E1|].
  exact (panel_iff_followed_aircraft aircraftData (aircraftWorld (ofZ 2)) w1
           _ (Some "B7") (aircraftWorld_holds (ofZ 2))
           aircraftData_keys_NoDup E1).
Defined.

(** Five seconds in, two seconds after the aircraft was removed. *)
Lemma panel_of_inactive_aircraft_witness :
  ("B7" <> "" /\
   JsMap.get "B7" (AcmiData.objects aircraftData) = Some aircraft /\
   Renderer._getUnitCategory aircraft = Renderer.Aircraft /\
   activeAt aircraft (time (engine (aircraftWorld (ofZ 5)))) = false) /\
  exists poses w',
    interpolatedStates (aircraftWorld (ofZ 5)) = Ok (poses, w') /\
    App.selectedAircraftData (Some "B7")
      (acmiData (engine (aircraftWorld (ofZ 5)))) poses
    = Some (AircraftDisplayData.mk
              (ObjectList.orElse
                 (JsMap.get "Name" (AcmiObject.properties aircraft)) "N/A")
              zero zero zero zero).
Proof.
  assert (Hid : "B7" <> "") by discriminate.
  assert (G : JsMap.get "B7" (AcmiData.objects aircraftData) = Some aircraft)
    by (vm_compute; reflexivity).
  assert (C : Renderer._getUnitCategory aircraft = Renderer.Aircraft)
    by (vm_compute; reflexivity).
  assert (A : activeAt aircraft (time (engine (aircraftWorld (ofZ 5)))) = false)
    by (vm_compute; reflexivity).
  split; [exact (conj Hid (conj G (conj C A)))|].
  destruct (interpolatedStates_holds aircraftData (aircraftWorld (ofZ 5))
              (aircraftWorld_holds (ofZ 5))) as (w1 & E1 & _).
  eexists. exists w1. split; [exact E1|].
  exact (panel_of_inactive_aircraft aircraftData (aircraftWorld (ofZ 5)) w1
           _ "B7" aircraft (aircraftWorld_holds (ofZ 5))
           aircraftData_keys_NoDup E1 Hid G C A).
Defined.

Lemma resolveShapeName_name_witness :
  Renderer._resolveShapeName carrier = Some "Watercraft.CVN-74.obj" /\
  "Watercraft.CVN-74.obj" <> "" /\
  exists rawShape,
    JsMap.get "Shape" (AcmiObject.properties carrier) = Some rawShape /\
    ((forallb (fun c => negb (Renderer.isPathSeparator c))
              (JsString.chars (JsString.trim rawShape)) = true /\
      "Watercraft.CVN-74.obj" = JsString.trim rawShape) \/
     (exists before c after,
        Renderer.isPathSeparator c = true /\
        forallb (fun c => negb (Renderer.isPathSeparator c))
                (JsString.chars after) = true /\
        JsString.trim rawShape = before ++ String c after /\
        "Watercraft.CVN-74.obj"
        = if JsString.isEmpty after then JsString.trim rawShape
          else after)).
Proof.
  assert (R : Renderer._resolveShapeName carrier
              = Some "Watercraft.CVN-74.obj") by (vm_compute; reflexivity).
  split; [exact R|].
  exact (resolveShapeName_name carrier "Watercraft.CVN-74.obj" R).
Defined.

(** The aircraft of the recording at 2 s, where it is active, drawn for
    the first time. *)
Lemma drawn_height_floor_witness :
  InterpolatedState.isActive (poseOf (enuOf aircraftData) aircraft (ofZ 2))
  = true /\
  isNaN (InterpolatedState.z (poseOf (enuOf aircraftData) aircraft (ofZ 2)))
  = false /\
  exists g',
    Renderer.updateObject true (poseOf (enuOf aircraftData) aircraft (ofZ 2))
      (Some aircraft) None (Renderer.mkGroup true (Vector3.mk zero zero zero))
    = Some g' /\
    Renderer.visible g' = true /\
    (ofZ 9 <=? Vector3.y (Renderer.position g')) = true /\
    (InterpolatedState.z (poseOf (enuOf aircraftData) aircraft (ofZ 2))
     <=? Vector3.y (Renderer.position g')) = true.
Proof.
  assert (A : InterpolatedState.isActive
                (poseOf (enuOf aircraftData) aircraft (ofZ 2)) = true)
    by (vm_compute; reflexivity).
  assert (Z : isNaN (InterpolatedState.z
                       (poseOf (enuOf aircraftData) aircraft (ofZ 2)))
              = false)
    by (vm_compute; reflexivity).
  split; [exact A|]. split; [exact Z|].
  assert (E : exists g',
            Renderer.updateObject true
              (poseOf (enuOf aircraftData) aircraft (ofZ 2))
              (Some aircraft) None
              (Renderer.mkGroup true (Vector3.mk zero zero zero))
            = Some g').
  { unfold Renderer.updateObject. cbn [negb]. rewrite A. eexists.
    reflexivity. }
  destruct E as [g' E]. exists g'. split; [exact E|].
  destruct (proj1 (drawn_height_floor _ _ _ _ g' E) A) as (V & _ & _ & H).
  destruct (H Z) as (L1 & L2 & _).
  split; [exact V|]. split; [exact L1 | exact L2].
Defined.

End EngineFactsExamples.
